(* ===== verification/_CoqProject ===== *)
-Q . S2P
Prelude.v
PyStr.v
Runtime.v
ResultIndex.v
Fetch.v
Coroutine.v
Batch.v
Entry.v
Gather.v
SharedIndex.v
RunLoop.v
Update.v
