(* ===== verification/Prelude.v ===== *)
(** * A verification library for [tsto-mayhemids] (grab_mayhemids.py, update.py)

    ** The program

    [src/grab_mayhemids.py] enumerates the integer range [START_ID..END_ID]
    of [applicationUserId]s.  For each id it sends an HTTP GET for an XML
    document, and when the document's root is [<Resources>] it stores the
    body in [applicationUserId_<id>_mayhemId_<m>.xml], where [m] is the last
    [/]-segment of the [<URI>] child.  Its parts, leaf first:
    - the existing-result index: [load_existing_files] (lines 23-34) scans
      the working directory once and fills the global dict
      [existing_files_dict] (filename token [1] -> filename);
    - the fetch worker: [fetch_user_data] (lines 36-111), a recursive
      coroutine that consults the index, takes the global semaphore,
      performs the request under two timeouts, classifies the response or
      the exception, retries with backoff [2 ** (MAX_RETRIES - retries)]
      by calling itself with [retries - 1] (still holding its permit),
      writes the file and records it in the index;
    - the concurrency gate: the [asyncio.Semaphore(MAX_CONCURRENT_REQUESTS)]
      shared by all workers (lines 20, 47, 124);
    - the batch driver: [main] (lines 122-135) cuts the range into chunks of
      [batch_size] ids and [process_users] (lines 113-120) gathers one worker
      per id of a chunk.
    [src/update.py] rewrites the [START_ID =] and [END_ID =] lines of the
    script between runs, adding [increment] and clamping [END_ID] to
    [max_end_id].

    ** The files

    - [Prelude] (this file): the [mayhem] hint and rewrite databases, the
      development's tactics and the generic list and option lemmas.
    - [PyStr]: the Python string semantics the code relies on: [str(int)],
      [int(str)], [str.split] on one character, [str.strip],
      [str.startswith], [str.endswith], list indexing [l[1]] and [l[-1]]
      with [IndexError] as [None].  Round trips ([int(str(n)) = n],
      [split] of a join) and character-freedom lemmas.
    - [Runtime]: the asyncio world the coroutines run in: Python exceptions
      ([exn]), the printed and timed events ([event]), the world
      ([world]: directory, dict, semaphore counter, event log), a state and
      exception monad [M] with [try_except], [with_semaphore] (acquire,
      body, release on every exit) and the network as a type class
      [Network] (the server's answer to the n-th request of a url).
    - [ResultIndex]: [load_existing_files] and its specification: the dict
      maps exactly the token [1] of every [.xml] name of the directory to
      the last such name of the listing ([load_existing_files_last]).
    - [Fetch]: [fetch_user_data], branch by branch, as a [Fixpoint] on
      [retries] (the recursion of the source decreases [retries]; no fuel
      is needed), against an XML-parser interface [XmlLib]; then its
      theorems: the behaviour of the worker on every branch (skip, save,
      rejection, terminal status, parse errors), the retry budget and the
      backoff delays, the permits it holds, the deadlock of the nested
      semaphore, the exceptions that escape it, and the index/directory
      invariant it keeps.  They rest on [fetch_closed], an induction
      principle for every property closed under the monad's combinators.
    - [Coroutine]: the same worker as a task of the asyncio event loop: a
      second instance [co] of the effect classes in which a coroutine is
      the tree of its atomic steps and suspension points.  The task run
      alone is the sequential worker ([fetch_refines]); [cap]
      counts the permits a task holds and bounds them by [r + 1] for a
      worker with [r] retries ([fetch_cap]).
    - [Batch]: [process_users] and [main] with the gather run in list
      order, a schedule asyncio does not follow, used only where the
      result does not depend on the schedule: the chunking and its
      partition of the range ([chunks_partition], [chunks_bounded]) and
      the rerun that skips every id whose file the directory already
      holds ([rerun_skips_saved]).
    - [Entry]: the process: the globals of lines 19-20, [asyncio.run(main())]
      and the elapsed-time print; a rerun of the whole program over a
      directory that already holds every result prints only the chunk and
      skip messages, makes no request and leaves the directory unchanged
      ([script_rerun_quiet]); a first run
      against a server that answers every id with a valid body ends
      normally and leaves every id of the range saved, its file holding
      the body and recorded in the dict ([script_first_run_saves]).
    - [Gather]: a chunk under the event loop: configurations of tasks and
      world, [gstep] resuming any task that can run.  Permits are
      conserved under every interleaving; a gather of [n] workers with [r]
      retries can get stuck exactly when the semaphore has at most
      [n * r] permits and every request fails ([deadlock_threshold]), and
      with the constants of the code (1000 ids, 25000 permits, 1000
      retries) an outage deadlocks a chunk ([chunk_deadlock]).  With more
      than [n * r] permits no reachable configuration is stuck
      ([workers_never_stuck]), and every resumption consumes part of a
      task, so no schedule is infinite.
    - [SharedIndex]: [existing_files_dict] and the directory shared by the
      workers of a chunk.  A save opens, writes and closes its file (three
      awaits) before recording it, so the dict lags behind the directory
      while saves are in progress; typing each task by the files it has
      created and not yet recorded shows that under every interleaving the
      dict stays sound, no file is lost, and dict and directory agree once
      the chunk has ended ([gather_index_consistent]); the worker is well
      typed for permits and pending files ([fetch_task_typed]).
    - [RunLoop]: [main]'s loop over the chunks with each gather
      interleaved: the index stays sound over the whole run and agrees
      with the directory between chunks ([run_index_consistent]); with
      chunks of fewer than [permits / MAX_RETRIES] ids the run always ends
      ([run_completes]); once a worker has raised, [main] never finishes
      that chunk or starts another, and every run that stops has raised
      ([raise_aborts_run]).
    - [Update]: [update.py]: the text read and written back, line
      rewriting, [int] parsing and the clamp; only the assigned lines
      change, and the file is written before the final print, so a script
      without [END_ID =] is rewritten and then raises [NameError].

    ** Modelling choices

    - Integers are [Z] (Python ints are unbounded); [retries] is a [nat]
      because the source only calls with [MAX_RETRIES] and [retries - 1]
      under [retries > 0].
    - The network and the XML library are not part of the repository: they
      are type classes whose instances are arbitrary, so every theorem holds
      for every server behaviour and every parser.
    - The effects of the worker ([print], [sleep], the dict, the file
      write, the request, [try]/[except], [async with semaphore]) are
      operational type classes of [Runtime]; [fetch_user_data] is written
      once against them and instantiated twice, sequentially ([M]) and as a
      task ([Coroutine.co]).
    - The event log records each [print], [asyncio.sleep] and request in
      order; wall-clock time is the sum of the sleeps.
    - A chunk's [asyncio.gather] is modelled twice: [Batch] runs the
      workers one after the other, which asyncio does not do (it starts
      every worker before it handles any response), and is used only for
      schedule-independent results; [Gather] lets the event loop
      interleave them at their awaits:
      the request, [asyncio.sleep], a semaphore with no free permit, and
      the open, write and close of [aiofiles].
      The choice of the next task is free: timers, network latency and the
      FIFO order of the semaphore's waiters are over-approximated, so the
      safety theorems of [Gather] hold for every real schedule.  Its
      reachability theorems exhibit a schedule of [gstep] that runs the
      workers one after the other, each taking permits until none is
      free; the lockstep
      schedule asyncio follows when every request fails at once reaches
      the same kind of deadlock, but is not constructed.
    - A worker that waits on a semaphore whose permits it holds itself can
      never be woken: [M] reports this as [Stuck].

    Not modelled: the clock of [__main__] (its print is an event without
    the time),
    aiohttp's connection pool and the responses the code never releases,
    the cancellation by [asyncio.run] of the other tasks of a chunk once
    [main] has raised (the run stops at [Raised]; those tasks would get
    [CancelledError] at their next await and give their permits back),
    and
    the file system under update.py (the script is the text [open] reads
    and the text it writes back). *)

From Stdlib Require Import ZArith Lia.
From stdpp Require Import base list option relations.

(** The hint databases of the development. *)
Create HintDb mayhem.
Create Rewrite HintDb mayhem_rw.

Declare Scope mayhem_scope.
Delimit Scope mayhem_scope with mayhem.

(** ** Tactics *)

(** Destruct every [match] on a scrutinee of the goal, keeping equations. *)
Ltac case_goal :=
  match goal with
  | |- context [match ?x with _ => _ end] =>
      let E := fresh "E" in destruct x eqn:E
  end.

(** Invert a hypothesis and substitute its equations. *)
Ltac invc H := inversion H; subst; clear H.

(** Close a goal by rewriting with [mayhem_rw] and the [mayhem] hints. *)
Ltac mayhem_auto :=
  repeat (autorewrite with mayhem_rw in *; simpl in *);
  try solve [eauto with mayhem | lia | congruence].

(** ** Generic lemmas *)

Section ListLemmas.
Context {A : Type}.

(** Counting the occurrences satisfying a boolean test. *)
Lemma length_filter_app (p : A -> bool) (l1 l2 : list A) :
  length (List.filter p (l1 ++ l2)) =
  length (List.filter p l1) + length (List.filter p l2).
Proof. by rewrite List.filter_app, length_app. Qed.

Lemma length_filter_cons_true (p : A -> bool) (x : A) (l : list A) :
  p x = true -> length (List.filter p (x :: l)) = S (length (List.filter p l)).
Proof. intros Hp. simpl. by rewrite Hp. Qed.

Lemma length_filter_cons_false (p : A -> bool) (x : A) (l : list A) :
  p x = false -> length (List.filter p (x :: l)) = length (List.filter p l).
Proof. intros Hp. simpl. by rewrite Hp. Qed.

Lemma length_filter_nil (p : A -> bool) :
  length (List.filter p []) = 0.
Proof. reflexivity. Qed.

(** [last] of a non-empty list ignores the default. *)
Lemma last_app_singleton (l : list A) (x d : A) :
  List.last (l ++ [x]) d = x.
Proof. induction l as [|y l IH]; [done|]. simpl. destruct (l ++ [x]) eqn:E; [|done].
  by destruct l. Qed.
End ListLemmas.

(** ** Well-founded orders *)

Section WellFounded.
Context {A : Type} (R : relation A).

(** The last step of a chain. *)
Lemma tc_last x y : tc R x y -> exists z, rtc R x z /\ R z y.
Proof.
  induction 1 as [x y Hxy|x y z Hxy _ (u & Hu & Huz)]; [by exists x|].
  exists u. split; [by eapply rtc_l|done].
Qed.

Lemma Acc_tc x : Acc R x -> Acc (tc R) x.
Proof.
  induction 1 as [x _ IH]. constructor. intros y Hy.
  destruct (tc_last y x Hy) as (z & Hyz & Hzx). specialize (IH z Hzx).
  inversion Hyz as [|? y' ? Hyy' Hy'z]; subst; [done|].
  apply (Acc_inv IH). eapply tc_rtc_r; [by apply tc_once|done].
Qed.

(** Lists in which one element at a time gets smaller. *)
Definition one_smaller (l' l : list A) : Prop :=
  exists i x x', l !! i = Some x /\ R x' x /\ l' = <[i := x']> l.

Lemma Acc_one_smaller_cons x l :
  Acc R x -> Acc one_smaller l -> Acc one_smaller (x :: l).
Proof.
  intros Hx. revert l. induction Hx as [x _ IHx]. intros l Hl.
  induction Hl as [l Hl IHl]. constructor. intros l' (i & y & y' & Hi & Hr & ->).
  destruct i as [|i]; simpl in *.
  - injection Hi as <-. apply IHx; [done|by constructor].
  - apply IHl. by exists i, y, y'.
Qed.

Lemma wf_one_smaller : well_founded R -> well_founded one_smaller.
Proof.
  intros Hwf l. induction l as [|x l IH].
  - constructor. intros l' (i & ? & ? & Hi & _). by rewrite lookup_nil in Hi.
  - by apply Acc_one_smaller_cons.
Qed.
End WellFounded.

#[export] Hint Rewrite @length_filter_app @length_filter_nil : mayhem_rw.
#[export] Hint Rewrite @length_app : mayhem_rw.

(** ** Lemmas on [Z] powers used by the backoff bounds *)

Lemma pow2_pos (n : nat) : (0 < 2 ^ Z.of_nat n)%Z.
Proof. apply Z.pow_pos_nonneg; lia. Qed.

Lemma pow2_le_mono (m n : nat) : m <= n -> (2 ^ Z.of_nat m <= 2 ^ Z.of_nat n)%Z.
Proof. intros H. apply Z.pow_le_mono_r; lia. Qed.

Lemma pow2_lt_mono (m n : nat) : m < n -> (2 ^ Z.of_nat m < 2 ^ Z.of_nat n)%Z.
Proof. intros H. apply Z.pow_lt_mono_r; lia. Qed.

Lemma pow2_succ (n : nat) : (2 ^ Z.of_nat (S n) = 2 * 2 ^ Z.of_nat n)%Z.
Proof. rewrite Nat2Z.inj_succ, Z.pow_succ_r; lia. Qed.

#[export] Hint Resolve pow2_pos pow2_le_mono pow2_lt_mono : mayhem.
