(* ===== verification/PyStr.v ===== *)
(** * PyStr: the Python string operations the scripts rely on

    [str(n)] of an [int], [int(s)], [s.split(sep)] with a one-character
    separator, [s.strip()], [s.startswith(p)], [s.endswith(p)] and the list
    indexing [l[i]] with negative indices, where [None] stands for the
    [IndexError] (or [ValueError] for [int]) that CPython raises. *)

From Stdlib Require Import ZArith Lia String Ascii DecimalString DecimalZ DecimalPos.
From stdpp Require Import base list.
From S2P Require Import Prelude.

Local Open Scope string_scope.

Module PyStr.

(** ** Character classes *)

(** [str.isspace] on the ASCII range: tab, newline, vertical tab, form
    feed, carriage return, the four information separators and space. *)
Definition py_isspace (c : ascii) : bool :=
  let n := nat_of_ascii c in
  (Nat.leb 9 n && Nat.leb n 13) || (Nat.leb 28 n && Nat.leb n 32).

(** A decimal digit. *)
Definition py_isdigit (c : ascii) : bool :=
  let n := nat_of_ascii c in Nat.leb 48 n && Nat.leb n 57.

(** Every character of [s] satisfies [p]. *)
Fixpoint str_forall (p : ascii -> bool) (s : string) : bool :=
  match s with
  | EmptyString => true
  | String c s' => p c && str_forall p s'
  end.

(** ** [str(n)] for an [int] *)

(** CPython prints an [int] in decimal, with a leading [-] when negative
    and no leading zeros. *)
Definition py_str_Z (z : Z) : string :=
  NilEmpty.string_of_int (Z.to_int z).

(** ** [s.split(sep)] with a one-character separator *)

(** Every occurrence of [sep] cuts; empty pieces are kept, and the result
    always has at least one element. *)
Fixpoint py_split (sep : ascii) (s : string) : list string :=
  match s with
  | EmptyString => [""]
  | String c s' =>
      if Ascii.eqb c sep then "" :: py_split sep s'
      else match py_split sep s' with
           | [] => [String c ""]
           | h :: t => String c h :: t
           end
  end.

(** ** List indexing [l[i]] *)

(** Python accepts [-len(l) <= i < len(l)]; outside, [IndexError]. *)
Definition py_getitem {A} (l : list A) (i : Z) : option A :=
  if (0 <=? i)%Z then l !! Z.to_nat i
  else if (0 <=? Z.of_nat (length l) + i)%Z then l !! Z.to_nat (Z.of_nat (length l) + i)
  else None.

(** ** [strip], [startswith], [endswith] *)

Fixpoint py_lstrip (s : string) : string :=
  match s with
  | EmptyString => EmptyString
  | String c s' => if py_isspace c then py_lstrip s' else s
  end.

Fixpoint py_rstrip (s : string) : string :=
  match s with
  | EmptyString => EmptyString
  | String c s' =>
      match py_rstrip s' with
      | EmptyString => if py_isspace c then EmptyString else String c EmptyString
      | r => String c r
      end
  end.

Definition py_strip (s : string) : string := py_rstrip (py_lstrip s).

Definition py_startswith (s prefix : string) : bool := String.prefix prefix s.

Definition py_endswith (s suffix : string) : bool :=
  let n := String.length s in
  let m := String.length suffix in
  Nat.leb m n && String.eqb (String.substring (n - m) m s) suffix.

(** ** [int(s)] *)

(** A decimal digit as the constructor of [Decimal.uint] it starts. *)
Definition digit_cons (c : ascii) : option (Decimal.uint -> Decimal.uint) :=
  match nat_of_ascii c with
  | 48 => Some Decimal.D0 | 49 => Some Decimal.D1 | 50 => Some Decimal.D2
  | 51 => Some Decimal.D3 | 52 => Some Decimal.D4 | 53 => Some Decimal.D5
  | 54 => Some Decimal.D6 | 55 => Some Decimal.D7 | 56 => Some Decimal.D8
  | 57 => Some Decimal.D9
  | _ => None
  end.

(** The digits of an [int] literal: [digit (_? digit)*].  [after_digit]
    says whether the previous character was a digit, which an underscore
    and the end of the literal both require. *)
Fixpoint py_digits (s : string) (after_digit : bool) : option Decimal.uint :=
  match s with
  | EmptyString => if after_digit then Some Decimal.Nil else None
  | String c s' =>
      match digit_cons c with
      | Some d => d <$> py_digits s' true
      | None =>
          if Ascii.eqb c "_" && after_digit then py_digits s' false else None
      end
  end.

(** [int(s)]: surrounding whitespace, an optional sign, then the digits. *)
Definition py_int (s : string) : option Z :=
  match py_strip s with
  | String c s' =>
      if Ascii.eqb c "-" then
        (fun d => Z.of_int (Decimal.Neg d)) <$> py_digits s' false
      else if Ascii.eqb c "+" then
        (fun d => Z.of_int (Decimal.Pos d)) <$> py_digits s' false
      else (fun d => Z.of_int (Decimal.Pos d)) <$> py_digits (String c s') false
  | EmptyString => None
  end.

(** ** Lemmas *)

(** The characters different from [sep]. *)
Definition not_char (sep : ascii) (c : ascii) : bool := negb (Ascii.eqb c sep).

Lemma str_forall_app p a b :
  str_forall p (a ++ b) = str_forall p a && str_forall p b.
Proof. induction a as [|c a IH]; [done|]. simpl. rewrite IH. by destruct (p c). Qed.

Lemma py_split_nonempty sep s : py_split sep s <> [].
Proof.
  induction s as [|c s IH]; simpl; [done|].
  destruct (Ascii.eqb c sep); [done|]. by destruct (py_split sep s).
Qed.

(** A string free of [sep] is one piece. *)
Lemma py_split_no_sep sep a :
  str_forall (not_char sep) a = true -> py_split sep a = [a].
Proof.
  induction a as [|c a IH]; simpl; [done|].
  unfold not_char at 1. destruct (Ascii.eqb c sep); [done|].
  simpl. intros Ha. by rewrite IH.
Qed.

(** A [sep]-free prefix followed by [sep] is the first piece. *)
Lemma py_split_app_sep sep a b :
  str_forall (not_char sep) a = true ->
  py_split sep (a ++ String sep b) = a :: py_split sep b.
Proof.
  induction a as [|c a IH]; simpl.
  - by rewrite Ascii.eqb_refl.
  - unfold not_char at 1. destruct (Ascii.eqb c sep); [done|].
    simpl. intros Ha. by rewrite IH.
Qed.

(** No piece contains the separator. *)
Lemma py_split_pieces sep s :
  Forall (fun p => str_forall (not_char sep) p = true) (py_split sep s).
Proof.
  induction s as [|c s IH]; simpl; [by repeat constructor|].
  destruct (Ascii.eqb c sep) eqn:E; [by constructor|].
  destruct (py_split sep s) as [|h t] eqn:Es; [by destruct (py_split_nonempty sep s)|].
  inversion IH; subst. constructor; [|done].
  simpl. unfold not_char. by rewrite E.
Qed.

(** [l[-1]] is the last element of a non-empty list. *)
Lemma py_getitem_last {A} (l : list A) (x : A) :
  py_getitem (l ++ [x]) (-1) = Some x.
Proof.
  unfold py_getitem. rewrite length_app. cbn [Z.leb Z.compare].
  replace (Z.of_nat (length l + length [x]) + -1)%Z with (Z.of_nat (length l)) by (simpl; lia).
  rewrite (proj2 (Z.leb_le _ _)) by lia.
  by rewrite Nat2Z.id, lookup_app_r, Nat.sub_diag by lia.
Qed.

(** [l[-1]] of a split is defined and free of the separator. *)
Lemma py_split_last sep s :
  exists p, py_getitem (py_split sep s) (-1) = Some p /\
            str_forall (not_char sep) p = true.
Proof.
  pose proof (py_split_pieces sep s) as Hall.
  destruct (exists_last (py_split_nonempty sep s)) as (l & x & E).
  rewrite E in *. exists x. rewrite py_getitem_last. split; [done|].
  apply Forall_app in Hall as [_ Hx]. by inversion Hx.
Qed.

(** The characters [str(n)] prints: digits and the minus sign. *)
Definition int_char (c : ascii) : bool := py_isdigit c || Ascii.eqb c "-".

Lemma string_of_uint_digits d :
  str_forall py_isdigit (NilEmpty.string_of_uint d) = true.
Proof. induction d; simpl; by rewrite ?IHd. Qed.

Lemma py_str_Z_chars z : str_forall int_char (py_str_Z z) = true.
Proof.
  assert (H : forall d, str_forall int_char (NilEmpty.string_of_uint d) = true).
  { induction d; simpl; by rewrite ?IHd. }
  unfold py_str_Z, NilEmpty.string_of_int. destruct (Z.to_int z); simpl; by rewrite ?H.
Qed.

Lemma str_forall_impl (p q : ascii -> bool) s :
  (forall c, p c = true -> q c = true) ->
  str_forall p s = true -> str_forall q s = true.
Proof.
  intros Hpq. induction s as [|c s IH]; simpl; [done|].
  destruct (p c) eqn:Ep; [|done]. simpl. rewrite (Hpq c Ep). done.
Qed.

(** [str(n)] never contains [sep] when [sep] is neither a digit nor [-]. *)
Lemma py_str_Z_free sep z :
  int_char sep = false -> str_forall (not_char sep) (py_str_Z z) = true.
Proof.
  intros Hsep. apply (str_forall_impl int_char); [|apply py_str_Z_chars].
  intros c Hc. unfold not_char. destruct (Ascii.eqb_spec c sep); [congruence|done].
Qed.

(** Stripping a string with no whitespace does nothing. *)
Lemma py_strip_id s :
  str_forall (fun c => negb (py_isspace c)) s = true -> py_strip s = s.
Proof.
  unfold py_strip. intros H.
  assert (Hl : py_lstrip s = s).
  { destruct s as [|c s]; [done|]. simpl in *. by destruct (py_isspace c). }
  rewrite Hl. clear Hl. induction s as [|c s IH]; [done|].
  simpl in *. destruct (py_isspace c); [done|]. simpl in H.
  rewrite IH by done. by destruct s.
Qed.

Lemma py_digits_uint d : py_digits (NilEmpty.string_of_uint d) true = Some d.
Proof. induction d; simpl; by rewrite ?IHd. Qed.

Lemma py_digits_uint_start d :
  d <> Decimal.Nil -> py_digits (NilEmpty.string_of_uint d) false = Some d.
Proof. destruct d; simpl; intros; by rewrite ?py_digits_uint. Qed.

(** [int(str(n)) = n]. *)
Lemma py_int_str z : py_int (py_str_Z z) = Some z.
Proof.
  unfold py_int. rewrite py_strip_id.
  2:{ apply (str_forall_impl int_char); [|apply py_str_Z_chars].
      intros c. unfold int_char, py_isdigit, py_isspace.
      destruct (Ascii.eqb_spec c "-"); [by subst|].
      rewrite orb_false_r. destruct (Nat.leb_spec 48 (nat_of_ascii c)), (Nat.leb_spec (nat_of_ascii c) 57),
        (Nat.leb_spec 9 (nat_of_ascii c)), (Nat.leb_spec (nat_of_ascii c) 13),
        (Nat.leb_spec 28 (nat_of_ascii c)), (Nat.leb_spec (nat_of_ascii c) 32); simpl; lia || done. }
  pose proof (DecimalZ.of_to z) as Hz. unfold py_str_Z.
  destruct z as [|p|p]; simpl in *; [done| |].
  - pose proof (DecimalPos.Unsigned.to_uint_nonnil p) as Hnn.
    revert Hz Hnn. generalize (Pos.to_uint p) as d. intros d Hz Hnn.
    destruct d; [done|..]; simpl; rewrite py_digits_uint; simpl; congruence.
  - rewrite py_digits_uint_start, <- Hz; [done|]. apply DecimalPos.Unsigned.to_uint_nonnil.
Qed.

Lemma string_app_assoc a b c : (a ++ (b ++ c)) = ((a ++ b) ++ c).
Proof. induction a as [|x a IH]; [done|]. simpl. by rewrite IH. Qed.

Lemma string_app_nil_r s : (s ++ "") = s.
Proof. induction s as [|c s IH]; simpl; [done|by rewrite IH]. Qed.

(** [s.endswith(b)] holds of every [a ++ b]. *)
Lemma substring_length_self b : String.substring 0 (String.length b) b = b.
Proof. induction b as [|c b IH]; [done|]. simpl. by rewrite IH. Qed.

Lemma substring_app_r a b : String.substring (String.length a) (String.length b) (a ++ b) = b.
Proof. induction a as [|c a IH]; [apply substring_length_self|]. simpl. apply IH. Qed.

Lemma length_string_app a b : String.length (a ++ b) = String.length a + String.length b.
Proof. induction a as [|c a IH]; [done|]. simpl. by rewrite IH. Qed.

Lemma py_endswith_app a b : py_endswith (a ++ b) b = true.
Proof.
  unfold py_endswith. rewrite length_string_app, Nat.add_sub, substring_app_r.
  rewrite String.eqb_refl, andb_true_r. apply Nat.leb_le. lia.
Qed.

(** [str(n)] is never empty. *)
Lemma py_str_Z_nonempty z : exists c s, py_str_Z z = String c s.
Proof.
  unfold py_str_Z, NilEmpty.string_of_int. destruct z as [|p|p]; simpl; [by eexists _, _|..].
  - pose proof (DecimalPos.Unsigned.to_uint_nonnil p) as Hn.
    destruct (Pos.to_uint p); [done|..]; by eexists _, _.
  - by eexists _, _.
Qed.

Definition not_space (c : ascii) : bool := negb (py_isspace c).

Lemma int_char_not_space c : int_char c = true -> not_space c = true.
Proof.
  unfold int_char, py_isdigit, not_space, py_isspace.
  destruct (Ascii.eqb_spec c "-"); [by subst|]. rewrite orb_false_r.
  destruct (Nat.leb_spec 48 (nat_of_ascii c)), (Nat.leb_spec (nat_of_ascii c) 57),
    (Nat.leb_spec 9 (nat_of_ascii c)), (Nat.leb_spec (nat_of_ascii c) 13),
    (Nat.leb_spec 28 (nat_of_ascii c)), (Nat.leb_spec (nat_of_ascii c) 32); simpl; lia || done.
Qed.

Lemma py_rstrip_newline s :
  str_forall not_space s = true -> py_rstrip (s ++ String "010" "") = s.
Proof.
  induction s as [|c s IH]; [done|]. simpl. intros [Hc Hs]%andb_prop.
  rewrite IH by done. unfold not_space in Hc. destruct s; [|done].
  by destruct (py_isspace c).
Qed.

(** [" " + str(n) + "\n"].strip() is [str(n)]. *)
Lemma py_strip_padded_int z :
  py_strip (String " " (py_str_Z z ++ String "010" "")) = py_str_Z z.
Proof.
  pose proof (str_forall_impl _ _ _ int_char_not_space (py_str_Z_chars z)) as Hns.
  destruct (py_str_Z_nonempty z) as (c & s & Hcs). rewrite Hcs in *.
  pose proof Hns as Hns'. simpl in Hns'. apply andb_prop in Hns' as [Hc _].
  unfold not_space in Hc. unfold py_strip. simpl.
  destruct (py_isspace c); [done|].
  change (String c (s ++ String "010" "")) with (String c s ++ String "010" "").
  by apply py_rstrip_newline.
Qed.

(** Stripping the right end only looks past a prefix when the rest is
    blank. *)
Lemma py_rstrip_app p r :
  py_rstrip r <> "" -> py_rstrip (p ++ r) = p ++ py_rstrip r.
Proof.
  intros Hr. induction p as [|c p IH]; [done|]. simpl. rewrite IH.
  destruct p; simpl; [by destruct (py_rstrip r)|done].
Qed.

(** [(p + str(n) + "\n").rstrip()] is [p + str(n)]. *)
Lemma py_rstrip_int_line p z :
  py_rstrip (p ++ py_str_Z z ++ String "010" "") = p ++ py_str_Z z.
Proof.
  pose proof (str_forall_impl _ _ _ int_char_not_space (py_str_Z_chars z)) as Hns.
  rewrite py_rstrip_app, py_rstrip_newline by (rewrite ?py_rstrip_newline; try done;
    destruct (py_str_Z_nonempty z) as (? & ? & ->); done).
  done.
Qed.

End PyStr.
