(* ===== verification/Runtime.v ===== *)
(** * Runtime: the asyncio world the coroutines of grab_mayhemids.py run in

    The exceptions the handlers of [fetch_user_data] name, the observable
    events (each [print], [asyncio.sleep] and HTTP request, in order), the
    world (working directory, the global dict [existing_files_dict], the
    counter of the global semaphore and the event log) and a state and
    exception monad [M] over it, made an instance of stdpp's [MRet],
    [MBind] and [MThrow] so that its programs use the [x ← c; k] notation.
    The server is a type class [Network]: its answer to the [n]-th request
    of a url. *)

From Stdlib Require Import ZArith Lia String.
From stdpp Require Import base list gmap strings.
From S2P Require Import Prelude PyStr.

Module Runtime.

(** ** Exceptions *)

(** The exception classes the code mentions, and the ones it does not
    catch: [ET.ParseError] (line 64), [AttributeError] on [None.text] or
    [None.split] (line 67), [IndexError] of an out-of-range index, and any
    other exception of aiohttp or aiofiles. *)
Inductive exn :=
  | ClientPayloadError
  | ClientResponseError
  | ClientConnectorError
  | TimeoutError
  | ParseError
  | AttributeError
  | IndexError
  | OtherError.

#[export] Instance exn_eq_dec : EqDecision exn.
Proof. solve_decision. Defined.

(** ** Observable events *)

Inductive event :=
  | EvSkip (id : Z)                      (** line 39 *)
  | EvRequest (url : string)             (** the GET of line 50 *)
  | EvPayloadError (id : Z) (n : Z)      (** line 55 *)
  | EvFailed (id : Z) (n : Z)            (** lines 60, 99, 108 *)
  | EvSleep (d : Z)                      (** [asyncio.sleep(d)] *)
  | EvSaved (filename : string)          (** line 74 *)
  | EvNoResources (id : Z)               (** line 77 *)
  | EvStatusError (status : Z) (id : Z)  (** line 79 *)
  | EvRetrying (id : Z) (n : Z)          (** lines 82, 89 *)
  | EvRequestError (id : Z)              (** line 87 *)
  | EvConnectorError (id : Z)            (** line 94 *)
  | EvGlobalTimeout (id : Z)             (** line 103 *)
  | EvProcessing (start_id end_id : Z)   (** line 133 *)
  | EvFinished (start_id end_id : Z)     (** line 135 *)
  | EvElapsed.                           (** line 143; the time is not modelled *)

#[export] Instance event_eq_dec : EqDecision event.
Proof. solve_decision. Defined.

(** ** The world *)

Record world := mkWorld {
    w_fs : gmap string string;    (** the working directory: name -> content *)
    w_idx : gmap string string;   (** [existing_files_dict] *)
    w_sem : nat;                  (** [semaphore._value] *)
    w_log : list event            (** what happened, oldest first *)
  }.

Definition set_fs (fs : gmap string string) (w : world) : world :=
  mkWorld fs (w_idx w) (w_sem w) (w_log w).
Definition set_idx (idx : gmap string string) (w : world) : world :=
  mkWorld (w_fs w) idx (w_sem w) (w_log w).
Definition set_sem (n : nat) (w : world) : world :=
  mkWorld (w_fs w) (w_idx w) n (w_log w).
Definition add_event (e : event) (w : world) : world :=
  mkWorld (w_fs w) (w_idx w) (w_sem w) (w_log w ++ [e]).

(** ** The monad *)

(** A coroutine returns a value, raises, or waits forever on the
    semaphore ([Stuck]). *)
Inductive res (A : Type) :=
  | Ok (a : A)
  | Raise (e : exn)
  | Stuck.
Arguments Ok {A} a.
Arguments Raise {A} e.
Arguments Stuck {A}.

Definition M (A : Type) : Type := world -> res A * world.

#[export] Instance M_ret : MRet M := fun A a w => (Ok a, w).
#[export] Instance M_bind : MBind M := fun A B k m w =>
  match m w with
  | (Ok a, w') => k a w'
  | (Raise e, w') => (Raise e, w')
  | (Stuck, w') => (Stuck, w')
  end.
#[export] Instance M_throw : MThrow exn M := fun A e w => (Raise e, w).

(** ** The network *)

(** A response: its status and what [await response.text()] gives. *)
Record response := Response {
    status : Z;
    text : exn + string
  }.

(** What [await asyncio.wait_for(session.get(...), ...)] gives: a response
    or an exception (both timeouts appear as [TimeoutError]). *)
Inductive get_result :=
  | GetRaise (e : exn)
  | GetOk (r : response).

(** The server's answer to the [n]-th request (from 0) of a url. *)
Class Network := respond : string -> nat -> get_result.

Definition is_request_to (url : string) (e : event) : bool :=
  match e with EvRequest u => bool_decide (u = url) | _ => false end.

Definition is_request (e : event) : bool :=
  match e with EvRequest _ => true | _ => false end.

(** How many requests of [url] the log holds. *)
Definition requests_to (url : string) (log : list event) : nat :=
  length (List.filter (is_request_to url) log).
Arguments requests_to : simpl never.

(** ** The Python effects, as an interface

    The operations the coroutines of grab_mayhemids.py perform, one
    operational type class each, in the style of stdpp's [MRet] and
    [MBind].  The worker of [Fetch] is written once against them; [M]
    below runs it as one coroutine alone, [Gather.co] as one task among
    the tasks of an [asyncio.gather]. *)
Class Print (m : Type -> Type) := print : event -> m unit.
Class Sleep (m : Type -> Type) := sleep : Z -> m unit.
Class GetIdx (m : Type -> Type) := get_idx : m (gmap string string).
Class DictSet (m : Type -> Type) := dict_set : string -> string -> m unit.
Class WriteFile (m : Type -> Type) := write_file : string -> string -> m unit.
Class HttpGet (m : Type -> Type) := http_get : string -> m response.
Class TryExcept (m : Type -> Type) :=
  try_except : forall {A}, m A -> (exn -> option (m A)) -> m A.
Class WithSemaphore (m : Type -> Type) := with_semaphore : forall {A}, m A -> m A.

#[export] Hint Mode Print ! : typeclass_instances.
#[export] Hint Mode Sleep ! : typeclass_instances.
#[export] Hint Mode GetIdx ! : typeclass_instances.
#[export] Hint Mode DictSet ! : typeclass_instances.
#[export] Hint Mode WriteFile ! : typeclass_instances.
#[export] Hint Mode HttpGet ! : typeclass_instances.
#[export] Hint Mode TryExcept ! : typeclass_instances.
#[export] Hint Mode WithSemaphore ! : typeclass_instances.

(** ** The effects in [M] *)

(** [try: m except ...:]: [h e] is the handler of [e], [None] when no
    clause matches and the exception propagates. *)
#[export] Instance M_try : TryExcept M := fun A m h w =>
  match m w with
  | (Raise e, w') => match h e with Some k => k w' | None => (Raise e, w') end
  | r => r
  end.

#[export] Instance M_print : Print M := fun e w => (Ok tt, add_event e w).

#[export] Instance M_sleep : Sleep M := fun d => print (EvSleep d).

#[export] Instance M_get_idx : GetIdx M := fun w => (Ok (w_idx w), w).

(** [existing_files_dict[k] = v] *)
#[export] Instance M_dict_set : DictSet M := fun k v w =>
  (Ok tt, set_idx (<[k := v]> (w_idx w)) w).

(** [open(fn, 'w').write(content)]: creates or truncates [fn]. *)
#[export] Instance M_write_file : WriteFile M := fun fn content w =>
  (Ok tt, set_fs (<[fn := content]> (w_fs w)) w).

(** [asyncio.Semaphore.acquire]: takes a permit, or waits.  A coroutine run
    alone waits forever. *)
Definition acquire : M unit := fun w =>
  match w_sem w with
  | O => (Stuck, w)
  | S n => (Ok tt, set_sem n w)
  end.

Definition release : M unit := fun w => (Ok tt, set_sem (S (w_sem w)) w).

(** [async with semaphore: body]: the permit is given back whether the body
    returns or raises. *)
#[export] Instance M_with_semaphore : WithSemaphore M := fun A body w =>
  match acquire w with
  | (Ok _, w1) =>
      match body w1 with
      | (Ok a, w2) => (Ok a, set_sem (S (w_sem w2)) w2)
      | (Raise e, w2) => (Raise e, set_sem (S (w_sem w2)) w2)
      | (Stuck, w2) => (Stuck, w2)
      end
  | (_, w1) => (Stuck, w1)
  end.

(** The request of line 50: logged, then answered by the server. *)
#[export] Instance M_http_get {N : Network} : HttpGet M := fun url w =>
  let w' := add_event (EvRequest url) w in
  match respond url (requests_to url (w_log w)) with
  | GetRaise e => (Raise e, w')
  | GetOk r => (Ok r, w')
  end.

(** ** Reasoning about [M]

    Properties of a computation that hold on all its runs, and the lemmas
    that build them along the structure of a program. *)

(** Running a sequence whose first part returns or raises. *)
Lemma M_bind_ok {A B} (m : M A) (k : A -> M B) w a w' :
  m w = (Ok a, w') -> (m ≫= k) w = k a w'.
Proof. intros Hm. unfold mbind, M_bind. by rewrite Hm. Qed.

Lemma M_bind_raise {A B} (m : M A) (k : A -> M B) w e w' :
  m w = (Raise e, w') -> (m ≫= k) w = (Raise e, w').
Proof. intros Hm. unfold mbind, M_bind. by rewrite Hm. Qed.

(** Every exception that escapes [m] satisfies [P]. *)
Definition escapes_only (P : exn -> Prop) {A} (m : M A) : Prop :=
  forall w e w', m w = (Raise e, w') -> P e.

Section Escapes.
Context (P : exn -> Prop).

Lemma esc_ret {A} (a : A) : escapes_only P (mret a).
Proof. by intros w e w' [=]. Qed.

Lemma esc_throw {A} (e : exn) : P e -> escapes_only P (mthrow (A:=A) e).
Proof. intros He w e' w' [= <- _]. done. Qed.

Lemma esc_print ev : escapes_only P (print ev).
Proof. by intros w e w' [=]. Qed.

Lemma esc_get_idx : escapes_only P get_idx.
Proof. by intros w e w' [=]. Qed.

Lemma esc_write_file fn c : escapes_only P (write_file fn c).
Proof. by intros w e w' [=]. Qed.

Lemma esc_dict_set k v : escapes_only P (dict_set k v).
Proof. by intros w e w' [=]. Qed.

Lemma esc_bind {A B} (m : M A) (k : A -> M B) :
  escapes_only P m -> (forall a, escapes_only P (k a)) -> escapes_only P (m ≫= k).
Proof.
  intros Hm Hk w e w'. unfold mbind, M_bind.
  destruct (m w) as [[a|e0|] w1] eqn:E; [apply Hk| |done].
  intros [= -> _]. by eapply Hm.
Qed.

(** Only what no clause catches, or what a clause raises, escapes a
    [try]. *)
Lemma esc_try {A} (m : M A) h :
  (forall e k, h e = Some k -> escapes_only P k) ->
  (forall e, h e = None -> P e) ->
  escapes_only P (try_except m h).
Proof.
  intros Hh Hn w e w'. unfold try_except, M_try.
  destruct (m w) as [[a|e0|] w1]; [done| |done].
  destruct (h e0) as [k|] eqn:Ek; [by apply (Hh e0 k)|].
  intros [= -> _]. by apply Hn.
Qed.

Lemma esc_with_semaphore {A} (body : M A) :
  escapes_only P body -> escapes_only P (with_semaphore body).
Proof.
  intros Hb w e w'. unfold with_semaphore, M_with_semaphore, acquire.
  destruct (w_sem w); [done|].
  destruct (body _) as [[a|e0|] w2] eqn:E; [done| |done].
  intros [= -> _]. by eapply Hb.
Qed.
End Escapes.

Section NetFacts.
Context `{Network}.

Lemma esc_http_get_any url : escapes_only (fun _ => True) (http_get url).
Proof. done. Qed.
End NetFacts.

(** ** Properties closed under the combinators

    A property of computations that holds of the primitives the worker
    uses and is kept by [≫=], [try_except] and [with_semaphore].  The fetch
    worker satisfies every such property ([Fetch.fetch_closed]). *)
Record closed (Q : forall A, M A -> Prop) : Prop := {
    cl_ret : forall A (a : A), Q A (mret a);
    cl_throw : forall A (e : exn), Q A (mthrow e);
    cl_print : forall ev, Q unit (print ev);
    cl_get_idx : Q _ get_idx;
    cl_http : forall (N : Network) url, Q _ (http_get url);
    cl_bind : forall A B (m : M A) (k : A -> M B),
      Q A m -> (forall a, Q B (k a)) -> Q B (m ≫= k);
    cl_try : forall A (m : M A) h,
      Q A m -> (forall e k, h e = Some k -> Q A k) -> Q A (try_except m h);
    cl_sem : forall A (body : M A), Q A body -> Q A (with_semaphore body)
  }.

(** The directory and the dict keep a property [J] of the pair. *)
Definition keeps (J : gmap string string -> gmap string string -> Prop) {A} (m : M A) : Prop :=
  forall w, J (w_fs w) (w_idx w) -> J (w_fs (m w).2) (w_idx (m w).2).

Lemma keeps_closed J : closed (@keeps J).
Proof.
  split; unfold keeps, mbind, M_bind, try_except, M_try, with_semaphore, M_with_semaphore, acquire, http_get, M_http_get; intros.
  - done.
  - done.
  - done.
  - done.
  - by destruct (respond _ _).
  - specialize (H w H1). destruct (m w) as [[a|e|] w1]; simpl in *; auto.
  - specialize (H w H1). destruct (m w) as [[a|e|] w1]; simpl in *; auto.
    destruct (h e) as [k|] eqn:E; eauto.
  - destruct (w_sem w); [done|]. specialize (H (set_sem n w) H0).
    destruct (body _) as [[a|e|] w2]; simpl in *; auto.
Qed.

#[export] Hint Resolve esc_ret esc_throw esc_print esc_get_idx esc_write_file
  esc_dict_set esc_bind esc_with_semaphore : mayhem.

End Runtime.
