(* ===== verification/ResultIndex.v ===== *)
(** * ResultIndex: [load_existing_files] (grab_mayhemids.py, lines 21-34)

    The global dict [existing_files_dict] maps the token [1] of the
    [_]-split of every [.xml] name of the working directory to that name.
    This file holds the scan, the agreement invariant between the dict and
    the directory that the fetch worker maintains, and the proof that the
    scan of a directory establishes it. *)

From Stdlib Require Import ZArith Lia String Ascii.
From stdpp Require Import base list gmap strings.
From S2P Require Import Prelude PyStr Runtime.
Import PyStr Runtime.

Local Open Scope string_scope.

Module ResultIndex.

(** The key the scan files [fn] under: [fn.split("_")[1]] when
    [fn.endswith(".xml")]; [None] when the name is not an [.xml] name or
    the [IndexError] of line 33 skips it. *)
Definition xml_key (fn : string) : option string :=
  if py_endswith fn ".xml" then py_getitem (py_split "_" fn) 1 else None.

(** One iteration of the loop of lines 27-34. *)
Definition load_step (d : gmap string string) (fn : string) : gmap string string :=
  match xml_key fn with
  | Some k => <[k := fn]> d
  | None => d
  end.

(** The loop over [os.listdir(".")], in the order the listing gives. *)
Definition load_existing_files_dict (listing : list string) (d : gmap string string)
  : gmap string string :=
  fold_left load_step listing d.

(** [load_existing_files()] updates the global dict in place. *)
Definition load_existing_files (listing : list string) : M unit := fun w =>
  (Ok tt, set_idx (load_existing_files_dict listing (w_idx w)) w).

(** ** The agreement invariant

    Every entry of the dict names an existing file filed under that key,
    and every [.xml] file of the directory has its key in the dict. *)
Definition index_sound (fs idx : gmap string string) : Prop :=
  forall k fn, idx !! k = Some fn -> is_Some (fs !! fn) /\ xml_key fn = Some k.

Definition index_complete (fs idx : gmap string string) : Prop :=
  forall fn k, is_Some (fs !! fn) -> xml_key fn = Some k -> is_Some (idx !! k).

Definition index_agrees (fs idx : gmap string string) : Prop :=
  index_sound fs idx /\ index_complete fs idx.

(** ** The scan *)

Lemma load_dict_app l1 l2 d :
  load_existing_files_dict (l1 ++ l2) d =
  load_existing_files_dict l2 (load_existing_files_dict l1 d).
Proof. unfold load_existing_files_dict. apply fold_left_app. Qed.

(** An entry of the scanned dict was there before or comes from a listed
    name filed under its key. *)
Lemma load_dict_lookup listing d k fn :
  load_existing_files_dict listing d !! k = Some fn ->
  d !! k = Some fn \/ (fn ∈ listing /\ xml_key fn = Some k).
Proof.
  revert d. induction listing as [|x l IH]; intros d Hk; [by left|].
  simpl in Hk. apply IH in Hk as [Hk|[Hin Hkey]]; [|right; split; [by right|done]].
  unfold load_step in Hk. destruct (xml_key x) as [kx|] eqn:Ex; [|by left].
  destruct (decide (kx = k)) as [->|Hne].
  - rewrite lookup_insert_eq in Hk. injection Hk as ->. right. split; [left|done].
  - rewrite lookup_insert_ne in Hk by done. by left.
Qed.

(** A key present before the scan stays present. *)
Lemma load_dict_mono listing d k :
  is_Some (d !! k) -> is_Some (load_existing_files_dict listing d !! k).
Proof.
  revert d. induction listing as [|x l IH]; intros d Hk; [done|].
  simpl. apply IH. unfold load_step. destruct (xml_key x) as [kx|]; [|done].
  destruct (decide (kx = k)) as [->|]; [by rewrite lookup_insert_eq|].
  by rewrite lookup_insert_ne.
Qed.

(** Every listed [.xml] name's key is in the scanned dict. *)
Lemma load_dict_complete listing d fn k :
  fn ∈ listing -> xml_key fn = Some k ->
  is_Some (load_existing_files_dict listing d !! k).
Proof.
  revert d. induction listing as [|x l IH]; intros d Hin Hkey;
    [by apply elem_of_nil in Hin|].
  apply elem_of_cons in Hin as [->|Hin]; simpl; [|by apply IH].
  apply load_dict_mono. unfold load_step. rewrite Hkey. by rewrite lookup_insert_eq.
Qed.

(** C20: scanning a listing of the whole directory, from the empty dict of
    line 21, establishes the agreement invariant. *)
Theorem load_existing_files_agrees (fs : gmap string string) (listing : list string) :
  (forall fn, fn ∈ listing <-> is_Some (fs !! fn)) ->
  index_agrees fs (load_existing_files_dict listing ∅).
Proof.
  intros Hl. split.
  - intros k fn Hk. apply load_dict_lookup in Hk as [Hk|[Hin Hkey]];
      [by rewrite lookup_empty in Hk|]. split; [by apply Hl|done].
  - intros fn k Hfn Hkey. apply (load_dict_complete _ _ fn); [by apply Hl|done].
Qed.

(** C21: the scan is, key by key, the declarative index: the entry of
    [k] is the last name of the listing filed under [k], in the order
    [os.listdir] gives; when several result files exist for one id, the
    dict keeps whichever the listing happens to give last. *)
Theorem load_existing_files_last (listing : list string) (k : string) :
  load_existing_files_dict listing ∅ !! k = last (filter (fun fn => xml_key fn = Some k) listing).
Proof.
  induction listing as [|fn l IH] using rev_ind; [done|].
  rewrite load_dict_app, filter_app. simpl. unfold load_step.
  destruct (decide (xml_key fn = Some k)) as [Hk|Hk].
  - rewrite filter_cons_True, Hk, lookup_insert_eq by done. by rewrite filter_nil, last_snoc.
  - rewrite filter_cons_False, app_nil_r by done.
    destruct (xml_key fn) as [k'|]; [|done].
    rewrite lookup_insert_ne by congruence. done.
Qed.

Lemma load_existing_files_last_example :
  load_existing_files_dict
    ["applicationUserId_5_mayhemId_1.xml"; "notes.txt"; "applicationUserId_5_mayhemId_2.xml"] ∅ !! "5"
  = Some "applicationUserId_5_mayhemId_2.xml".
Proof. vm_compute. reflexivity. Qed.

Definition demo_dir : gmap string string :=
  {[ "applicationUserId_5_mayhemId_777.xml" := "<Resources/>"; "notes.txt" := "" ]}.

Lemma load_existing_files_agrees_witness :
  index_agrees demo_dir
    (load_existing_files_dict ["applicationUserId_5_mayhemId_777.xml"; "notes.txt"] ∅).
Proof.
  apply load_existing_files_agrees. intros fn. unfold demo_dir.
  rewrite elem_of_cons, list_elem_of_singleton, lookup_insert_is_Some', lookup_singleton_is_Some.
  naive_solver.
Defined.

End ResultIndex.
