(* ===== verification/Fetch.v ===== *)
(** * Fetch: [fetch_user_data] (grab_mayhemids.py, lines 36-111)

    The worker, written the way the source composes it: the skip check of
    line 38, then [async with semaphore] around a [try] whose body is the
    request and the classification of its response (lines 50-84) and whose
    clauses are the three [except] handlers (lines 86-109); [return] inside
    the [try] skips the [asyncio.sleep(1)] of line 111 ([Returned]), falling
    out of it does not ([FellThrough]).  Each retry is the recursive call
    [fetch_user_data(session, id, retries - 1)], made while the permit of
    the current call is still held.  The recursion is structural on
    [retries]: [rec] is that call, [None] when [retries = 0]. *)

From Stdlib Require Import ZArith Lia String Ascii.
From stdpp Require Import base list gmap strings.
From S2P Require Import Prelude PyStr Runtime ResultIndex.
Import PyStr Runtime ResultIndex.

Local Open Scope string_scope.

Module Fetch.

(** ** Constants (lines 14-15) *)

Definition MAX_CONCURRENT_REQUESTS : nat := 25000.
Definition MAX_RETRIES : nat := 1000.

(** ** The XML library *)

(** An [xml.etree.ElementTree.Element]: its tag, its [.text] and its
    children. *)
Inductive element := Element (tag : string) (etext : option string) (children : list element).

Definition tag_of (e : element) : string := match e with Element t _ _ => t end.
Definition text_of (e : element) : option string := match e with Element _ x _ => x end.

(** [el.find(t)] with a plain tag: the first child with that tag. *)
Definition find (e : element) (t : string) : option element :=
  match e with
  | Element _ _ ch => List.find (fun c => bool_decide (tag_of c = t)) ch
  end.

(** [ET.fromstring]: the library is not part of the repository; any parser
    that returns an element or raises is an instance. *)
Class XmlLib := fromstring : string -> exn + element.

(** ** Strings built by the worker *)

(** The url of line 42. *)
Definition user_url (applicationUserId : Z) : string :=
  "https://prod.simpsons-ea.com/mh/users?appLang=en&application=nucleus&applicationUserId="
  ++ py_str_Z applicationUserId.

(** The file name of line 71. *)
Definition result_filename (applicationUserId : Z) (mayhem_id : string) : string :=
  "applicationUserId_" ++ py_str_Z applicationUserId ++ "_mayhemId_" ++ mayhem_id ++ ".xml".

(** [MAX_RETRIES - retries + 1], the number printed as "retries left"
    (lines 55, 82, 89). *)
Definition attempt_no (retries : nat) : Z :=
  (Z.of_nat MAX_RETRIES - Z.of_nat retries + 1)%Z.

(** [2 ** (MAX_RETRIES - retries)], the backoff of lines 57, 83, 90, 96,
    105; every call has [retries <= MAX_RETRIES]. *)
Definition backoff (retries : nat) : Z := (2 ^ Z.of_nat (MAX_RETRIES - retries))%Z.

(** [response.status in {502, 503, 504}] (line 80). *)
Definition gateway_status (s : Z) : bool :=
  (s =? 502)%Z || (s =? 503)%Z || (s =? 504)%Z.

(** [return] inside the [try], or falling out of it. *)
Inductive ctrl := Returned | FellThrough.

Section Worker.
Context {m : Type -> Type} `{MRet m, MBind m, MThrow exn m}.
Context `{Print m, Sleep m, GetIdx m, DictSet m, WriteFile m} {hg : HttpGet m}.
Context `{TryExcept m, WithSemaphore m} {X : XmlLib}.

(** [await asyncio.sleep(backoff); return await fetch_user_data(...)] *)
Definition retry_after (retries : nat) (k : m unit) : m ctrl :=
  sleep (backoff retries);; k;; mret Returned.

(** [if retries > 0: <retry> else: print(failed); return] (lines 56-61,
    95-100, 104-109). *)
Definition retry_or_fail (applicationUserId : Z) (retries : nat)
    (rec : option (m unit)) : m ctrl :=
  match rec with
  | Some k => retry_after retries k
  | None => print (EvFailed applicationUserId (Z.of_nat MAX_RETRIES));; mret Returned
  end.

(** Lines 67-68: [uri = root.find('URI').text; uri.split('/')[-1]]. *)
Definition extract_mayhem_id (root : element) : exn + string :=
  match find root "URI" with
  | None => inl AttributeError
  | Some u =>
      match text_of u with
      | None => inl AttributeError
      | Some uri =>
          match py_getitem (py_split "/" uri) (-1) with
          | Some m => inr m
          | None => inl IndexError
          end
      end
  end.

(** Lines 63-77: parse, and save when the root is [Resources]. *)
Definition save_resources (applicationUserId : Z) (content : string) : m ctrl :=
  match fromstring content with
  | inl e => mthrow e
  | inr root =>
      if bool_decide (tag_of root = "Resources") then
        match extract_mayhem_id root with
        | inl e => mthrow e
        | inr mayhem_id =>
            let filename := result_filename applicationUserId mayhem_id in
            write_file filename content;;
            print (EvSaved filename);;
            dict_set (py_str_Z applicationUserId) filename;;
            mret FellThrough
        end
      else print (EvNoResources applicationUserId);; mret FellThrough
  end.

(** The body of the [try] (lines 50-84). *)
Definition attempt (applicationUserId : Z) (retries : nat)
    (rec : option (m unit)) : m ctrl :=
  response ← http_get (user_url applicationUserId);
  if (status response =? 200)%Z then
    match text response with
    | inl ClientPayloadError =>
        print (EvPayloadError applicationUserId (attempt_no retries));;
        retry_or_fail applicationUserId retries rec
    | inl e => mthrow e
    | inr content => save_resources applicationUserId content
    end
  else
    print (EvStatusError (status response) applicationUserId);;
    if gateway_status (status response) then
      match rec with
      | Some k =>
          print (EvRetrying applicationUserId (attempt_no retries));;
          retry_after retries k
      | None => mret FellThrough
      end
    else mret FellThrough.

(** The [except] clauses (lines 86-109). *)
Definition handlers (applicationUserId : Z) (retries : nat)
    (rec : option (m unit)) (e : exn) : option (m ctrl) :=
  match e with
  | ClientResponseError => Some (
      print (EvRequestError applicationUserId);;
      match rec with
      | Some k =>
          print (EvRetrying applicationUserId (attempt_no retries));;
          retry_after retries k
      | None => mret FellThrough
      end)
  | ClientConnectorError => Some (
      print (EvConnectorError applicationUserId);;
      retry_or_fail applicationUserId retries rec)
  | TimeoutError => Some (
      print (EvGlobalTimeout applicationUserId);;
      retry_or_fail applicationUserId retries rec)
  | _ => None
  end.

(** The body of [fetch_user_data(session, applicationUserId, retries)]
    (lines 37-111), given [rec], its recursive call with [retries - 1]
    ([None] when no retry is left). *)
Definition fetch_body (applicationUserId : Z) (retries : nat) (rec : option (m unit)) : m unit :=
  idx ← get_idx;
  match idx !! py_str_Z applicationUserId with
  | Some _ => print (EvSkip applicationUserId)
  | None =>
      with_semaphore (
        c ← try_except (attempt applicationUserId retries rec)
                       (handlers applicationUserId retries rec);
        match c with
        | Returned => mret ()
        | FellThrough => sleep 1
        end)
  end.

(** [fetch_user_data(session, applicationUserId, retries)]: the body with
    the call [fetch_user_data(session, applicationUserId, retries - 1)]. *)
Fixpoint fetch_user_data (applicationUserId : Z) (retries : nat) : m unit :=
  fetch_body applicationUserId retries
    (match retries with
     | O => None
     | S r => Some (fetch_user_data applicationUserId r)
     end).

(** The call of line 117, with the default [retries=MAX_RETRIES]. *)
Definition fetch (applicationUserId : Z) : m unit :=
  fetch_user_data applicationUserId MAX_RETRIES.
End Worker.

Section Unfold.
Context {m : Type -> Type} `{MRet m, MBind m, MThrow exn m}.
Context `{Print m, Sleep m, GetIdx m, DictSet m, WriteFile m} {hg : HttpGet m}.
Context `{TryExcept m, WithSemaphore m} {X : XmlLib}.

(** The recursive call of a worker with [retries] left, [None] at 0. *)
Definition rec_call (id : Z) (retries : nat) : option (m unit) :=
  match retries with O => None | S r => Some (fetch_user_data id r) end.

(** One unfolding of [fetch_user_data], in every instance. *)
Lemma fetch_user_data_eq id r :
  fetch_user_data id r = fetch_body id r (rec_call id r).
Proof. by destruct r. Qed.
End Unfold.

(** * Properties of the worker

    The proofs go through a small library: the equation of one unfolding
    of [fetch_user_data], an induction principle for every property closed
    under the monad's combinators ([fetch_closed]), and the exact run of
    one failed attempt ([fetch_retry_step], [fetch_last_step]); the
    theorems then follow the branches of the source. *)

Local Close Scope string_scope.

(** The worker run alone, in [M]: the names below denote its instance at
    [M] in the rest of this file. *)
Module Alone.
Abbreviation retry_after := (retry_after (m:=M)).
Abbreviation retry_or_fail := (retry_or_fail (m:=M)).
Abbreviation save_resources := (save_resources (m:=M)).
Abbreviation attempt := (attempt (m:=M)).
Abbreviation handlers := (handlers (m:=M)).
Abbreviation fetch_body := (fetch_body (m:=M)).
Abbreviation fetch_user_data := (fetch_user_data (m:=M)).
Abbreviation fetch := (fetch (m:=M)).
(** The worker run alone against the server [N] and the parser [X]. *)
Abbreviation fetch_on N X := (Fetch.fetch_user_data (m:=M) (hg:=M_http_get (N:=N)) (X:=X)).
End Alone.
Import Alone.

Definition retryable (g : get_result) : bool :=
  match g with
  | GetRaise ClientResponseError | GetRaise ClientConnectorError
  | GetRaise TimeoutError => true
  | GetRaise _ => false
  | GetOk r =>
      if (status r =? 200)%Z then
        match text r with inl ClientPayloadError => true | _ => false end
      else gateway_status (status r)
  end.

Definition quiet (e : event) : bool :=
  match e with EvRequest _ | EvSleep _ => false | _ => true end.

Definition after_release (p : res unit * world) : res unit * world :=
  match p with
  | (Stuck, w') => (Stuck, w')
  | (x, w') => (x, set_sem (S (w_sem w')) w')
  end.

Definition failure_events (id : Z) (retries : nat) (g : get_result) : list event :=
  match g with
  | GetRaise ClientResponseError => [EvRequestError id; EvRetrying id (attempt_no retries)]
  | GetRaise ClientConnectorError => [EvConnectorError id]
  | GetRaise TimeoutError => [EvGlobalTimeout id]
  | GetRaise _ => []
  | GetOk r =>
      if (status r =? 200)%Z then [EvPayloadError id (attempt_no retries)]
      else [EvStatusError (status r) id; EvRetrying id (attempt_no retries)]
  end.


Ltac run_m :=
  repeat progress (unfold retry_after, retry_or_fail, print, M_print, sleep, M_sleep, mbind, M_bind, mret, M_ret, mthrow, M_throw, add_event, set_sem, set_fs, set_idx; cbn).

(** The exceptions the three [except] clauses catch. *)
Definition handled (e : exn) : bool :=
  match e with
  | ClientResponseError | ClientConnectorError | TimeoutError => true
  | _ => false
  end.

Lemma handlers_None id r rec e : handlers id r rec e = None <-> handled e = false.
Proof. by destruct e. Qed.

Section Structure.
Variable P : exn -> Prop.

Lemma esc_retry_after r k : escapes_only P k -> escapes_only P (retry_after r k).
Proof. intros Hk. unfold retry_after, sleep, M_sleep. eauto with mayhem. Qed.

Lemma esc_retry_or_fail id r rec :
  (forall k, rec = Some k -> escapes_only P k) ->
  escapes_only P (retry_or_fail id r rec).
Proof.
  intros Hk. unfold retry_or_fail. destruct rec as [k|];
    [apply esc_retry_after, Hk|]; eauto with mayhem.
Qed.

Lemma esc_handlers id r rec :
  (forall k, rec = Some k -> escapes_only P k) ->
  forall e k, handlers id r rec e = Some k -> escapes_only P k.
Proof.
  intros Hrec e k Hk. destruct e; simplify_eq/=;
    apply esc_bind; eauto using esc_print; intros [];
    try (apply esc_retry_or_fail; done).
  destruct rec as [k|]; [|apply esc_ret].
  apply esc_bind; [apply esc_print|intros []; by apply esc_retry_after, Hrec].
Qed.
End Structure.

Section Worker.
Context `{Network} `{XmlLib}.

(** The escape set of a worker, for the lemmas below. *)
Lemma worker_escapes_unhandled id r :
  escapes_only (fun e => handled e = false) (fetch_user_data id r).
Proof.
  induction r as [|r IH]; rewrite fetch_user_data_eq; unfold fetch_body;
    repeat match goal with
    | |- escapes_only _ (try_except _ _) =>
        apply esc_try; [apply esc_handlers; by intros k [= <-]|intros e; apply handlers_None]
    | |- escapes_only _ (_ ≫= _) => apply esc_bind; [|intros ?]
    | |- escapes_only _ (with_semaphore _) => apply esc_with_semaphore
    | |- escapes_only _ (match ?x with _ => _ end) => destruct x
    | |- _ => apply esc_ret || apply esc_print || apply esc_get_idx
    end.
Qed.

End Worker.

(** ** An induction principle for the worker *)

Section Closed.
Context `{Network} `{XmlLib}.
Variable Q : forall A, M A -> Prop.
Hypothesis HQ : closed Q.
Hypothesis Hsave : forall id content, Q _ (save_resources id content).

Ltac closed_step :=
  match goal with
  | |- Q _ (mret _) => apply (cl_ret _ HQ)
  | |- Q _ (mthrow _) => apply (cl_throw _ HQ)
  | |- Q _ (print _) => apply (cl_print _ HQ)
  | |- Q _ (sleep _) => apply (cl_print _ HQ)
  | |- Q _ get_idx => apply (cl_get_idx _ HQ)
  | |- Q _ (http_get _) => apply (cl_http _ HQ)
  | |- Q _ (_ ≫= _) => apply (cl_bind _ HQ); [|intros ?]
  | |- Q _ (try_except _ _) => apply (cl_try _ HQ)
  | |- Q _ (with_semaphore _) => apply (cl_sem _ HQ)
  | |- Q _ (save_resources _ _) => apply Hsave
  | |- Q _ (match ?x with _ => _ end) => destruct x
  end.

Lemma closed_retry_after r k : Q _ k -> Q _ (retry_after r k).
Proof. intros Hk. unfold retry_after. by repeat closed_step. Qed.

Lemma closed_retry_or_fail id r rec :
  (forall k, rec = Some k -> Q _ k) -> Q _ (retry_or_fail id r rec).
Proof.
  intros Hr. unfold retry_or_fail. destruct rec as [k|] eqn:E;
    [apply closed_retry_after; by apply Hr|by repeat closed_step].
Qed.

Lemma closed_attempt id r rec :
  (forall k, rec = Some k -> Q _ k) -> Q _ (attempt id r rec).
Proof.
  intros Hr. unfold attempt. repeat closed_step;
    try (by apply closed_retry_or_fail); apply closed_retry_after; by apply Hr.
Qed.

Lemma closed_handlers id r rec :
  (forall k, rec = Some k -> Q _ k) ->
  forall e k, handlers id r rec e = Some k -> Q _ k.
Proof.
  intros Hr e k Hk. destruct e; simplify_eq/=; repeat closed_step;
    try (by apply closed_retry_or_fail); apply closed_retry_after; by apply Hr.
Qed.

Theorem fetch_closed id r : Q _ (fetch_user_data id r).
Proof.
  induction r as [|r IH]; rewrite fetch_user_data_eq; unfold fetch_body; repeat closed_step;
    [apply closed_attempt|apply closed_handlers|apply closed_attempt|apply closed_handlers];
    by intros k [= <-].
Qed.
End Closed.

Section Escape.
Context `{Network} `{XmlLib}.

(** C14: the only exceptions that escape a worker are those no [except]
    clause names, also when they come from a nested retry inside the
    [try] body. *)
Theorem fetch_escapes (id : Z) (r : nat) :
  escapes_only (fun e => handled e = false) (fetch_user_data id r).
Proof. apply worker_escapes_unhandled. Qed.
End Escape.

(** ** The written name and the index *)

(** The key of a written name. *)
Lemma result_filename_key (id : Z) (m : string) :
  xml_key (result_filename id m) = Some (py_str_Z id).
Proof.
  unfold xml_key, result_filename.
  rewrite !string_app_assoc, py_endswith_app, <- !string_app_assoc.
  change ("applicationUserId_" ++ ?x)%string with ("applicationUserId" ++ String "_" x)%string.
  rewrite py_split_app_sep by done.
  change ("_mayhemId_" ++ ?x)%string with (String "_" ("mayhemId_" ++ x))%string.
  rewrite py_split_app_sep by (apply py_str_Z_free; done). done.
Qed.

(** C19: the name a worker writes is filed by [load_existing_files] under
    [str(applicationUserId)], the very key the skip check of line 38 looks
    up, whatever the [mayhemId] is; so two workers of distinct ids never
    write the same file, whatever mayhemIds the server sends them. *)
Theorem xml_key_result_filename (id id' : Z) (m m' : string) :
  xml_key (result_filename id m) = Some (py_str_Z id) /\
  (result_filename id m = result_filename id' m' -> id = id').
Proof.
  split; [apply result_filename_key|]. intros Heq.
  pose proof (result_filename_key id m) as Hk. rewrite Heq, result_filename_key in Hk.
  injection Hk as Hk. apply (f_equal py_int) in Hk. rewrite !py_int_str in Hk. congruence.
Qed.

Lemma save_keeps_index `{XmlLib} id content :
  keeps index_agrees (save_resources id content).
Proof.
  intros w [Hs Hc]. unfold save_resources.
  destruct (fromstring content) as [e|root]; [done|].
  case_decide; [|done]. destruct (extract_mayhem_id root) as [e|m]; [done|].
  simpl. set (fn := result_filename id m).
  pose proof (result_filename_key id m) as Hkey. fold fn in Hkey. split.
  - intros k fn' Hk. destruct (decide (py_str_Z id = k)) as [<-|Hne].
    + rewrite lookup_insert_eq in Hk. injection Hk as <-.
      by rewrite lookup_insert_eq.
    + rewrite lookup_insert_ne in Hk by done. destruct (Hs k fn' Hk) as [[c Hc'] Hk'].
      split; [|done]. destruct (decide (fn = fn')) as [->|]; [by rewrite lookup_insert_eq|].
      rewrite lookup_insert_ne by done. eauto.
  - intros fn' k Hfn Hk. destruct (decide (fn = fn')) as [<-|Hne].
    + rewrite Hkey in Hk. injection Hk as <-. by rewrite lookup_insert_eq.
    + rewrite lookup_insert_ne in Hfn by done.
      destruct (decide (py_str_Z id = k)) as [<-|]; [by rewrite lookup_insert_eq|].
      rewrite lookup_insert_ne by done. by apply (Hc fn').
Qed.

Section Index.
Context `{Network} `{XmlLib}.

(** C11: every run of a worker keeps the dict and the directory in
    agreement: each entry names an existing file filed under its key,
    and each [.xml] file has its key in the dict. *)
Theorem fetch_keeps_index (id : Z) (r : nat) : keeps index_agrees (fetch_user_data id r).
Proof. apply (fetch_closed (@keeps index_agrees)); [apply keeps_closed|apply save_keeps_index]. Qed.
End Index.

(** Enter a worker whose id is not in the dict, up to its [async with]. *)
Ltac enter_body Hidx :=
  rewrite fetch_user_data_eq; unfold fetch_body; unfold mbind, M_bind at 1; cbn [get_idx M_get_idx];
  rewrite ?Hidx; unfold with_semaphore, M_with_semaphore, acquire.

(** Enter a worker whose id is not in the dict and which gets a permit,
    up to the response of its request. *)
Ltac enter_worker Hidx Hsem :=
  enter_body Hidx; rewrite Hsem;
  unfold try_except, M_try, attempt, http_get, M_http_get; unfold mbind, M_bind; cbn.

Section Steps.
Context `{Network} `{XmlLib}.

(** The permit of a retrying attempt is given back after the retry,
    which escapes the handlers with whatever it raises. *)
Ltac finish_retry id r :=
  unfold after_release, set_sem;
  destruct (fetch_user_data id r _) as [[[]|e|] ?] eqn:Hf; try reflexivity;
  by rewrite (proj2 (handlers_None _ _ _ _) (worker_escapes_unhandled id r _ _ _ Hf)).

Lemma fetch_retry_step id r w n :
  w_idx w !! py_str_Z id = None -> w_sem w = S n ->
  let g := respond (user_url id) (requests_to (user_url id) (w_log w)) in
  retryable g = true ->
  fetch_user_data id (S r) w =
  after_release (fetch_user_data id r
    (mkWorld (w_fs w) (w_idx w) n
       (w_log w ++ EvRequest (user_url id) :: failure_events id (S r) g ++ [EvSleep (backoff (S r))]))).
Proof.
  intros Hidx Hsem g Hretry. subst g.
  enter_worker Hidx Hsem. destruct w as [fs idx sem log]; simpl in *.
  destruct (respond _ _) as [e|[st tx]] eqn:Hr; simpl in Hretry |- *.
  - destruct e; try discriminate; run_m; rewrite <- !app_assoc; simpl; finish_retry id r.
  - destruct (Z.eqb_spec st 200) as [->|Hst]; simpl.
    + destruct tx as [[]|]; try discriminate; run_m; rewrite <- !app_assoc; simpl; finish_retry id r.
    + rewrite Hretry. run_m; rewrite <- !app_assoc; simpl; finish_retry id r.
Qed.

Definition exhausted_events (id : Z) (g : get_result) : list event :=
  match g with
  | GetRaise ClientResponseError => [EvRequestError id; EvSleep 1]
  | GetRaise ClientConnectorError => [EvConnectorError id; EvFailed id (Z.of_nat MAX_RETRIES)]
  | GetRaise TimeoutError => [EvGlobalTimeout id; EvFailed id (Z.of_nat MAX_RETRIES)]
  | GetRaise _ => []
  | GetOk r =>
      if (status r =? 200)%Z then
        [EvPayloadError id (attempt_no 0); EvFailed id (Z.of_nat MAX_RETRIES)]
      else [EvStatusError (status r) id; EvSleep 1]
  end.

Lemma fetch_last_step id w n :
  w_idx w !! py_str_Z id = None -> w_sem w = S n ->
  let g := respond (user_url id) (requests_to (user_url id) (w_log w)) in
  retryable g = true ->
  fetch_user_data id 0 w =
  (Ok (), mkWorld (w_fs w) (w_idx w) (S n)
            (w_log w ++ EvRequest (user_url id) :: exhausted_events id g)).
Proof.
  intros Hidx Hsem g Hretry. subst g.
  enter_worker Hidx Hsem. destruct w as [fs idx sem log]; simpl in *.
  destruct (respond _ _) as [e|[st tx]] eqn:Hr; simpl in Hretry |- *.
  - destruct e; try discriminate; run_m; by rewrite <- !app_assoc.
  - destruct (Z.eqb_spec st 200) as [->|Hst]; simpl.
    + destruct tx as [[]|]; try discriminate; run_m; by rewrite <- !app_assoc.
    + rewrite Hretry. run_m; by rewrite <- !app_assoc.
Qed.
End Steps.

(** ** Counting requests and sleeps *)

Definition sleeps (l : list event) : list Z :=
  omap (fun e => match e with EvSleep d => Some d | _ => None end) l.

Lemma requests_to_app u l1 l2 : requests_to u (l1 ++ l2) = requests_to u l1 + requests_to u l2.
Proof. apply length_filter_app. Qed.

Lemma sleeps_app l1 l2 : sleeps (l1 ++ l2) = sleeps l1 ++ sleeps l2.
Proof. apply omap_app. Qed.

Lemma quiet_silent u l :
  forallb quiet l = true -> requests_to u l = 0 /\ sleeps l = [].
Proof.
  induction l as [|e l IH]; [done|]. simpl. intros [He Hl]%andb_prop.
  destruct e; try discriminate; unfold requests_to in *; simpl; by apply IH.
Qed.

Lemma failure_events_quiet id r g : retryable g = true -> forallb quiet (failure_events id r g) = true.
Proof. destruct g as [[]|[st []]]; simpl; try done; by destruct (st =? 200)%Z. Qed.

Lemma requests_to_self u : requests_to u [EvRequest u] = 1.
Proof. unfold requests_to. simpl. by rewrite bool_decide_eq_true_2. Qed.

#[export] Hint Rewrite requests_to_app sleeps_app requests_to_self : mayhem_rw.

(** The backoff delays of the retries of a worker started with [r]
    retries left, in the order they are slept. *)
Fixpoint backoff_schedule (r : nat) : list Z :=
  match r with
  | O => []
  | S r' => backoff (S r') :: backoff_schedule r'
  end.

Lemma exhausted_events_shape id g :
  retryable g = true ->
  requests_to (user_url id) (exhausted_events id g) = 0 /\
  (sleeps (exhausted_events id g) = [] \/ sleeps (exhausted_events id g) = [1%Z]).
Proof.
  destruct g as [[]|[st []]]; simpl; try done; try (intros; split; [done|by auto]).
  all: destruct (st =? 200)%Z; intros; split; try done; by auto.
Qed.

(** A request followed by quiet events. *)
Lemma request_then_quiet u l :
  forallb quiet l = true ->
  requests_to u (EvRequest u :: l) = 1 /\ sleeps (EvRequest u :: l) = [].
Proof.
  intros Hq. destruct (quiet_silent u l Hq) as [Hr Hs].
  change (EvRequest u :: l) with ([EvRequest u] ++ l).
  by rewrite requests_to_app, sleeps_app, requests_to_self, Hr, Hs.
Qed.

Section Budget.
Context `{Network} `{XmlLib}.

(** ** The retry budget *)

(** C1: a worker whose every request fails in a retryable way, and which
    has a permit for each of its attempts, makes exactly [r + 1] requests,
    sleeps the backoff schedule (and possibly the final [sleep(1)]),
    gives back its permits, and leaves the directory and the dict alone. *)
Theorem fetch_retry_budget (id : Z) (r : nat) (w : world) :
  (forall k, retryable (respond (user_url id) k) = true) ->
  w_idx w !! py_str_Z id = None -> r < w_sem w ->
  exists evs,
    fetch_user_data id r w =
      (Ok (), mkWorld (w_fs w) (w_idx w) (w_sem w) (w_log w ++ evs)) /\
    requests_to (user_url id) evs = S r /\
    (sleeps evs = backoff_schedule r \/ sleeps evs = backoff_schedule r ++ [1%Z]).
Proof.
  revert w. induction r as [|r IH]; intros w Hall Hidx Hlt;
    destruct (w_sem w) as [|n] eqn:Hsem; [lia| |lia|].
  - rewrite (fetch_last_step id w n) by auto.
    eexists; split; [reflexivity|].
    destruct (exhausted_events_shape id _ (Hall (requests_to (user_url id) (w_log w)))) as [Hr Hs].
    change (EvRequest ?u :: ?l) with ([EvRequest u] ++ l).
    rewrite requests_to_app, sleeps_app, requests_to_self, Hr. simpl. by destruct Hs as [-> | ->]; auto.
  - rewrite (fetch_retry_step id r w n) by auto.
    destruct (IH (mkWorld (w_fs w) (w_idx w) n
       (w_log w ++ EvRequest (user_url id) ::
          failure_events id (S r) (respond (user_url id) (requests_to (user_url id) (w_log w)))
          ++ [EvSleep (backoff (S r))])))
      as (evs & Heq & Hreq & Hsl); [done|done|simpl; lia|].
    rewrite Heq. simpl.
    eexists; split; [by rewrite <- !app_assoc|].
    destruct (request_then_quiet (user_url id) _
        (failure_events_quiet id (S r) _ (Hall (requests_to (user_url id) (w_log w)))))
      as [Hr1 Hs1].
    rewrite app_comm_cons, !requests_to_app, !sleeps_app, Hr1, Hs1, Hreq.
    unfold requests_to at 1. simpl. by destruct Hsl as [-> | ->]; auto.
Qed.

(** A worker that finds no permit waits for ever, before any request. *)
Lemma fetch_no_permit id r w :
  w_idx w !! py_str_Z id = None -> w_sem w = 0 -> fetch_user_data id r w = (Stuck, w).
Proof.
  intros Hidx Hsem. enter_body Hidx. by rewrite Hsem.
Qed.

(** C4: each retry is a nested [async with semaphore]: a worker keeps one
    permit per attempt.  With fewer permits than attempts and retryable
    failures only, it makes one request per permit and then waits for
    ever on a permit that only itself could give back. *)
Theorem fetch_deadlock (id : Z) (r : nat) (w : world) :
  (forall k, retryable (respond (user_url id) k) = true) ->
  w_idx w !! py_str_Z id = None -> w_sem w <= r ->
  exists w', fetch_user_data id r w = (Stuck, w') /\
    requests_to (user_url id) (w_log w') = requests_to (user_url id) (w_log w) + w_sem w.
Proof.
  revert w. induction r as [|r IH]; intros w Hall Hidx Hle;
    destruct (w_sem w) as [|n] eqn:Hsem.
  - exists w. rewrite fetch_no_permit by done. split; [done|lia].
  - lia.
  - exists w. rewrite fetch_no_permit by done. split; [done|lia].
  - rewrite (fetch_retry_step id r w n) by auto.
    match goal with |- context [fetch_user_data id r ?W] =>
      destruct (IH W) as (w' & Heq & Hreq); [done|done|simpl; lia|] end.
    rewrite Heq. simpl. eexists; split; [reflexivity|].
    rewrite Hreq. simpl.
    destruct (request_then_quiet (user_url id) _
        (failure_events_quiet id (S r) _ (Hall (requests_to (user_url id) (w_log w)))))
      as [Hr1 _].
    rewrite app_comm_cons, !requests_to_app, Hr1. change (requests_to (user_url id) [EvSleep (backoff (S r))]) with 0. lia.
Qed.
End Budget.

(** ** One attempt, branch by branch *)

Section Branches.
Context `{Network} `{XmlLib}.
Variables (id : Z) (r : nat) (w : world) (n : nat).
Hypothesis Hidx : w_idx w !! py_str_Z id = None.
Hypothesis Hsem : w_sem w = S n.
Let url := user_url id.
Let k := requests_to url (w_log w).

(** C3: an id already in the dict is skipped: no request, no permit, only
    the message of line 39. *)
Theorem fetch_skip (fn : string) (w0 : world) :
  w_idx w0 !! py_str_Z id = Some fn ->
  fetch_user_data id r w0 = (Ok (), add_event (EvSkip id) w0).
Proof.
  intros Hfn. rewrite fetch_user_data_eq; unfold fetch_body. unfold mbind, M_bind. cbn [get_idx M_get_idx].
  by rewrite Hfn.
Qed.

(** C2: a [200] whose body parses to a [Resources] root with a [URI] child
    is saved verbatim under [result_filename id m], [m] the last
    [/]-segment of the URI, and recorded in the dict; one request, then
    [sleep(1)], and the permit is given back. *)
Theorem fetch_saved (content : string) (root : element) (m : string) :
  respond url k = GetOk (Response 200 (inr content)) ->
  fromstring content = inr root -> tag_of root = "Resources"%string ->
  extract_mayhem_id root = inr m ->
  fetch_user_data id r w =
    (Ok (), mkWorld (<[result_filename id m := content]> (w_fs w))
                    (<[py_str_Z id := result_filename id m]> (w_idx w)) (S n)
                    (w_log w ++ [EvRequest url; EvSaved (result_filename id m); EvSleep 1%Z])).
Proof.
  intros Hr Hp Ht Hm. enter_worker Hidx Hsem. subst url k. rewrite Hr. cbn.
  unfold save_resources. rewrite Hp, bool_decide_eq_true_2, Hm by done.
  unfold write_file, M_write_file, dict_set, M_dict_set. run_m. by rewrite <- !app_assoc.
Qed.

(** C15: a [200] whose root is not [Resources] is a terminal rejection:
    one request, the message of line 77, [sleep(1)], nothing written. *)
Theorem fetch_no_resources (content : string) (root : element) :
  respond url k = GetOk (Response 200 (inr content)) ->
  fromstring content = inr root -> tag_of root <> "Resources"%string ->
  fetch_user_data id r w =
    (Ok (), mkWorld (w_fs w) (w_idx w) (S n)
                    (w_log w ++ [EvRequest url; EvNoResources id; EvSleep 1%Z])).
Proof.
  intros Hr Hp Ht. enter_worker Hidx Hsem. subst url k. rewrite Hr. cbn.
  unfold save_resources. rewrite Hp, bool_decide_eq_false_2 by done.
  run_m. by rewrite <- !app_assoc.
Qed.

(** C16: a status other than [200], [502], [503], [504] is terminal: one
    request, the message of line 79, [sleep(1)], no retry. *)
Theorem fetch_terminal_status (st : Z) (body : exn + string) :
  respond url k = GetOk (Response st body) -> st <> 200%Z -> gateway_status st = false ->
  fetch_user_data id r w =
    (Ok (), mkWorld (w_fs w) (w_idx w) (S n)
                    (w_log w ++ [EvRequest url; EvStatusError st id; EvSleep 1%Z])).
Proof.
  intros Hr Hst Hg. enter_worker Hidx Hsem. subst url k. rewrite Hr. cbn.
  rewrite (proj2 (Z.eqb_neq _ _) Hst). run_m. rewrite Hg. run_m. by rewrite <- !app_assoc.
Qed.

(** The run of a worker whose body the parser rejects. *)
Lemma parse_error_run (content : string) (e : exn) :
  respond url k = GetOk (Response 200 (inr content)) ->
  fromstring content = inl e -> handled e = false ->
  fetch_user_data id r w =
    (Raise e, mkWorld (w_fs w) (w_idx w) (S n) (w_log w ++ [EvRequest url])).
Proof.
  intros Hr Hp He. enter_worker Hidx Hsem. subst url k. rewrite Hr. cbn.
  unfold save_resources. rewrite Hp. run_m.
  by rewrite (proj2 (handlers_None _ _ _ _) He).
Qed.
(** C17: a [200] body that the parser rejects raises out of the worker:
    the [ParseError] of [ET.fromstring] is not caught (lines 64, 86-109);
    the permit is given back and nothing is written. *)
Theorem fetch_parse_error_escapes (content : string) (e : exn) :
  respond url k = GetOk (Response 200 (inr content)) ->
  fromstring content = inl e -> handled e = false ->
  fetch_user_data id r w =
    (Raise e, mkWorld (w_fs w) (w_idx w) (S n) (w_log w ++ [EvRequest url])).
Proof. apply parse_error_run. Qed.


(** C18: a [Resources] root without a [URI] child raises [AttributeError]
    out of the worker (line 67). *)
Theorem fetch_missing_uri_escapes (content : string) (root : element) :
  respond url k = GetOk (Response 200 (inr content)) ->
  fromstring content = inr root -> tag_of root = "Resources"%string ->
  find root "URI" = None ->
  fetch_user_data id r w =
    (Raise AttributeError, mkWorld (w_fs w) (w_idx w) (S n) (w_log w ++ [EvRequest url])).
Proof.
  intros Hr Hp Ht Hf. enter_worker Hidx Hsem. subst url k. rewrite Hr. cbn.
  unfold save_resources. rewrite Hp, bool_decide_eq_true_2 by done.
  unfold extract_mayhem_id. rewrite Hf. by run_m.
Qed.
End Branches.

(** ** The backoff schedule *)

Lemma backoff_succ r : S r <= MAX_RETRIES -> backoff r = (2 * backoff (S r))%Z.
Proof.
  intros Hr. unfold backoff.
  replace (MAX_RETRIES - r) with (S (MAX_RETRIES - S r)) by lia. apply pow2_succ.
Qed.

(** C27: the total time a worker with [r] retries left can spend in backoff
    is [2^MAX_RETRIES - 2^(MAX_RETRIES - r)]: from the default [r], almost
    [2^1000] seconds. *)
Theorem backoff_schedule_total (r : nat) :
  r <= MAX_RETRIES ->
  foldr Z.add 0%Z (backoff_schedule r) =
    (2 ^ Z.of_nat MAX_RETRIES - 2 ^ Z.of_nat (MAX_RETRIES - r))%Z.
Proof.
  induction r as [|r IH]; intros Hr; cbn [backoff_schedule foldr].
  - rewrite Nat.sub_0_r. lia.
  - rewrite IH by lia. pose proof (backoff_succ r Hr). unfold backoff in *. lia.
Qed.

(** C28: each delay is twice the one before it, so the delays strictly
    increase, and every one of them is a power of two below [2^1024]: the
    [float] conversion in [asyncio.sleep] never overflows. *)
Theorem backoff_schedule_doubling (r : nat) :
  r <= MAX_RETRIES ->
  (forall i d d', backoff_schedule r !! i = Some d -> backoff_schedule r !! S i = Some d' ->
     d' = (2 * d)%Z) /\
  Forall (fun d => 1 <= d < 2 ^ 1024)%Z (backoff_schedule r).
Proof.
  induction r as [|r IH]; intros Hr; [split; [done|constructor]|].
  destruct IH as [IHd IHb]; [lia|]. split.
  - intros [|i] d d' Hd Hd'; simpl in *; [|by eapply IHd].
    injection Hd as <-. destruct r as [|r]; [done|]. simpl in Hd'.
    injection Hd' as <-. apply backoff_succ. lia.
  - constructor; [|done]. unfold backoff. split; [pose proof (pow2_pos (MAX_RETRIES - S r)); lia|].
    apply (pow2_lt_mono _ 1024). unfold MAX_RETRIES. lia.
Qed.
(** ** Concrete runs

    A server that is down, a server that always answers one status or one
    body, and a parser that knows one [Resources] document; the theorems
    above applied to them. *)

Definition demo_uri : string := "/mh/users/5/777".
Definition demo_body : string := "<Resources><URI>/mh/users/5/777</URI></Resources>".
Definition error_body : string := "<error/>".

Definition demo_xml : XmlLib := fun s =>
  if String.eqb s demo_body then inr (Element "Resources" None [Element "URI" (Some demo_uri) []])
  else if String.eqb s error_body then inr (Element "error" None [])
  else if String.eqb s "<Resources/>" then inr (Element "Resources" None [])
  else inl ParseError.

Definition net_down : Network := fun _ _ => GetRaise ClientConnectorError.
Definition net_body (b : string) : Network := fun _ _ => GetOk (Response 200 (inr b)).
Definition net_status (st : Z) : Network := fun _ _ => GetOk (Response st (inr "")).

Definition demo_world : world := mkWorld ∅ ∅ 3 [].
Definition skip_world : world := mkWorld ∅ {[ "5" := "applicationUserId_5_mayhemId_777.xml" ]} 3 [].

Lemma fetch_retry_budget_witness :
  exists evs,
    fetch_on net_down demo_xml 5 2 demo_world =
      (Ok (), mkWorld (w_fs demo_world) (w_idx demo_world) (w_sem demo_world) (w_log demo_world ++ evs)) /\
    requests_to (user_url 5) evs = 3 /\
    (sleeps evs = backoff_schedule 2 \/ sleeps evs = backoff_schedule 2 ++ [1%Z]).
Proof.
  apply (@fetch_retry_budget net_down demo_xml 5 2 demo_world);
    [intros k; reflexivity | reflexivity | simpl; lia].
Defined.

Lemma fetch_deadlock_witness :
  exists w', fetch_on net_down demo_xml 5 3 demo_world = (Stuck, w') /\
    requests_to (user_url 5) (w_log w') = requests_to (user_url 5) (w_log demo_world) + w_sem demo_world.
Proof.
  apply (@fetch_deadlock net_down demo_xml 5 3 demo_world);
    [intros k; reflexivity | reflexivity | simpl; lia].
Defined.

Lemma fetch_skip_witness :
  fetch_on net_down demo_xml 5 1000 skip_world = (Ok (), add_event (EvSkip 5) skip_world).
Proof. apply (@fetch_skip net_down demo_xml 5 1000 "applicationUserId_5_mayhemId_777.xml"). reflexivity. Defined.

Lemma fetch_saved_witness :
  fetch_on (net_body demo_body) demo_xml 5 1000 demo_world =
    (Ok (), mkWorld (<[result_filename 5 "777" := demo_body]> (w_fs demo_world))
                    (<[py_str_Z 5 := result_filename 5 "777"]> (w_idx demo_world)) 3
                    (w_log demo_world ++ [EvRequest (user_url 5); EvSaved (result_filename 5 "777"); EvSleep 1%Z])).
Proof.
  apply (@fetch_saved (net_body demo_body) demo_xml 5 1000 demo_world 2 eq_refl eq_refl
           demo_body (Element "Resources" None [Element "URI" (Some demo_uri) []]) "777");
    reflexivity.
Defined.

Lemma fetch_no_resources_witness :
  fetch_on (net_body error_body) demo_xml 5 1000 demo_world =
    (Ok (), mkWorld (w_fs demo_world) (w_idx demo_world) 3
                    (w_log demo_world ++ [EvRequest (user_url 5); EvNoResources 5; EvSleep 1%Z])).
Proof.
  apply (@fetch_no_resources (net_body error_body) demo_xml 5 1000 demo_world 2 eq_refl eq_refl
           error_body (Element "error" None [])); [reflexivity | reflexivity | discriminate].
Defined.

Lemma fetch_terminal_status_witness :
  fetch_on (net_status 404) demo_xml 5 1000 demo_world =
    (Ok (), mkWorld (w_fs demo_world) (w_idx demo_world) 3
                    (w_log demo_world ++ [EvRequest (user_url 5); EvStatusError 404 5; EvSleep 1%Z])).
Proof.
  apply (@fetch_terminal_status (net_status 404) demo_xml 5 1000 demo_world 2 eq_refl eq_refl
           404 (inr "")); [reflexivity | discriminate | reflexivity].
Defined.

Lemma fetch_parse_error_escapes_witness :
  fetch_on (net_body "<Resources") demo_xml 5 1000 demo_world =
    (Raise ParseError, mkWorld (w_fs demo_world) (w_idx demo_world) 3
                         (w_log demo_world ++ [EvRequest (user_url 5)])).
Proof.
  apply (@fetch_parse_error_escapes (net_body "<Resources") demo_xml 5 1000 demo_world 2 eq_refl eq_refl
           "<Resources" ParseError); reflexivity.
Defined.

Lemma fetch_missing_uri_escapes_witness :
  fetch_on (net_body "<Resources/>") demo_xml 5 1000 demo_world =
    (Raise AttributeError, mkWorld (w_fs demo_world) (w_idx demo_world) 3
                             (w_log demo_world ++ [EvRequest (user_url 5)])).
Proof.
  apply (@fetch_missing_uri_escapes (net_body "<Resources/>") demo_xml 5 1000 demo_world 2 eq_refl eq_refl
           "<Resources/>" (Element "Resources" None [])); reflexivity.
Defined.

Lemma xml_key_result_filename_witness :
  xml_key (result_filename 5 "777") = Some (py_str_Z 5) /\
  (result_filename 5 "777" = result_filename 5 "777" -> (5 = 5)%Z).
Proof. apply (xml_key_result_filename 5 5 "777" "777"). Defined.

Lemma backoff_schedule_total_witness :
  foldr Z.add 0%Z (backoff_schedule MAX_RETRIES) =
    (2 ^ Z.of_nat MAX_RETRIES - 2 ^ Z.of_nat (MAX_RETRIES - MAX_RETRIES))%Z.
Proof. apply backoff_schedule_total. lia. Defined.

Lemma backoff_schedule_doubling_witness :
  (forall i d d', backoff_schedule MAX_RETRIES !! i = Some d ->
     backoff_schedule MAX_RETRIES !! S i = Some d' -> d' = (2 * d)%Z) /\
  Forall (fun d => 1 <= d < 2 ^ 1024)%Z (backoff_schedule MAX_RETRIES).
Proof. apply backoff_schedule_doubling. lia. Defined.

End Fetch.
