(* ===== verification/Coroutine.v ===== *)
(** * Coroutine: a task of the asyncio event loop

    The worker of [Fetch] is written against the effect classes of
    [Runtime].  This file gives them a second instance, [co], in which a
    coroutine is the tree of its atomic steps and of its suspension points,
    so that the event loop of [Gather] can interleave several of them:
    - [CStep f]: code that runs without yielding (a [print], a read or a
      write of [existing_files_dict], the handling of a response) as one
      atomic update of the world that also picks the continuation;
    - [CAwait k]: an [await] that suspends the task: the request and
      [response.text()] of lines 50-52, [asyncio.sleep], the open, write
      and close of the [aiofiles] file of lines 72-73;
    - [CAcquire k] and [CRelease k]: [semaphore.acquire()], which suspends
      only when no permit is free (asyncio's fast path), and
      [semaphore.release()], which never suspends.
    [seq_run] runs a task alone; the worker run alone as a task is the
    worker of [Fetch] run in [M] ([fetch_refines]), through a relation
    between the two instances ([refines]) that every effect and
    combinator preserves.  [run_slice] runs a task from a resumption to
    its next suspension: the unit of work the event loop schedules. *)

From Stdlib Require Import ZArith Lia String.
From stdpp Require Import base list gmap strings.
From S2P Require Import Prelude PyStr Runtime ResultIndex Fetch.
Import PyStr Runtime ResultIndex Fetch.

Module Coroutine.

(** ** Tasks *)

Inductive co (A : Type) : Type :=
  | CRet (a : A)
  | CRaise (e : exn)
  | CStep (f : world -> co A * world)
  | CAwait (k : co A)
  | CAcquire (k : co A)
  | CRelease (k : co A).
Arguments CRet {A} a.
Arguments CRaise {A} e.
Arguments CStep {A} f.
Arguments CAwait {A} k.
Arguments CAcquire {A} k.
Arguments CRelease {A} k.

(** Induction on a task, with a hypothesis for every continuation a step
    can pick (Rocq's generated principle has none for [CStep]). *)
Fixpoint co_ind' {A} (P : co A -> Prop)
    (Hret : forall a, P (CRet a)) (Hraise : forall e, P (CRaise e))
    (Hstep : forall f, (forall w, P (f w).1) -> P (CStep f))
    (Hawait : forall t, P t -> P (CAwait t)) (Hacq : forall t, P t -> P (CAcquire t))
    (Hrel : forall t, P t -> P (CRelease t)) (t : co A) : P t :=
  match t with
  | CRet a => Hret a
  | CRaise e => Hraise e
  | CStep f => Hstep f (fun w =>
      match f w as p return P p.1 with
      | (t', _) => co_ind' P Hret Hraise Hstep Hawait Hacq Hrel t'
      end)
  | CAwait t' => Hawait t' (co_ind' P Hret Hraise Hstep Hawait Hacq Hrel t')
  | CAcquire t' => Hacq t' (co_ind' P Hret Hraise Hstep Hawait Hacq Hrel t')
  | CRelease t' => Hrel t' (co_ind' P Hret Hraise Hstep Hawait Hacq Hrel t')
  end.

(** [t] followed by [k] of its result. *)
Fixpoint co_bind {A B} (k : A -> co B) (t : co A) : co B :=
  match t with
  | CRet a => k a
  | CRaise e => CRaise e
  | CStep f => CStep (fun w => match f w with (t', w') => (co_bind k t', w') end)
  | CAwait t' => CAwait (co_bind k t')
  | CAcquire t' => CAcquire (co_bind k t')
  | CRelease t' => CRelease (co_bind k t')
  end.

(** [try: t except ...]: the handler replaces the raise it catches. *)
Fixpoint co_try {A} (t : co A) (h : exn -> option (co A)) : co A :=
  match t with
  | CRet a => CRet a
  | CRaise e => match h e with Some k => k | None => CRaise e end
  | CStep f => CStep (fun w => match f w with (t', w') => (co_try t' h, w') end)
  | CAwait t' => CAwait (co_try t' h)
  | CAcquire t' => CAcquire (co_try t' h)
  | CRelease t' => CRelease (co_try t' h)
  end.

(** The [finally] of [async with semaphore]: release on return and on
    raise. *)
Definition co_finally {A} (t : co A) : co A :=
  co_try (co_bind (fun a => CRelease (CRet a)) t) (fun e => Some (CRelease (CRaise e))).

#[export] Instance co_ret : MRet co := @CRet.
#[export] Instance co_mbind : MBind co := @co_bind.
#[export] Instance co_throw : MThrow exn co := @CRaise.
#[export] Instance co_try_except : TryExcept co := @co_try.
#[export] Instance co_print : Print co := fun ev => CStep (fun w => (CRet tt, add_event ev w)).
#[export] Instance co_sleep : Sleep co :=
  fun d => CStep (fun w => (CAwait (CRet tt), add_event (EvSleep d) w)).
#[export] Instance co_get_idx : GetIdx co := CStep (fun w => (CRet (w_idx w), w)).
#[export] Instance co_dict_set : DictSet co :=
  fun k v => CStep (fun w => (CRet tt, set_idx (<[k := v]> (w_idx w)) w)).
(** [async with aiofiles.open(filename, 'w') as file: await file.write(content)]
    awaits three times: the open, which creates or truncates the file, the
    write, and the close of [__aexit__]. *)
#[export] Instance co_write_file : WriteFile co :=
  fun fn content =>
    CAwait (CStep (fun w => (CAwait (CStep (fun w =>
      (CAwait (CRet tt), set_fs (<[fn := content]> (w_fs w)) w))),
      set_fs (<[fn := ""%string]> (w_fs w)) w))).
#[export] Instance co_with_semaphore : WithSemaphore co := fun A body => CAcquire (co_finally body).

(** The request suspends the task; its answer comes back as one step. *)
#[export] Instance co_http_get {N : Network} : HttpGet co := fun url =>
  CAwait (CStep (fun w =>
    (match respond url (requests_to url (w_log w)) with
     | GetRaise e => CRaise e
     | GetOk r => CRet r
     end, add_event (EvRequest url) w))).

(** ** Running a task *)

(** Alone: every suspension resumes at once; a task that waits for a
    permit no one else can give back is [Stuck]. *)
Fixpoint seq_run {A} (t : co A) (w : world) : res A * world :=
  match t with
  | CRet a => (Ok a, w)
  | CRaise e => (Raise e, w)
  | CStep f => match f w with (t', w') => seq_run t' w' end
  | CAwait t' => seq_run t' w
  | CAcquire t' => match w_sem w with O => (Stuck, w) | S n => seq_run t' (set_sem n w) end
  | CRelease t' => seq_run t' (set_sem (S (w_sem w)) w)
  end.

(** From a resumption to the next suspension: the task stops at an
    [await], at an [acquire] with no free permit, or at its end. *)
Fixpoint run_slice {A} (t : co A) (w : world) : co A * world :=
  match t with
  | CStep f => match f w with (t', w') => run_slice t' w' end
  | CAcquire t' => match w_sem w with O => (CAcquire t', w) | S n => run_slice t' (set_sem n w) end
  | CRelease t' => run_slice t' (set_sem (S (w_sem w)) w)
  | _ => (t, w)
  end.

(** What the event loop can do with a task: resume it, unless it has
    ended or waits for a permit while none is free. *)
Definition resume {A} (t : co A) (w : world) : option (co A * world) :=
  match t with
  | CRet _ | CRaise _ => None
  | CAwait t' => Some (run_slice t' w)
  | CAcquire _ => match w_sem w with O => None | S _ => Some (run_slice t w) end
  | _ => Some (run_slice t w)
  end.

(** A task that has ended, and one that waits. *)
Definition finished {A} (t : co A) : bool :=
  match t with CRet _ | CRaise _ => true | _ => false end.

Definition suspended {A} (t : co A) : bool :=
  match t with CAwait _ | CAcquire _ => true | _ => false end.

(** ** The two instances agree

    [refines t m]: the task [t] run alone does what [m] does in [M]. *)
Definition refines {A} (t : co A) (m : M A) : Prop := forall w, seq_run t w = m w.

Definition refines_opt {A} (t : option (co A)) (m : option (M A)) : Prop :=
  match t, m with
  | Some t, Some m => refines t m
  | None, None => True
  | _, _ => False
  end.

Lemma seq_run_bind {A B} (k : A -> co B) (t : co A) w :
  seq_run (co_bind k t) w =
  match seq_run t w with
  | (Ok a, w') => seq_run (k a) w'
  | (Raise e, w') => (Raise e, w')
  | (Stuck, w') => (Stuck, w')
  end.
Proof.
  revert w. induction t as [a|e|f IH|t IH|t IH|t IH] using co_ind'; intros w; simpl; try done.
  - specialize (IH w). destruct (f w) as [t' w']. apply IH.
  - by destruct (w_sem w).
Qed.

Lemma seq_run_try {A} (t : co A) h w :
  seq_run (co_try t h) w =
  match seq_run t w with
  | (Raise e, w') => match h e with Some k => seq_run k w' | None => (Raise e, w') end
  | r => r
  end.
Proof.
  revert w. induction t as [a|e|f IH|t IH|t IH|t IH] using co_ind'; intros w; simpl; try done.
  - by destruct (h e).
  - specialize (IH w). destruct (f w) as [t' w']. apply IH.
  - by destruct (w_sem w).
Qed.

Section Refines.
Context {N : Network}.

Lemma refines_ret {A} (a : A) : refines (mret a) (mret a).
Proof. done. Qed.

Lemma refines_throw {A} (e : exn) : refines (mthrow (A:=A) e) (mthrow e).
Proof. done. Qed.

Lemma refines_print ev : refines (print ev) (print ev).
Proof. done. Qed.

Lemma refines_sleep d : refines (sleep d) (sleep d).
Proof. done. Qed.

Lemma refines_get_idx : refines get_idx get_idx.
Proof. done. Qed.

Lemma refines_dict_set k v : refines (dict_set k v) (dict_set k v).
Proof. done. Qed.

Lemma refines_write_file fn c : refines (write_file fn c) (write_file fn c).
Proof. intros w. simpl. by rewrite insert_insert_eq. Qed.

Lemma refines_http_get url : refines (http_get url) (http_get url).
Proof. intros w. unfold http_get, M_http_get, co_http_get. simpl. by destruct (respond _ _). Qed.

Lemma refines_bind {A B} (t : co A) (m : M A) (k : A -> co B) (k' : A -> M B) :
  refines t m -> (forall a, refines (k a) (k' a)) -> refines (t ≫= k) (m ≫= k').
Proof.
  intros Ht Hk w. unfold mbind, co_mbind, M_bind. rewrite seq_run_bind, Ht.
  destruct (m w) as [[a|e|] w']; [apply Hk|done|done].
Qed.

Lemma refines_try {A} (t : co A) (m : M A) h h' :
  refines t m -> (forall e, refines_opt (h e) (h' e)) ->
  refines (try_except t h) (try_except m h').
Proof.
  intros Ht Hh w. unfold try_except, co_try_except, M_try. rewrite seq_run_try, Ht.
  destruct (m w) as [[a|e|] w']; [done| |done].
  specialize (Hh e). destruct (h e), (h' e); by simpl in Hh.
Qed.

Lemma refines_with_semaphore {A} (t : co A) (m : M A) :
  refines t m -> refines (with_semaphore t) (with_semaphore m).
Proof.
  intros Ht w. unfold with_semaphore, co_with_semaphore, M_with_semaphore, acquire; simpl.
  destruct (w_sem w) as [|n]; [done|]. unfold co_finally.
  rewrite seq_run_try, seq_run_bind, Ht. by destruct (m _) as [[a|e|] w'].
Qed.
End Refines.

#[export] Hint Resolve refines_ret refines_throw refines_print refines_sleep
  refines_get_idx refines_dict_set refines_write_file refines_http_get
  refines_with_semaphore : mayhem.

(** ** Slices and evaluation contexts *)

(** Running a slice does not change what the task does alone. *)
Lemma seq_run_slice {A} (t : co A) w :
  seq_run t w = seq_run (run_slice t w).1 (run_slice t w).2.
Proof.
  revert w. induction t as [a|e|f IH|t IH|t IH|t IH] using co_ind'; intros w; simpl; try done.
  - specialize (IH w). destruct (f w) as [t' w']. apply IH.
  - destruct (w_sem w) as [|n] eqn:E; simpl; [by rewrite E|apply IH].
Qed.

Lemma seq_run_resume {A} (t : co A) w p :
  resume t w = Some p -> seq_run t w = seq_run p.1 p.2.
Proof.
  destruct t as [a|e|f|t|t|t]; unfold resume; intros Hp; simplify_eq.
  - apply seq_run_slice.
  - exact (seq_run_slice t w).
  - destruct (w_sem w) eqn:E; simplify_eq. apply seq_run_slice.
  - apply seq_run_slice.
Qed.

(** A context the event loop sees through: it keeps suspensions, and a
    slice of the task inside it that ends suspended is a slice of the
    whole. *)
Definition transparent {A B} (E : co A -> co B) : Prop :=
  (forall t, E (CAwait t) = CAwait (E t)) /\
  (forall t, E (CAcquire t) = CAcquire (E t)) /\
  (forall t w, suspended (run_slice t w).1 = true ->
     run_slice (E t) w = (E (run_slice t w).1, (run_slice t w).2)).

Lemma run_slice_bind {A B} (k : A -> co B) (t : co A) w :
  suspended (run_slice t w).1 = true ->
  run_slice (co_bind k t) w = (co_bind k (run_slice t w).1, (run_slice t w).2).
Proof.
  revert w. induction t as [a|e|f IH|t IH|t IH|t IH] using co_ind'; intros w; simpl; try done.
  - specialize (IH w). destruct (f w) as [t' w']. apply IH.
  - destruct (w_sem w) as [|n]; simpl; [done|apply IH].
  - apply IH.
Qed.

Lemma run_slice_try {A} (t : co A) h w :
  suspended (run_slice t w).1 = true ->
  run_slice (co_try t h) w = (co_try (run_slice t w).1 h, (run_slice t w).2).
Proof.
  revert w. induction t as [a|e|f IH|t IH|t IH|t IH] using co_ind'; intros w; simpl; try done.
  - specialize (IH w). destruct (f w) as [t' w']. apply IH.
  - destruct (w_sem w) as [|n]; simpl; [done|apply IH].
  - apply IH.
Qed.

(** Resuming a task inside a context. *)
Lemma suspended_ctx {A B} (E : co A -> co B) t :
  transparent E -> suspended t = true -> suspended (E t) = true.
Proof. intros (Ha & Hq & _) Ht. destruct t; try done; [rewrite Ha|rewrite Hq]; done. Qed.

Lemma run_slice_ctx {A B} (E : co A -> co B) t w t' w' :
  transparent E -> run_slice t w = (t', w') -> suspended t' = true ->
  run_slice (E t) w = (E t', w').
Proof. intros (_ & _ & Hs) Ht Hsus. rewrite Hs; rewrite Ht; done. Qed.

Lemma transparent_id {A} : transparent (fun t : co A => t).
Proof. split_and!; intros; [done|done|by destruct (run_slice t w)]. Qed.

Lemma transparent_bind {A B C} (k : B -> co C) (E : co A -> co B) :
  transparent E -> transparent (fun t => co_bind k (E t)).
Proof.
  intros HE. pose proof HE as (Ha & Hq & _). split_and!; intros.
  - by rewrite Ha.
  - by rewrite Hq.
  - destruct (run_slice t w) as [t' w'] eqn:Ht. simpl in *.
    assert (HEt : run_slice (E t) w = (E t', w')) by (by apply run_slice_ctx).
    rewrite run_slice_bind; rewrite HEt; [done|]. simpl. by apply suspended_ctx.
Qed.

Lemma transparent_try {A B} (h : exn -> option (co B)) (E : co A -> co B) :
  transparent E -> transparent (fun t => co_try (E t) h).
Proof.
  intros HE. pose proof HE as (Ha & Hq & _). split_and!; intros.
  - by rewrite Ha.
  - by rewrite Hq.
  - destruct (run_slice t w) as [t' w'] eqn:Ht. simpl in *.
    assert (HEt : run_slice (E t) w = (E t', w')) by (by apply run_slice_ctx).
    rewrite run_slice_try; rewrite HEt; [done|]. simpl. by apply suspended_ctx.
Qed.

Lemma transparent_compose {A B C} (E1 : co B -> co C) (E2 : co A -> co B) :
  transparent E1 -> transparent E2 -> transparent (fun t => E1 (E2 t)).
Proof.
  intros HE1 HE2. pose proof HE1 as (Ha1 & Hq1 & _). pose proof HE2 as (Ha2 & Hq2 & _).
  split_and!; intros.
  - by rewrite Ha2, Ha1.
  - by rewrite Hq2, Hq1.
  - destruct (run_slice t w) as [t' w'] eqn:Ht. simpl in *.
    apply (run_slice_ctx E1); [done| |by apply suspended_ctx].
    by apply (run_slice_ctx E2).
Qed.

Ltac transparent_tac :=
  repeat first
    [ apply transparent_id
    | apply transparent_bind
    | apply transparent_try
    | apply transparent_compose ].

(** ** Permits held by a task

    [cap B n t]: the task [t] holds [n] permits now and never holds more
    than [B] on any run; it gives every permit back before it ends, and
    its steps leave the counter alone (only [CAcquire] and [CRelease]
    move it). *)
Inductive cap {A} (B : nat) : nat -> co A -> Prop :=
  | cap_ret a : cap B 0 (CRet a)
  | cap_raise e : cap B 0 (CRaise e)
  | cap_step n f :
      (forall w, w_sem (f w).2 = w_sem w) -> (forall w, cap B n (f w).1) -> cap B n (CStep f)
  | cap_await n t : cap B n t -> cap B n (CAwait t)
  | cap_acquire n t : S n <= B -> cap B (S n) t -> cap B n (CAcquire t)
  | cap_release n t : cap B n t -> cap B (S n) (CRelease t).

Lemma cap_weaken {A} B B' n (t : co A) : B <= B' -> cap B n t -> cap B' n t.
Proof.
  intros Hle Ht. induction Ht; econstructor; eauto. lia.
Qed.

Lemma cap_bind {A B'} B n (t : co A) (k : A -> co B') :
  cap B n t -> (forall a, cap B 0 (k a)) -> cap B n (co_bind k t).
Proof.
  intros Ht Hk. induction Ht as [a|e|n f Hs Hf IH|n t Ht IH|n t Hn Ht IH|n t Ht IH];
    simpl; try constructor; auto; intros w; specialize (Hs w); specialize (IH w);
    destruct (f w) as [t' w']; done.
Qed.

Lemma cap_try {A} B n (t : co A) h :
  cap B n t -> (forall e u, h e = Some u -> cap B 0 u) -> cap B n (co_try t h).
Proof.
  intros Ht Hh. induction Ht as [a|e|n f Hs Hf IH|n t Ht IH|n t Hn Ht IH|n t Ht IH];
    simpl; try constructor; auto; try (intros w; specialize (Hs w); specialize (IH w);
    destruct (f w) as [t' w']; done).
  destruct (h e) eqn:E; [by eapply Hh|constructor].
Qed.

(** Inside [async with semaphore] the body holds one permit more. *)
Lemma cap_finally {A} B n (t : co A) :
  cap B n t -> cap (S B) (S n) (co_finally t).
Proof.
  unfold co_finally. intros Ht.
  induction Ht as [a|e|n f Hs Hf IH|n t Ht IH|n t Hn Ht IH|n t Ht IH]; simpl.
  - by do 2 constructor.
  - by do 2 constructor.
  - constructor; intros w; [specialize (Hs w)|specialize (IH w)];
      destruct (f w) as [t' w']; done.
  - by constructor.
  - constructor; [lia|done].
  - by constructor.
Qed.

Lemma cap_with_semaphore {A} B (body : co A) :
  cap B 0 body -> cap (S B) 0 (with_semaphore body).
Proof. intros Hb. constructor; [lia|]. by apply cap_finally. Qed.

Section CapEffects.
Context {N : Network}.

Lemma cap_print B ev : cap B 0 (print ev).
Proof. repeat constructor. Qed.

Lemma cap_sleep B d : cap B 0 (sleep d).
Proof. repeat constructor. Qed.

Lemma cap_get_idx B : cap B 0 get_idx.
Proof. repeat constructor. Qed.

Lemma cap_dict_set B k v : cap B 0 (dict_set k v).
Proof. repeat constructor. Qed.

Lemma cap_write_file B fn c : cap B 0 (write_file fn c).
Proof. repeat constructor. Qed.

Lemma cap_http_get B url : cap B 0 (http_get url).
Proof.
  do 2 constructor; [done|]. intros w. simpl. destruct (respond _ _); constructor.
Qed.
End CapEffects.

(** A slice keeps the count: the permits a task takes come off the
    counter, the ones it gives back go onto it. *)
Lemma cap_run_slice {A} B n (t : co A) w :
  cap B n t ->
  exists n', cap B n' (run_slice t w).1 /\ w_sem (run_slice t w).2 + n' = w_sem w + n.
Proof.
  intros Ht. revert w. induction Ht as [a|e|n f Hs Hf IH|n t Ht IH|n t Hn Ht IH|n t Ht IH]; intros w;
    simpl; try (eexists; split; [by constructor|done]).
  - specialize (Hs w). destruct (IH w (f w).2) as (n' & Hc & Heq).
    destruct (f w) as [t' w']. simpl in *. exists n'. split; [done|lia].
  - destruct (w_sem w) as [|m] eqn:E.
    + exists n. split; [by constructor|simpl; lia].
    + destruct (IH (set_sem m w)) as (n' & Hc & Heq). exists n'. split; [done|simpl in *; lia].
  - destruct (IH (set_sem (S (w_sem w)) w)) as (n' & Hc & Heq). exists n'. split; [done|simpl in *; lia].
Qed.

Lemma cap_resume {A} B n (t : co A) w p :
  cap B n t -> resume t w = Some p ->
  exists n', cap B n' p.1 /\ w_sem p.2 + n' = w_sem w + n.
Proof.
  intros Ht Hr. destruct t as [a|e|f|t|t|t]; unfold resume in Hr; simplify_eq.
  - by apply cap_run_slice.
  - inversion Ht; subst. by apply cap_run_slice.
  - destruct (w_sem w) eqn:E; simplify_eq. rewrite <- E. by apply cap_run_slice.
  - by apply cap_run_slice.
Qed.

(** ** Every resumption makes progress *)

(** [t'] is what is left of [t] after its first node. *)
Inductive co_sub {A} : co A -> co A -> Prop :=
  | sub_step f w : co_sub (f w).1 (CStep f)
  | sub_await t : co_sub t (CAwait t)
  | sub_acquire t : co_sub t (CAcquire t)
  | sub_release t : co_sub t (CRelease t).

Lemma co_sub_wf {A} : well_founded (@co_sub A).
Proof.
  intros t. induction t using co_ind'; constructor; intros t' Ht'; inversion Ht'; subst; auto.
Qed.

Lemma run_slice_below {A} (t : co A) w : rtc co_sub (run_slice t w).1 t.
Proof.
  revert w. induction t as [a|e|f IH|t IH|t IH|t IH] using co_ind'; intros w; simpl;
    try done.
  - specialize (IH w (f w).2). destruct (f w) as [t' w'] eqn:E. simpl in *.
    eapply rtc_r; [done|]. replace t' with (f w).1 by (by rewrite E). constructor.
  - destruct (w_sem w); [done|]. eapply rtc_r; [apply IH|constructor].
  - eapply rtc_r; [apply IH|constructor].
Qed.

(** A resumption consumes at least the node it resumes. *)
Lemma resume_below {A} (t : co A) w p : resume t w = Some p -> tc co_sub p.1 t.
Proof.
  intros Hr. destruct t as [a|e|f|t|t|t]; unfold resume in Hr; simplify_eq.
  - simpl. pose proof (run_slice_below (f w).1 (f w).2) as H. destruct (f w) as [t' w'] eqn:E.
    simpl in *. eapply tc_rtc_l; [done|]. apply tc_once. replace t' with (f w).1 by (by rewrite E). constructor.
  - eapply tc_rtc_l; [apply run_slice_below|]. apply tc_once. constructor.
  - destruct (w_sem w) eqn:Es; simplify_eq. simpl. rewrite Es.
    eapply tc_rtc_l; [apply run_slice_below|]. apply tc_once. constructor.
  - simpl. eapply tc_rtc_l; [apply run_slice_below|]. apply tc_once. constructor.
Qed.

(** ** The worker as a task *)

Section Worker.
Context {N : Network} {X : XmlLib}.

(** One step of the relation along the structure of a program. *)
Ltac refine_step :=
  match goal with
  | |- refines (mret _) (mret _) => apply refines_ret
  | |- refines (mthrow _) (mthrow _) => apply refines_throw
  | |- refines (print _) (print _) => apply refines_print
  | |- refines (sleep _) (sleep _) => apply refines_sleep
  | |- refines get_idx get_idx => apply refines_get_idx
  | |- refines (dict_set _ _) (dict_set _ _) => apply refines_dict_set
  | |- refines (write_file _ _) (write_file _ _) => apply refines_write_file
  | |- refines (http_get _) (http_get _) => apply refines_http_get
  | |- refines (_ ≫= _) (_ ≫= _) => apply refines_bind; [|intros ?]
  | |- refines (try_except _ _) (try_except _ _) => apply refines_try; [|intros ?]
  | |- refines (with_semaphore _) (with_semaphore _) => apply refines_with_semaphore
  | H : refines_opt ?rec ?rec' |- refines (match ?rec with _ => _ end) (match ?rec' with _ => _ end) =>
      destruct rec, rec'; simpl in H; try contradiction
  | |- refines (match ?x with _ => _ end) (match ?x with _ => _ end) => destruct x
  | |- refines_opt (match ?x with _ => _ end) (match ?x with _ => _ end) => destruct x
  | |- refines_opt (Some _) (Some _) => simpl
  | |- refines_opt None None => exact I
  end.

Lemma refines_retry_after r k k' :
  refines k k' -> refines (retry_after r k) (retry_after r k').
Proof. intros Hk. unfold retry_after. by repeat refine_step. Qed.

Lemma refines_retry_or_fail id r rec rec' :
  refines_opt rec rec' -> refines (retry_or_fail id r rec) (retry_or_fail id r rec').
Proof.
  intros Hr. unfold retry_or_fail. repeat refine_step. by apply refines_retry_after.
Qed.

Lemma refines_save_resources id content :
  refines (save_resources id content) (save_resources id content).
Proof. unfold save_resources. by repeat refine_step. Qed.

Lemma refines_attempt id r rec rec' :
  refines_opt rec rec' -> refines (attempt id r rec) (attempt id r rec').
Proof.
  intros Hr. unfold attempt. repeat refine_step;
    auto using refines_retry_or_fail, refines_save_resources, refines_retry_after.
Qed.

Lemma refines_handlers id r rec rec' e :
  refines_opt rec rec' -> refines_opt (handlers id r rec e) (handlers id r rec' e).
Proof.
  intros Hr. destruct e; unfold handlers; cbv beta iota delta [refines_opt];
    repeat refine_step; auto using refines_retry_or_fail, refines_retry_after.
Qed.

Lemma fetch_refines (id : Z) (r : nat) :
  refines (fetch_user_data id r) (fetch_user_data id r).
Proof.
  assert (Hr : forall r, refines (fetch_user_data id r) (fetch_user_data id r) ->
    refines_opt (rec_call (m:=co) id (S r)) (rec_call (m:=M) id (S r))) by done.
  induction r as [|r IH]; rewrite !fetch_user_data_eq; unfold fetch_body;
    [pose proof (I : refines_opt (rec_call (m:=co) id 0) (rec_call (m:=M) id 0)) as Hrec
    |pose proof (Hr r IH) as Hrec];
    repeat refine_step; auto using refines_attempt, refines_handlers.
Qed.

(** Permits held by the worker: one per attempt in progress, [r + 1] at
    most for [r] retries. *)
Ltac cap_step :=
  match goal with
  | |- cap _ _ (mret _) => constructor
  | |- cap _ _ (mthrow _) => constructor
  | |- cap _ _ (print _) => apply cap_print
  | |- cap _ _ (sleep _) => apply cap_sleep
  | |- cap _ _ get_idx => apply cap_get_idx
  | |- cap _ _ (dict_set _ _) => apply cap_dict_set
  | |- cap _ _ (write_file _ _) => apply cap_write_file
  | |- cap _ _ (http_get _) => apply cap_http_get
  | |- cap _ _ (_ ≫= _) => apply cap_bind; [|intros ?]
  | |- cap _ _ (match ?x with _ => _ end) => destruct x
  end.

(** The retry, when there is one, holds at most [B] permits. *)
Definition cap_opt (B : nat) (rec : option (co unit)) : Prop :=
  forall k, rec = Some k -> cap B 0 k.

Lemma cap_retry_after B r k : cap B 0 k -> cap B 0 (retry_after r k).
Proof. intros Hk. unfold retry_after. by repeat cap_step. Qed.

Lemma cap_rec B rec (P : co unit -> co ctrl) (d : co ctrl) :
  cap_opt B rec -> (forall k, cap B 0 k -> cap B 0 (P k)) -> cap B 0 d ->
  cap B 0 (match rec with Some k => P k | None => d end).
Proof. intros Hr HP Hd. destruct rec as [k|]; [by apply HP, Hr|done]. Qed.

Lemma cap_retry_or_fail B id r rec : cap_opt B rec -> cap B 0 (retry_or_fail id r rec).
Proof.
  intros Hr. unfold retry_or_fail. apply cap_rec; [done|apply cap_retry_after|by repeat cap_step].
Qed.

Lemma cap_save_resources B id content : cap B 0 (save_resources id content).
Proof. unfold save_resources. by repeat cap_step. Qed.

Lemma cap_attempt B id r rec : cap_opt B rec -> cap B 0 (attempt id r rec).
Proof.
  intros Hr. unfold attempt. repeat first
    [ apply cap_rec; [done| |]; intros
    | cap_step ]; auto using cap_retry_or_fail, cap_save_resources, cap_retry_after.
Qed.

Lemma cap_handlers B id r rec e u : cap_opt B rec -> handlers id r rec e = Some u -> cap B 0 u.
Proof.
  intros Hr Hu. destruct e; unfold handlers in Hu; try discriminate; apply (inj Some) in Hu; subst u;
    repeat first [ apply cap_rec; [done| |]; intros | cap_step ];
    auto using cap_retry_or_fail, cap_retry_after.
Qed.

Lemma fetch_cap id r : cap (S r) 0 (fetch_user_data (m:=co) id r).
Proof.
  induction r as [|r IH]; rewrite fetch_user_data_eq; unfold fetch_body;
    [assert (Hr : cap_opt 0 (rec_call (m:=co) id 0)) by (by intros k)
    |assert (Hr : cap_opt (S r) (rec_call (m:=co) id (S r))) by (intros k [= <-]; exact IH)];
    repeat cap_step; try apply cap_with_semaphore; repeat cap_step;
    try (apply cap_try; [by apply cap_attempt|intros e u; by apply cap_handlers]).
Qed.
End Worker.

End Coroutine.
