(* ===== verification/Batch.v ===== *)
(** * Batch: [process_users] and [main] (grab_mayhemids.py, lines 9-11, 113-135)

    [main] sets up the semaphore, scans the directory once, and walks
    [range(START_ID, END_ID + 1, batch_size)]; each chunk
    [start_id .. min(start_id + batch_size - 1, END_ID)] is handed to
    [process_users], which gathers one worker per id.  Here the gather is
    run with the schedule that runs the workers one after the other in the
    order of the list.  That is not asyncio's schedule, which starts every
    worker, and so every request of the chunk, before it handles any
    response; the interleaved gather is [Gather] and [RunLoop].  The
    theorems proved on this model are those whose result does not depend
    on the schedule: a chunk of ids already saved, whose workers never
    await ([rerun_skips_saved]), and the chunking itself
    ([chunks_partition], [chunks_bounded]). *)

From Stdlib Require Import ZArith Lia String.
From stdpp Require Import base list gmap strings.
From S2P Require Import Prelude PyStr Runtime ResultIndex Fetch.
Import PyStr Runtime ResultIndex Fetch.

Module Batch.

(** ** Constants (lines 10-11, 130) *)

Definition START_ID : Z := 9816000000.
Definition END_ID : Z := 9816000000.
Definition batch_size : Z := 1000.

(** ** Python [range] *)

(** [range(a, b)]. *)
Definition py_range (a b : Z) : list Z :=
  map (fun i => a + Z.of_nat i)%Z (seq 0 (Z.to_nat (b - a))).

(** [range(a, b, step)] for [step > 0]: [len = max(0, (b - a + step - 1) // step)]. *)
Definition py_range_step (a b step : Z) : list Z :=
  map (fun i => a + Z.of_nat i * step)%Z (seq 0 (Z.to_nat ((b - a + step - 1) / step))).

(** ** The chunks of [main] *)

(** The [(start_id, end_id)] pairs of lines 131-132. *)
Definition chunks (start end_ bs : Z) : list (Z * Z) :=
  map (fun s => (s, Z.min (s + bs - 1) end_)%Z) (py_range_step start (end_ + 1) bs).

(** The ids [process_users(start_id, end_id)] creates a task for (line 116). *)
Definition chunk_ids (c : Z * Z) : list Z := py_range c.1 (c.2 + 1).

Section Driver.
Context `{Network} `{XmlLib}.

(** [await asyncio.gather] over the tasks, under the in-order schedule. *)
Fixpoint gather_seq (tasks : list (M unit)) : M unit :=
  match tasks with
  | [] => mret ()
  | t :: ts => t;; gather_seq ts
  end.

(** [process_users(start_id, end_id)] (lines 113-120). *)
Definition process_users (start_id end_id : Z) : M unit :=
  gather_seq (map (fun applicationUserId => fetch applicationUserId)
                  (py_range start_id (end_id + 1))).

(** The loop of lines 131-135 over the chunks. *)
Fixpoint run_chunks (cs : list (Z * Z)) : M unit :=
  match cs with
  | [] => mret ()
  | (s, e) :: rest =>
      print (EvProcessing s e);;
      process_users s e;;
      print (EvFinished s e);;
      run_chunks rest
  end.

(** [main()] (lines 122-135): the semaphore of line 124, the scan of line
    127 over [listing] (what [os.listdir(".")] returns), then the chunks. *)
Definition main_with (start end_ bs : Z) (listing : list string) : M unit :=
  (fun w => (Ok (), set_sem MAX_CONCURRENT_REQUESTS w));;
  load_existing_files listing;;
  run_chunks (chunks start end_ bs).

Definition main (listing : list string) : M unit :=
  main_with START_ID END_ID batch_size listing.
End Driver.

(** ** Ranges *)

Lemma map_seq_shift (a : Z) (x y : nat) :
  map (fun i => a + Z.of_nat i)%Z (seq x y) = map (fun i => (a + Z.of_nat x) + Z.of_nat i)%Z (seq 0 y).
Proof.
  revert x. induction y as [|y IH]; intros x; [done|]. simpl. f_equal; [lia|].
  rewrite IH, <- (seq_shift y 0), map_map. apply map_ext. intros i. lia.
Qed.

(** [range(a, c) = range(a, m) + range(m, c)]. *)
Lemma py_range_split a m c : (a <= m <= c)%Z -> py_range a c = py_range a m ++ py_range m c.
Proof.
  intros Hm. unfold py_range.
  replace (Z.to_nat (c - a)) with (Z.to_nat (m - a) + Z.to_nat (c - m)) by lia.
  rewrite seq_app, map_app. simpl. rewrite (map_seq_shift a (Z.to_nat (m - a))). f_equal.
  apply map_ext. intros i. lia.
Qed.

Lemma py_range_empty a c : (c <= a)%Z -> py_range a c = [].
Proof. intros H. unfold py_range. by replace (Z.to_nat (c - a)) with 0 by lia. Qed.

Lemma py_range_cons a c : (a < c)%Z -> py_range a c = a :: py_range (a + 1) c.
Proof.
  intros H. rewrite (py_range_split a (a + 1) c) by lia.
  unfold py_range at 1. replace (Z.to_nat (a + 1 - a)) with 1 by lia. simpl. by rewrite Z.add_0_r.
Qed.

Lemma length_py_range a c : length (py_range a c) = Z.to_nat (c - a).
Proof. unfold py_range. by rewrite length_map, length_seq. Qed.

(** The first step of [range(a, c, step)]. *)
Lemma py_range_step_cons a c bs :
  (0 < bs)%Z -> (a < c)%Z -> py_range_step a c bs = a :: py_range_step (a + bs) c bs.
Proof.
  intros Hbs Hac. unfold py_range_step.
  assert (Hq : ((c - a + bs - 1) / bs = (c - (a + bs) + bs - 1) / bs + 1)%Z).
  { replace (c - a + bs - 1)%Z with ((c - (a + bs) + bs - 1) + 1 * bs)%Z by lia.
    rewrite Z.div_add by lia. lia. }
  assert (Hpos : (0 <= (c - (a + bs) + bs - 1) / bs)%Z) by (apply Z.div_pos; lia).
  rewrite Hq. replace (Z.to_nat ((c - (a + bs) + bs - 1) / bs + 1))
    with (S (Z.to_nat ((c - (a + bs) + bs - 1) / bs))) by lia.
  simpl. f_equal; [lia|]. rewrite <- seq_shift, map_map. apply map_ext. intros i. lia.
Qed.

Lemma py_range_step_nil a c bs : (0 < bs)%Z -> (c <= a)%Z -> py_range_step a c bs = [].
Proof.
  intros Hbs Hca. unfold py_range_step.
  assert (((c - a + bs - 1) / bs < 1)%Z).
  { apply Z.div_lt_upper_bound; lia. }
  by replace (Z.to_nat ((c - a + bs - 1) / bs)) with 0 by lia.
Qed.

Lemma chunks_cons a b bs :
  (0 < bs)%Z -> (a <= b)%Z ->
  chunks a b bs = (a, Z.min (a + bs - 1) b) :: chunks (a + bs) b bs.
Proof. intros. unfold chunks. by rewrite py_range_step_cons by lia. Qed.

Lemma chunks_nil a b bs : (0 < bs)%Z -> (b < a)%Z -> chunks a b bs = [].
Proof. intros. unfold chunks. by rewrite py_range_step_nil by lia. Qed.

(** Induction over the chunks of [a .. b]. *)
Lemma chunks_ind (bs : Z) (P : Z -> Prop) :
  (0 < bs)%Z ->
  forall b : Z,
  (forall a, (b < a)%Z -> P a) ->
  (forall a, (a <= b)%Z -> P (a + bs)%Z -> P a) ->
  forall a, P a.
Proof.
  intros Hbs b Hnil Hcons.
  assert (Hn : forall n a, (Z.to_nat (b + 1 - a) <= n)%nat -> P a).
  { induction n as [|n IH]; intros a Ha.
    - apply Hnil. lia.
    - destruct (Z_lt_le_dec b a); [by apply Hnil|].
      apply Hcons; [done|]. apply IH. lia. }
  intros a. by apply (Hn (Z.to_nat (b + 1 - a))).
Qed.

(** C25: the chunks of [main] cover [range(start, end + 1)] exactly, in
    order and without overlap, for every positive [batch_size]. *)
Theorem chunks_partition (start end_ bs : Z) :
  (0 < bs)%Z -> concat (map chunk_ids (chunks start end_ bs)) = py_range start (end_ + 1).
Proof.
  intros Hbs. revert start.
  apply (chunks_ind bs (fun a => concat (map chunk_ids (chunks a end_ bs)) = py_range a (end_ + 1)) Hbs end_);
    intros a Hab.
  - rewrite chunks_nil, py_range_empty by lia. done.
  - intros IH. rewrite chunks_cons by lia. simpl. rewrite IH. unfold chunk_ids. simpl.
    destruct (Z.min_spec (a + bs - 1) end_) as [[Hlt ->]|[Hge ->]].
    + replace (a + bs - 1 + 1)%Z with (a + bs)%Z by lia.
      symmetry. apply py_range_split. lia.
    + rewrite (py_range_empty (a + bs)) by lia. by rewrite app_nil_r.
Qed.

(** C26: every chunk is a non-empty range of at most [batch_size] ids. *)
Theorem chunks_bounded (start end_ bs : Z) (c : Z * Z) :
  (0 < bs)%Z -> c ∈ chunks start end_ bs ->
  (0 < length (chunk_ids c) <= Z.to_nat bs)%nat.
Proof.
  intros Hbs. revert start.
  apply (chunks_ind bs (fun a => c ∈ chunks a end_ bs -> (0 < length (chunk_ids c) <= Z.to_nat bs)%nat) Hbs end_);
    intros a Hab.
  - rewrite chunks_nil by lia. by intros ?%elem_of_nil.
  - intros IH. rewrite chunks_cons by lia. intros [->|Hin]%elem_of_cons; [|by apply IH].
    unfold chunk_ids. rewrite length_py_range. simpl. lia.
Qed.

Section Rerun.
Context `{Network} `{XmlLib}.

(** Workers whose ids are all in the dict only print that their file
    exists, one after the other. *)
Lemma gather_skips (ids : list Z) (w : world) :
  (forall id, id ∈ ids -> is_Some (w_idx w !! py_str_Z id)) ->
  gather_seq (map fetch ids) w = (Ok (), foldl (fun w id => add_event (EvSkip id) w) w ids).
Proof.
  revert w. induction ids as [|id ids IH]; intros w Hin; [done|].
  destruct (Hin id (proj2 (elem_of_cons _ _ _) (or_introl eq_refl))) as [fn Hfn]. simpl.
  unfold fetch. rewrite fetch_user_data_eq. unfold fetch_body, mbind, M_bind.
  cbn [get_idx M_get_idx]. simpl. rewrite Hfn. simpl. apply IH.
  intros id' Hid'. apply Hin. by apply elem_of_cons; right.
Qed.

(** C22: the skip check makes a new run idempotent on what an earlier run
    saved: when the process starts again (the dict empty, as line 21
    creates it) in a directory holding a result file for every id of a
    chunk, the scan of [main] files each under [str(id)] and
    [process_users] only prints, id after id, that the file exists: no
    request, no permit. *)
Theorem rerun_skips_saved (w : world) (listing : list string) (s e : Z) :
  w_idx w = ∅ -> (forall fn, fn ∈ listing <-> is_Some (w_fs w !! fn)) ->
  (forall id, id ∈ py_range s (e + 1) -> exists m, is_Some (w_fs w !! result_filename id m)) ->
  exists w1, load_existing_files listing w = (Ok (), w1) /\
    process_users s e w1 =
      (Ok (), foldl (fun w id => add_event (EvSkip id) w) w1 (py_range s (e + 1))).
Proof.
  intros Hempty Hl Hs. eexists; split; [reflexivity|]. apply gather_skips.
  intros id Hid. destruct (Hs id Hid) as [m Hm]. simpl. rewrite Hempty.
  apply (load_dict_complete listing ∅ (result_filename id m)); [by apply Hl|apply result_filename_key].
Qed.
End Rerun.

Lemma chunks_partition_witness :
  concat (map chunk_ids (chunks 0 2500 1000)) = py_range 0 (2500 + 1).
Proof. apply chunks_partition. lia. Defined.

Lemma chunks_bounded_witness :
  (0 < length (chunk_ids (2000, 2500)%Z) <= Z.to_nat 1000)%nat.
Proof. apply (chunks_bounded 0 2500 1000); [lia | vm_compute; right; right; left]. Defined.

Definition rerun_dir : gmap string string :=
  {[ result_filename 5 "777" := demo_body; result_filename 6 "778" := demo_body ]}.

Lemma rerun_skips_saved_witness :
  exists w1,
    load_existing_files [result_filename 5 "777"; result_filename 6 "778"]
      (mkWorld rerun_dir ∅ 3 []) = (Ok (), w1) /\
    @process_users net_down demo_xml 5 6 w1 =
      (Ok (), foldl (fun w id => add_event (EvSkip id) w) w1 (py_range 5 (6 + 1))).
Proof.
  apply (@rerun_skips_saved net_down demo_xml (mkWorld rerun_dir ∅ 3 []) _ 5 6); [reflexivity| |].
  - intros fn. unfold rerun_dir. simpl.
    rewrite elem_of_cons, list_elem_of_singleton, lookup_insert_is_Some', lookup_singleton_is_Some.
    naive_solver.
  - intros id Hid. vm_compute in Hid.
    apply elem_of_cons in Hid as [->|Hid]; [exists "777"|apply list_elem_of_singleton in Hid as ->; exists "778"];
      vm_compute; eauto.
Defined.

End Batch.
