(* ===== verification/Entry.v ===== *)
(** * Entry: the process (grab_mayhemids.py, lines 19-20, 137-143)

    A fresh process starts with [semaphore = None] and
    [existing_files_dict = {}] (lines 19-20), runs [asyncio.run(main())]
    and, when [main] returns, prints the elapsed time (line 143); an
    exception of [main] ends the process with a traceback and no print.
    The time itself is not modelled: the last print is [EvElapsed].

    [script_rerun_quiet] is the idempotence the design relies on, end to
    end: a process started in a directory that already holds a result file
    for every id of the range prints exactly the chunk and skip messages,
    makes no request at all, leaves the directory as it was, and
    finishes.  [script_first_run_saves] is the
    other end: a first run against a server that answers every id with a
    valid body saves every id of the range.  Both go through the
    sequential gather of [Batch]; their conclusions do not depend on the
    schedule (the skip path never awaits, and every worker of a first run
    writes its own file and its own key). *)

From Stdlib Require Import ZArith Lia String.
From stdpp Require Import base list gmap strings.
From S2P Require Import Prelude PyStr Runtime ResultIndex Fetch Batch.
Import PyStr Runtime ResultIndex Fetch Batch.

Module Entry.

(** The globals of lines 19-20 over the directory [fs]: no permit (the
    semaphore does not exist before [main]), an empty dict, nothing
    printed. *)
Definition fresh_world (fs : gmap string string) : world := mkWorld fs ∅ 0 [].

Section Script.
Context `{Network} `{XmlLib}.

(** Lines 137-143 with the constants of [main] as parameters. *)
Definition script_with (start end_ bs : Z) (listing : list string) (fs : gmap string string)
  : res unit * world :=
  match main_with start end_ bs listing (fresh_world fs) with
  | (Ok _, w) => (Ok (), add_event EvElapsed w)
  | r => r
  end.

Definition script (listing : list string) (fs : gmap string string) : res unit * world :=
  script_with START_ID END_ID batch_size listing fs.
End Script.

(** ** Ranges and chunks *)

Lemma elem_of_py_range (id a c : Z) : id ∈ py_range a c <-> (a <= id < c)%Z.
Proof.
  unfold py_range. rewrite list_elem_of_fmap. setoid_rewrite elem_of_seq. split.
  - intros (i & -> & Hi). lia.
  - intros Hid. exists (Z.to_nat (id - a)). split; lia.
Qed.

(** Every id of every chunk of [main] lies in [start .. end_]. *)
Lemma chunk_ids_within (start end_ bs id : Z) (c : Z * Z) :
  (0 < bs)%Z -> c ∈ chunks start end_ bs -> id ∈ chunk_ids c -> (start <= id <= end_)%Z.
Proof.
  intros Hbs. revert start.
  apply (chunks_ind bs (fun a => c ∈ chunks a end_ bs -> id ∈ chunk_ids c -> (a <= id <= end_)%Z)
           Hbs end_); intros a Hab.
  - rewrite chunks_nil by lia. by intros ?%elem_of_nil.
  - intros IH. rewrite chunks_cons by lia. intros [->|Hin]%elem_of_cons Hid.
    + unfold chunk_ids in Hid. simpl in Hid. apply elem_of_py_range in Hid. lia.
    + specialize (IH Hin Hid). lia.
Qed.

(** The skip messages of a chunk whose ids are all in the dict. *)
Lemma foldl_skips (ids : list Z) (w : world) :
  foldl (fun w id => add_event (EvSkip id) w) w ids =
  mkWorld (w_fs w) (w_idx w) (w_sem w) (w_log w ++ map EvSkip ids).
Proof.
  revert w. induction ids as [|id ids IH]; intros w; simpl; [destruct w; simpl; by rewrite app_nil_r|].
  rewrite IH. simpl. by rewrite <- app_assoc.
Qed.

(** What [main] prints over chunks whose ids are all saved: for each
    chunk the message of line 133, one "already exists" message per id
    (line 39) and the message of line 135. *)
Definition skip_log (cs : list (Z * Z)) : list event :=
  flat_map (fun c => EvProcessing c.1 c.2 :: map EvSkip (chunk_ids c) ++ [EvFinished c.1 c.2]) cs.

(** The id [id] is saved with the body [content id], filed under the
    mayhem id [mid id]: its file exists and the dict names it. *)
Definition saved (content mid : Z -> string) (w : world) (id : Z) : Prop :=
  w_idx w !! py_str_Z id = Some (result_filename id (mid id)) /\
  w_fs w !! result_filename id (mid id) = Some (content id).

(** Every id of [start .. end_] lies in a chunk of [main]. *)
Lemma chunks_cover (start end_ bs id : Z) :
  (0 < bs)%Z -> (start <= id <= end_)%Z -> exists c, c ∈ chunks start end_ bs /\ id ∈ chunk_ids c.
Proof.
  intros Hbs. revert start.
  apply (chunks_ind bs (fun a => (a <= id <= end_)%Z -> exists c, c ∈ chunks a end_ bs /\ id ∈ chunk_ids c)
           Hbs end_); intros a Hab; [lia|].
  intros IH Hid. rewrite chunks_cons by lia.
  destruct (Z.le_gt_cases id (Z.min (a + bs - 1) end_)) as [Hle|Hgt].
  - eexists. split; [by left|]. unfold chunk_ids. simpl. apply elem_of_py_range. lia.
  - destruct IH as (c & Hc & Hin); [lia|]. exists c. split; [by right|done].
Qed.

Lemma py_str_Z_inj (a b : Z) : py_str_Z a = py_str_Z b -> a = b.
Proof. intros Heq. apply (inj Some). by rewrite <- (py_int_str a), <- (py_int_str b), Heq. Qed.

Lemma result_filename_inj (id id' : Z) (m m' : string) :
  result_filename id m = result_filename id' m' -> id = id'.
Proof.
  intros Heq. apply py_str_Z_inj, (inj Some).
  by rewrite <- (result_filename_key id m), <- (result_filename_key id' m'), Heq.
Qed.

Lemma saved_add_event content mid e w id : saved content mid w id -> saved content mid (add_event e w) id.
Proof. by destruct w. Qed.

(** A save of another id keeps [id] saved. *)
Lemma saved_insert content mid w id id' m c s l :
  id' <> id -> saved content mid w id' ->
  saved content mid (mkWorld (<[result_filename id m := c]> (w_fs w))
                             (<[py_str_Z id := result_filename id m]> (w_idx w)) s l) id'.
Proof.
  intros Hne [Hi Hf]. split; simpl.
  - rewrite lookup_insert_ne; [done|]. intros ?%py_str_Z_inj. congruence.
  - rewrite lookup_insert_ne; [done|]. intros ?%result_filename_inj. congruence.
Qed.

#[local] Hint Resolve saved_add_event saved_insert : mayhem.

Section Skips.
Context `{Network} `{XmlLib}.

(** [main]'s loop over chunks whose ids are all in the dict: the skip
    messages only, the directory, the dict and the permits unchanged. *)
Lemma run_chunks_skips (cs : list (Z * Z)) (w : world) :
  (forall c id, c ∈ cs -> id ∈ chunk_ids c -> is_Some (w_idx w !! py_str_Z id)) ->
  run_chunks cs w = (Ok (), mkWorld (w_fs w) (w_idx w) (w_sem w) (w_log w ++ skip_log cs)).
Proof.
  revert w. induction cs as [|[s e] cs IH]; intros w Hin.
  - rewrite app_nil_r. by destruct w.
  - set (w1 := add_event (EvProcessing s e) w).
    set (w2 := mkWorld (w_fs w) (w_idx w) (w_sem w)
                 (w_log w ++ EvProcessing s e :: map EvSkip (chunk_ids (s, e)))).
    assert (Hp : process_users s e w1 = (Ok (), w2)).
    { unfold process_users. rewrite gather_skips; [rewrite foldl_skips; simpl; by rewrite <- app_assoc|].
      intros id Hid. apply (Hin (s, e)); [by left|done]. }
    cbn [run_chunks]. rewrite (M_bind_ok _ _ _ tt w1) by reflexivity.
    rewrite (M_bind_ok _ _ _ tt w2 Hp). rewrite (M_bind_ok _ _ _ tt (add_event (EvFinished s e) w2)) by reflexivity.
    rewrite IH; [|intros c id Hc; apply (Hin c); by right].
    simpl. by rewrite <- !app_assoc.
Qed.

(** C23: a rerun of the whole program is quiet: a fresh process started in
    a directory that holds a result file for every id of
    [start .. end_] scans it, then for each chunk prints the processing
    message, one "already exists" message per id in order and the
    finished message, makes no HTTP request, leaves the directory as it
    was and prints the elapsed time last.  [script] is the instance with
    the constants of the code. *)
Theorem script_rerun_quiet (start end_ bs : Z) (listing : list string) (fs : gmap string string) :
  (0 < bs)%Z -> (forall fn, fn ∈ listing <-> is_Some (fs !! fn)) ->
  (forall id, (start <= id <= end_)%Z -> exists m, is_Some (fs !! result_filename id m)) ->
  script_with start end_ bs listing fs =
    (Ok (), mkWorld fs (load_existing_files_dict listing ∅) MAX_CONCURRENT_REQUESTS
              (skip_log (chunks start end_ bs) ++ [EvElapsed])).
Proof.
  intros Hbs Hl Hfs.
  set (w0 := set_idx (load_existing_files_dict listing ∅) (set_sem MAX_CONCURRENT_REQUESTS (fresh_world fs))).
  unfold script_with, main_with.
  rewrite (M_bind_ok _ _ _ tt (set_sem MAX_CONCURRENT_REQUESTS (fresh_world fs))) by reflexivity.
  rewrite (M_bind_ok _ _ _ tt w0) by reflexivity. rewrite run_chunks_skips; [done|].
  intros c id Hc Hid. destruct (Hfs id (chunk_ids_within start end_ bs id c Hbs Hc Hid)) as [m Hm].
  apply (load_dict_complete listing ∅ (result_filename id m)); [by apply Hl|apply result_filename_key].
Qed.
End Skips.

Section Worker.
Context `{Network} `{XmlLib}.

(** The worker on an id already in the dict: only the skip message. *)
Lemma fetch_skips (id : Z) (fn : string) (w : world) :
  w_idx w !! py_str_Z id = Some fn -> fetch (m:=M) id w = (Ok (), add_event (EvSkip id) w).
Proof.
  intros Hfn. unfold fetch. rewrite fetch_user_data_eq. unfold fetch_body, mbind, M_bind.
  cbn [get_idx M_get_idx]. simpl. by rewrite Hfn.
Qed.

(** The worker on a new id whose every request gets a valid body. *)
Lemma fetch_saves (id : Z) (r : nat) (w : world) (n : nat) (c m : string) (root : element) :
  w_idx w !! py_str_Z id = None -> w_sem w = S n ->
  (forall k, respond (user_url id) k = GetOk (Response 200 (inr c))) ->
  fromstring c = inr root -> tag_of root = "Resources"%string -> extract_mayhem_id root = inr m ->
  fetch_user_data (m:=M) id r w =
    (Ok (), mkWorld (<[result_filename id m := c]> (w_fs w))
                    (<[py_str_Z id := result_filename id m]> (w_idx w)) (S n)
                    (w_log w ++ [EvRequest (user_url id); EvSaved (result_filename id m); EvSleep 1%Z])).
Proof.
  intros Hidx Hsem Hr Hp Ht Hm. enter_worker Hidx Hsem. rewrite Hr. cbn.
  unfold save_resources. rewrite Hp, bool_decide_eq_true_2, Hm by done.
  unfold write_file, M_write_file, dict_set, M_dict_set. run_m. by rewrite <- !app_assoc.
Qed.
End Worker.

Section FirstRun.
Context `{Network} `{XmlLib}.
Variables (start end_ : Z) (content mid : Z -> string).
Hypothesis Hnet : forall id k, (start <= id <= end_)%Z ->
  respond (user_url id) k = GetOk (Response 200 (inr (content id))).
Hypothesis Hxml : forall id, (start <= id <= end_)%Z ->
  exists root, fromstring (content id) = inr root /\ tag_of root = "Resources"%string /\
               extract_mayhem_id root = inr (mid id).

(** All permits free, and each id of the range either not yet in the dict
    or saved. *)
Definition fresh_or_saved (w : world) : Prop :=
  w_sem w = MAX_CONCURRENT_REQUESTS /\
  forall id, (start <= id <= end_)%Z -> w_idx w !! py_str_Z id = None \/ saved content mid w id.

Lemma fresh_or_saved_add_event e w : fresh_or_saved w -> fresh_or_saved (add_event e w).
Proof. destruct w. intros [Hs Hi]. split; [done|]. intros id Hid. destruct (Hi id Hid); eauto with mayhem. Qed.

Lemma fetch_first_run (id : Z) (w : world) :
  (start <= id <= end_)%Z -> fresh_or_saved w ->
  exists w', fetch (m:=M) id w = (Ok (), w') /\ fresh_or_saved w' /\ saved content mid w' id /\
    forall id', saved content mid w id' -> saved content mid w' id'.
Proof using Hnet Hxml.
  intros Hid [Hsem Hinv]. destruct (Hinv id Hid) as [Hn|Hs].
  - destruct (Hxml id Hid) as (root & Hp & Ht & Hm).
    unfold fetch. rewrite (fetch_saves id MAX_RETRIES w 24999 (content id) (mid id) root Hn Hsem
                            (fun k => Hnet id k Hid) Hp Ht Hm).
    eexists. split; [reflexivity|].
    assert (Hnew : saved content mid (mkWorld (<[result_filename id (mid id) := content id]> (w_fs w))
                     (<[py_str_Z id := result_filename id (mid id)]> (w_idx w)) 25000
                     (w_log w ++ [EvRequest (user_url id); EvSaved (result_filename id (mid id)); EvSleep 1%Z])) id).
    { split; simpl; by rewrite lookup_insert_eq. }
    split_and!; [split; [done|]| |].
    + intros id' Hid'. destruct (decide (id' = id)) as [->|Hne]; [by right|].
      destruct (Hinv id' Hid') as [Hn'|Hs']; [left|right; by apply saved_insert].
      simpl. rewrite lookup_insert_ne; [done|]. intros ?%py_str_Z_inj. congruence.
    + done.
    + intros id' Hs'. apply saved_insert; [|done]. intros ->. destruct Hs' as [Hi _]. congruence.
  - destruct Hs as [Hi Hf]. exists (add_event (EvSkip id) w). split; [by eapply fetch_skips|].
    split_and!; [by apply fresh_or_saved_add_event|by apply saved_add_event|eauto with mayhem].
Qed.

Lemma gather_first_run (ids : list Z) (w : world) :
  Forall (fun id => start <= id <= end_)%Z ids -> fresh_or_saved w ->
  exists w', gather_seq (map fetch ids) w = (Ok (), w') /\ fresh_or_saved w' /\
    (forall id, id ∈ ids -> saved content mid w' id) /\
    forall id, saved content mid w id -> saved content mid w' id.
Proof using Hnet Hxml.
  revert w. induction ids as [|id ids IH]; intros w Hall Hw.
  - exists w. split_and!; [done|done|by intros ? ?%elem_of_nil|done].
  - apply Forall_cons in Hall as [Hid Hall].
    destruct (fetch_first_run id w Hid Hw) as (w1 & Hf & Hw1 & Hs1 & Hm1).
    destruct (IH w1 Hall Hw1) as (w2 & Hg & Hw2 & Hs2 & Hm2).
    exists w2. split_and!; [simpl; by rewrite (M_bind_ok _ _ _ tt w1 Hf)|done| |auto].
    intros id' [->|Hin]%elem_of_cons; auto.
Qed.

Lemma run_chunks_first_run (cs : list (Z * Z)) (w : world) :
  (forall c id, c ∈ cs -> id ∈ chunk_ids c -> (start <= id <= end_)%Z) -> fresh_or_saved w ->
  exists w', run_chunks cs w = (Ok (), w') /\ fresh_or_saved w' /\
    (forall c id, c ∈ cs -> id ∈ chunk_ids c -> saved content mid w' id) /\
    forall id, saved content mid w id -> saved content mid w' id.
Proof using Hnet Hxml.
  revert w. induction cs as [|[s e] cs IH]; intros w Hin Hw.
  - exists w. split_and!; [done|done|by intros ? ? ?%elem_of_nil|done].
  - destruct (gather_first_run (chunk_ids (s, e)) (add_event (EvProcessing s e) w)) as (w1 & Hg & Hw1 & Hs1 & Hm1).
    { apply Forall_forall. intros id. apply (Hin (s, e)). by left. }
    { by apply fresh_or_saved_add_event. }
    destruct (IH (add_event (EvFinished s e) w1)) as (w2 & Hr & Hw2 & Hs2 & Hm2).
    { intros c id Hc. apply (Hin c). by right. }
    { by apply fresh_or_saved_add_event. }
    exists w2. split_and!; [|done| |eauto with mayhem].
    + cbn [run_chunks]. rewrite (M_bind_ok _ _ _ tt (add_event (EvProcessing s e) w)) by reflexivity.
      rewrite (M_bind_ok _ _ _ tt w1 Hg). by rewrite (M_bind_ok _ _ _ tt (add_event (EvFinished s e) w1)).
    + intros c id [->|Hc]%elem_of_cons Hid; [|by apply (Hs2 c)].
      apply Hm2, saved_add_event, Hs1, Hid.
Qed.
End FirstRun.

(** C24: a first run saves everything: a fresh process whose scan finds no
    file for any id of [start .. end_], against a server that answers
    every request for such an id with a [200] whose body parses to a
    [Resources] root with a URI, ends normally, prints the elapsed time
    last, and leaves for every id of the range its file, holding the body
    the server sent, named after the mayhem id of that body and recorded
    in [existing_files_dict] under [str(id)]. *)
Theorem script_first_run_saves (start end_ bs : Z) (listing : list string) (fs : gmap string string)
    (content mid : Z -> string) `{Network} `{XmlLib} :
  (0 < bs)%Z ->
  (forall id k, (start <= id <= end_)%Z -> respond (user_url id) k = GetOk (Response 200 (inr (content id)))) ->
  (forall id, (start <= id <= end_)%Z ->
     exists root, fromstring (content id) = inr root /\ tag_of root = "Resources"%string /\
                  extract_mayhem_id root = inr (mid id)) ->
  (forall id, (start <= id <= end_)%Z -> load_existing_files_dict listing ∅ !! py_str_Z id = None) ->
  exists w, script_with start end_ bs listing fs = (Ok (), w) /\ last (w_log w) = Some EvElapsed /\
    forall id, (start <= id <= end_)%Z -> saved content mid w id.
Proof.
  intros Hbs Hnet Hxml Hnew.
  set (w0 := set_idx (load_existing_files_dict listing ∅) (set_sem MAX_CONCURRENT_REQUESTS (fresh_world fs))).
  destruct (run_chunks_first_run start end_ content mid Hnet Hxml (chunks start end_ bs) w0)
    as (w & Hr & _ & Hs & _).
  { intros c id Hc Hid. exact (chunk_ids_within start end_ bs id c Hbs Hc Hid). }
  { split; [done|]. intros id Hid. left. by apply Hnew. }
  exists (add_event EvElapsed w). split_and!.
  - unfold script_with, main_with.
    rewrite (M_bind_ok _ _ _ tt (set_sem MAX_CONCURRENT_REQUESTS (fresh_world fs))) by reflexivity.
    rewrite (M_bind_ok _ _ _ tt w0) by reflexivity. by rewrite Hr.
  - apply last_snoc.
  - intros id Hid. destruct (chunks_cover start end_ bs id Hbs Hid) as (c & Hc & Hin).
    apply saved_add_event, (Hs c id Hc Hin).
Qed.

Definition rerun_fs : gmap string string :=
  {[ result_filename 9816000000 "777" := demo_body ]}.

Lemma script_rerun_quiet_witness :
  @script net_down demo_xml [result_filename 9816000000 "777"] rerun_fs =
    (Ok (), mkWorld rerun_fs (load_existing_files_dict [result_filename 9816000000 "777"] ∅)
              MAX_CONCURRENT_REQUESTS (skip_log (chunks START_ID END_ID batch_size) ++ [EvElapsed])).
Proof.
  apply (@script_rerun_quiet net_down demo_xml START_ID END_ID batch_size); [done| |].
  - intros fn. unfold rerun_fs. rewrite list_elem_of_singleton, lookup_singleton_is_Some. naive_solver.
  - intros id Hid. unfold START_ID, END_ID in Hid. replace id with 9816000000%Z by lia.
    exists "777". unfold rerun_fs. by rewrite lookup_singleton.
Defined.

Lemma script_first_run_saves_witness :
  exists w, @script_with (net_body demo_body) demo_xml 5 6 1000 [] ∅ = (Ok (), w) /\
    last (w_log w) = Some EvElapsed /\
    forall id, (5 <= id <= 6)%Z -> saved (fun _ => demo_body) (fun _ => "777"%string) w id.
Proof.
  apply (script_first_run_saves 5 6 1000 [] ∅ (fun _ => demo_body) (fun _ => "777"%string)); [lia|intros; reflexivity| |].
  - intros id Hid. exists (Element "Resources" None [Element "URI" (Some demo_uri) []]).
    split_and!; reflexivity.
  - intros id Hid. apply lookup_empty.
Defined.

End Entry.
