(* ===== verification/Gather.v ===== *)
(** * Gather: the tasks of one chunk under the asyncio event loop

    [process_users] (grab_mayhemids.py, lines 113-120) creates one
    [fetch_user_data] task per id of a chunk and awaits [asyncio.gather]
    over them.  The tasks are the worker of [Fetch] in the coroutine
    instance [Coroutine.co]; a configuration is the list of tasks and the
    shared world, and [gstep] resumes any task that can run, to its next
    suspension.  Which task the loop resumes depends on timers and on the
    network, so every choice is a step: the relation over-approximates the
    schedules asyncio can produce.  The schedule built in the proof of
    [chunk_deadlock] runs the workers one after the other, each taking
    as many permits as its retries allow until none is free, then parks
    every worker on the semaphore; it is a schedule of [gstep], not the one
    asyncio's FIFO ready queue follows.  Under an outage where every
    request fails at once the real loop advances the workers in lockstep
    instead, and reaches the same kind of state: each worker holding the
    permits of its failed attempts while it waits for one more.  That
    lockstep schedule is not constructed here.

    The file follows a worker through its failed attempts: [asleep]
    describes a task about to (re)start [fetch_user_data] inside the
    frames of its earlier attempts, [asleep_cycle] is one failed attempt
    (one more permit held), [asleep_block] is the wait at
    [async with semaphore] once no permit is free.  [chunk_deadlock]
    assembles them: with the constants of the code, an outage deadlocks a
    chunk.  Conversely every resumption consumes part of the task it
    resumes ([Coroutine.resume_below]), so no schedule is infinite
    ([gstep_smaller]), and with enough permits no reachable configuration
    is stuck and every task holds at most [r + 1] permits
    ([workers_never_stuck]). *)

From Stdlib Require Import ZArith Lia String.
From stdpp Require Import base list gmap strings.
From S2P Require Import Prelude PyStr Runtime ResultIndex Fetch Coroutine Batch.
Import PyStr Runtime ResultIndex Fetch Coroutine Batch.

Module Gather.

(** The worker as a task, against the server [N] and the parser [X]. *)
Abbreviation task_on N X id r :=
  (Fetch.fetch_user_data (m:=co) (hg:=co_http_get (N:=N)) (X:=X) id r).

(** Unfold the effects of the coroutine instance. *)
Ltac unfold_co :=
  unfold fetch_body, mbind, co_mbind, mret, co_ret, mthrow, co_throw, try_except,
    co_try_except, print, co_print, sleep, co_sleep, get_idx, co_get_idx, dict_set,
    co_dict_set, write_file, co_write_file, with_semaphore, co_with_semaphore,
    http_get, co_http_get, co_finally.

Section Cycle.
Context {N : Network} {X : XmlLib}.

(** The context a slice stops in, read off the term: [E] such that the
    task is [CAwait (E K)], [K] the retry it is about to run. *)
Ltac exists_ctx K :=
  lazymatch goal with
  | |- exists E w2, (CAwait ?T, ?W) = _ /\ _ =>
      let G := eval pattern K at 1 in T in
      lazymatch G with ?F _ => exists F, W end
  end;
  split; [reflexivity|]; split_and!; [unfold mbind, co_mbind; transparent_tac|done..].

Lemma worker_cycle id r K w n :
  w_idx w !! py_str_Z id = None -> w_sem w = S n ->
  retryable (respond (user_url id) (requests_to (user_url id) (w_log w))) = true ->
  exists t1 w1,
    run_slice (fetch_body (m:=co) id (S r) (Some K)) w = (CAwait t1, w1) /\
    exists E w2, run_slice t1 w1 = (CAwait (E K), w2) /\
      transparent E /\ w_sem w2 = n /\ w_idx w2 = w_idx w /\ w_fs w2 = w_fs w.
Proof.
  intros Hidx Hsem Hg.
  unfold_co. simpl. rewrite Hidx. simpl. rewrite Hsem. simpl.
  eexists _, _. split; [reflexivity|].
  cbn. destruct (respond _ _) as [e|[st tx]]; simpl in Hg |- *.
  - destruct e; try discriminate; cbn; exists_ctx K.
  - destruct (Z.eqb_spec st 200) as [->|Hst]; cbn.
    + destruct tx as [[]|]; simpl in Hg; try discriminate; cbn; exists_ctx K.
    + rewrite Hg. cbn. exists_ctx K.
Qed.
(** With no permit free, the worker stops at its [async with semaphore]
    and the world is unchanged. *)
Lemma worker_block id r w :
  w_idx w !! py_str_Z id = None -> w_sem w = 0 ->
  exists k, run_slice (fetch_user_data (m:=co) id r) w = (CAcquire k, w).
Proof.
  intros Hidx Hsem. rewrite fetch_user_data_eq. unfold_co. simpl.
  rewrite Hidx. simpl. rewrite Hsem. by eexists.
Qed.

(** A worker about to (re)start [fetch_user_data] with [r] retries left:
    fresh, or sleeping before a retry, inside the frames of its earlier
    attempts. *)
Definition asleep (id : Z) (r : nat) (t : co unit) : Prop :=
  exists E, transparent E /\
    forall w, resume t w = Some (run_slice (E (fetch_user_data (m:=co) id r)) w).

Lemma asleep_fresh id r : asleep id r (fetch_user_data (m:=co) id r).
Proof.
  exists (fun t => t). split; [apply transparent_id|].
  intros w. by rewrite fetch_user_data_eq.
Qed.

(** One failed attempt: two resumptions, one permit more held. *)
Lemma asleep_cycle id r t w n :
  asleep id (S r) t -> w_idx w !! py_str_Z id = None -> w_sem w = S n ->
  retryable (respond (user_url id) (requests_to (user_url id) (w_log w))) = true ->
  exists t1 w1 t2 w2,
    resume t w = Some (t1, w1) /\ resume t1 w1 = Some (t2, w2) /\ asleep id r t2 /\
    w_sem w2 = n /\ w_idx w2 = w_idx w /\ w_fs w2 = w_fs w.
Proof.
  intros (E & HE & Hres) Hidx Hsem Hg.
  destruct (worker_cycle id r (fetch_user_data (m:=co) id r) w n Hidx Hsem Hg)
    as (t1 & w1 & H1 & E' & w2 & H2 & HE' & Hs & Hi & Hf).
  pose proof HE as (Ha & _).
  exists (CAwait (E t1)), w1, (CAwait (E (E' (fetch_user_data (m:=co) id r)))), w2.
  split_and!; [| |exists (fun x => E (E' x)); split| | |]; try done.
  - rewrite Hres, fetch_user_data_eq, (run_slice_ctx E _ w (CAwait t1) w1);
      [by rewrite Ha|done|exact H1|done].
  - simpl. rewrite (run_slice_ctx E t1 w1 (CAwait (E' (fetch_user_data (m:=co) id r))) w2);
      [by rewrite Ha|done|done|done].
  - by apply transparent_compose.
Qed.

(** With no permit free, a worker about to start waits on the semaphore. *)
Lemma asleep_block id r t w :
  asleep id r t -> w_idx w !! py_str_Z id = None -> w_sem w = 0 ->
  exists k, resume t w = Some (CAcquire k, w).
Proof.
  intros (E & HE & Hres) Hidx Hsem. pose proof HE as (_ & Hq & _).
  destruct (worker_block id r w Hidx Hsem) as [k Hk].
  exists (E k). rewrite Hres, (run_slice_ctx E _ w (CAcquire k) w); [by rewrite Hq|done|done|done].
Qed.
End Cycle.

(** ** The event loop running one chunk

    A configuration of [await asyncio.gather( *tasks)]: the tasks, in the
    order [process_users] creates them, and the world they share.  The
    loop resumes any task that can run; which one it picks depends on the
    timers and on the network, so every choice is a step. *)
Definition conf : Type := list (co unit) * world.

Inductive gstep : relation conf :=
  | gstep_resume ts w i t t' w' :
      ts !! i = Some t -> resume t w = Some (t', w') ->
      gstep (ts, w) (<[i := t']> ts, w').

(** The tasks of [process_users(start_id, end_id)] (lines 115-118). *)
Definition chunk_tasks `{Network} `{XmlLib} (start_id end_id : Z) : list (co unit) :=
  map (fun applicationUserId => fetch (m:=co) applicationUserId)
      (py_range start_id (end_id + 1)).

(** A task waiting for a permit. *)
Definition waiting (t : co unit) : bool := match t with CAcquire _ => true | _ => false end.

(** Every task waits for a permit and none is free: no task can ever run
    again and [gather] never returns. *)
Definition deadlocked (c : conf) : Prop :=
  c.1 <> [] /\ w_sem c.2 = 0 /\ Forall (fun t => waiting t = true) c.1.

Lemma deadlocked_stuck c c' : deadlocked c -> ~ gstep c c'.
Proof.
  intros (_ & Hs & Hall) Hst. destruct Hst as [ts w i t t' w' Hi Hr]. simpl in *.
  pose proof (Forall_lookup_1 _ _ _ _ Hall Hi) as Ht.
  destruct t; try discriminate. unfold resume in Hr. by rewrite Hs in Hr.
Qed.

Lemma insert_middle {A} (pre ts : list A) x y :
  <[length pre := y]> (pre ++ x :: ts) = pre ++ y :: ts.
Proof. induction pre as [|z pre IH]; simpl; [done|by rewrite IH]. Qed.

Section Schedule.
Context {N : Network} {X : XmlLib}.

(** A worker whose requests all fail in a retryable way, and whose id is
    not in the dict. *)
Definition failing (w : world) (id : Z) : Prop :=
  w_idx w !! py_str_Z id = None /\ forall k, retryable (respond (user_url id) k) = true.

(** Running one worker for [h] failed attempts takes [h] permits. *)
Lemma drive_one id r h ts i t w :
  ts !! i = Some t -> asleep id (h + r) t -> h <= w_sem w -> failing w id ->
  exists t' w', rtc gstep (ts, w) (<[i := t']> ts, w') /\ asleep id r t' /\
    w_sem w' = w_sem w - h /\ w_idx w' = w_idx w.
Proof.
  revert ts t w. induction h as [|h IH]; intros ts t w Hi Ht Hh [Hidx Hall].
  - exists t, w. rewrite list_insert_id by done. split_and!; [done|done|lia|done].
  - destruct (w_sem w) as [|n] eqn:Hs; [lia|].
    destruct (asleep_cycle id (h + r) t w n Ht Hidx Hs (Hall _))
      as (t1 & w1 & t2 & w2 & H1 & H2 & Ht2 & Hs2 & Hi2 & _).
    assert (Hlt : i < length ts) by (by apply lookup_lt_Some in Hi).
    destruct (IH (<[i := t2]> ts) t2 w2) as (t' & w' & Hrun & Ht' & Hs' & Hi');
      [by rewrite list_lookup_insert_eq|done|lia|split; [by rewrite Hi2|done]|].
    exists t', w'. split_and!; [|done|lia|congruence].
    eapply rtc_l; [by apply (gstep_resume ts w i t t1 w1)|].
    eapply rtc_l; [apply (gstep_resume _ w1 i t1 t2 w2); [|done]|].
    + by rewrite list_lookup_insert_eq.
    + by rewrite list_insert_insert_eq, <- (list_insert_insert_eq ts i t' t2).
Qed.

(** With no permit free, resuming a worker about to start parks it on the
    semaphore. *)
Lemma block_one id r ts i t w :
  ts !! i = Some t -> asleep id r t -> w_sem w = 0 -> w_idx w !! py_str_Z id = None ->
  exists k, gstep (ts, w) (<[i := CAcquire k]> ts, w).
Proof.
  intros Hi Ht Hs Hidx. destruct (asleep_block id r t w Ht Hidx Hs) as [k Hk].
  exists k. by apply (gstep_resume ts w i t).
Qed.

(** Worker after worker, each takes as many permits as it can without
    using up its retries, until none is free. *)
Lemma drive_all r pre ids ts w :
  Forall2 (fun id t => asleep id r t) ids ts -> Forall (failing w) ids ->
  w_sem w <= length ids * r ->
  exists ts' w', rtc gstep (pre ++ ts, w) (pre ++ ts', w') /\ w_sem w' = 0 /\
    w_idx w' = w_idx w /\ Forall2 (fun id t => exists r', asleep id r' t) ids ts'.
Proof.
  intros Hts. revert pre w. induction Hts as [|id t ids ts Ht Hts IH]; intros pre w Hf Hs.
  - exists [], w. simpl in *. split_and!; [done|lia|done|constructor].
  - apply Forall_cons in Hf as [Hid Hf]. set (h := Nat.min r (w_sem w)).
    assert (Ht' : asleep id (h + (r - h)) t) by (by replace (h + (r - h)) with r by lia).
    destruct (drive_one id (r - h) h (pre ++ t :: ts) (length pre) t w) as (t' & w1 & H1 & Ha & Hs1 & Hi1);
      [by apply list_lookup_middle|done|lia|done|].
    rewrite insert_middle in H1.
    destruct (IH (pre ++ [t']) w1) as (ts' & w' & H2 & Hs' & Hi' & Hall).
    { eapply Forall_impl; [done|]. intros id' [Hidx Hr]. split; [by rewrite Hi1|done]. }
    { simpl in Hs. rewrite Hs1. lia. }
    exists (t' :: ts'), w'. rewrite <- !app_assoc in H2. split_and!; [|done|congruence|].
    + by eapply rtc_trans.
    + constructor; [by eexists|done].
Qed.

(** Then each worker, resumed once more, waits for a permit. *)
Lemma block_all pre ids ts w :
  Forall2 (fun id t => exists r, asleep id r t) ids ts -> Forall (failing w) ids -> w_sem w = 0 ->
  exists ts', rtc gstep (pre ++ ts, w) (pre ++ ts', w) /\ length ts' = length ts /\
    Forall (fun t => waiting t = true) ts'.
Proof.
  intros Hts. revert pre. induction Hts as [|id t ids ts [r Ht] Hts IH]; intros pre Hf Hs.
  - by exists [].
  - apply Forall_cons in Hf as [[Hidx _] Hf].
    destruct (block_one id r (pre ++ t :: ts) (length pre) t w) as [k Hk];
      [by apply list_lookup_middle|done|done|done|].
    rewrite insert_middle in Hk.
    destruct (IH (pre ++ [CAcquire k]) Hf Hs) as (ts' & H2 & Hl & Hall).
    exists (CAcquire k :: ts'). rewrite <- !app_assoc in H2. split_and!.
    + eapply rtc_l; [exact Hk|exact H2].
    + simpl. by rewrite Hl.
    + by constructor.
Qed.
End Schedule.
(** ** Permits under any interleaving *)

(** The permits of the semaphore are conserved: the free ones and the
    ones each task holds add up to the initial count, and no task holds
    more than [B]. *)
Definition permits_inv (P B : nat) (c : conf) : Prop :=
  exists ns, Forall2 (fun t n => cap B n t) c.1 ns /\ w_sem c.2 + sum_list ns = P.

Lemma sum_list_insert (ns : list nat) i n n' :
  ns !! i = Some n -> sum_list (<[i := n']> ns) + n = sum_list ns + n'.
Proof.
  revert i. induction ns as [|m ns IH]; intros [|i] Hi; simplify_eq/=; [lia|].
  specialize (IH i Hi). lia.
Qed.

Lemma gstep_permits P B c c' : permits_inv P B c -> gstep c c' -> permits_inv P B c'.
Proof.
  intros (ns & Hts & Hs) Hst. destruct Hst as [ts w i t t' w' Hi Hr]. simpl in *.
  destruct (Forall2_lookup_l _ _ _ _ _ Hts Hi) as (n & Hn & Hc).
  destruct (cap_resume B n t w (t', w') Hc Hr) as (n' & Hc' & Heq). simpl in *.
  exists (<[i := n']> ns). split.
  - by apply Forall2_insert.
  - simpl. pose proof (sum_list_insert ns i n n' Hn). lia.
Qed.

Lemma rtc_permits P B c c' : permits_inv P B c -> rtc gstep c c' -> permits_inv P B c'.
Proof. intros Hc Hr. induction Hr; eauto using gstep_permits. Qed.

(** No task can run, and some task has not ended: [gather] never
    returns. *)
Definition stuck (c : conf) : Prop :=
  (forall i t, c.1 !! i = Some t -> resume t c.2 = None) /\
  Exists (fun t => finished t = false) c.1.

Lemma deadlocked_is_stuck c : deadlocked c -> stuck c.
Proof.
  intros (Hne & Hs & Hall). split.
  - intros i t Hi. pose proof (Forall_lookup_1 _ _ _ _ Hall Hi) as Ht.
    destruct t; try discriminate. unfold resume. by rewrite Hs.
  - destruct c as [[|t ts] w]; [done|]. simpl in *. apply Exists_cons_hd.
    apply Forall_cons in Hall as [Ht _]. by destruct t.
Qed.

(** A task the loop cannot resume has ended and holds nothing, or waits
    for a permit while none is free, holding fewer than [B]. *)
Lemma blocked_holds B n (t : co unit) w :
  cap B n t -> resume t w = None ->
  (finished t = true /\ n = 0) \/ (w_sem w = 0 /\ S n <= B).
Proof.
  intros Hc Hr. destruct t; simpl in Hr; try discriminate; inversion Hc; subst; auto.
  right. by destruct (w_sem w).
Qed.

Lemma sum_bounded (ns : list nat) r :
  Forall (fun n => n <= r) ns -> sum_list ns <= length ns * r.
Proof. induction 1; simpl; lia. Qed.

(** With more permits than the tasks can hold while waiting, the
    configuration cannot be stuck. *)
Lemma permits_not_stuck P r c :
  permits_inv P (S r) c -> length c.1 * r < P -> ~ stuck c.
Proof.
  intros (ns & Hts & Hs) Hlt (Hblk & Hex).
  assert (Hsem : w_sem c.2 = 0).
  { apply Exists_exists in Hex as (t & Hin & Hf). apply list_elem_of_lookup_1 in Hin as [i Hi].
    destruct (Forall2_lookup_l _ _ _ _ _ Hts Hi) as (n & _ & Hc).
    destruct (blocked_holds _ _ _ _ Hc (Hblk i t Hi)) as [[? _]|[? _]]; congruence. }
  assert (Hle : Forall (fun n => n <= r) ns).
  { apply Forall_lookup. intros j n Hj. destruct (Forall2_lookup_r _ _ _ _ _ Hts Hj) as (t & Ht & Hc).
    destruct (blocked_holds _ _ _ _ Hc (Hblk j t Ht)) as [[_ ->]|[_ ?]]; lia. }
  apply sum_bounded in Hle. apply Forall2_length in Hts. rewrite <- Hts in Hle. lia.
Qed.

(** Every resumption consumes part of one task and leaves the others:
    no schedule of the event loop is infinite. *)
Lemma gstep_smaller c c' : gstep c c' -> one_smaller (tc co_sub) c'.1 c.1.
Proof.
  destruct 1 as [ts w i t t' w' Hi Hr]. exists i, t, t'. split_and!; [done| |done].
  apply (resume_below t w (t', w') Hr).
Qed.

(** A configuration from which the loop cannot go on has no task left that
    it could resume. *)
Lemma nf_no_resume c : nf gstep c -> forall i t, c.1 !! i = Some t -> resume t c.2 = None.
Proof.
  intros Hnf i t Hi. destruct (resume t c.2) as [[t' w']|] eqn:E; [|done].
  destruct c as [ts w]. destruct Hnf. eexists. by eapply gstep_resume.
Qed.

Section Deadlock.
Context {N : Network} {X : XmlLib}.

(** Workers with [r] retries each, [n] of them, all failing: the event
    loop can reach a deadlock as soon as the semaphore has no more than
    [n * r] permits. *)
Lemma workers_deadlock (r : nat) (ids : list Z) (w : world) :
  ids <> [] -> Forall (failing w) ids -> w_sem w <= length ids * r ->
  exists c, rtc gstep (map (fun id => fetch_user_data (m:=co) id r) ids, w) c /\ deadlocked c.
Proof.
  intros Hne Hf Hs.
  assert (Hts : Forall2 (fun id t => asleep id r t) ids (map (fun id => fetch_user_data (m:=co) id r) ids)).
  { apply Forall2_fmap_r, Forall_Forall2_diag, Forall_true. intros id. apply asleep_fresh. }
  destruct (drive_all r [] ids _ w Hts Hf Hs) as (ts1 & w1 & H1 & Hs1 & Hi1 & Hts1).
  assert (Hf1 : Forall (failing w1) ids).
  { eapply Forall_impl; [done|]. intros id [Hidx Hr]. split; [by rewrite Hi1|done]. }
  destruct (block_all [] ids ts1 w1 Hts1 Hf1 Hs1) as (ts2 & H2 & Hl & Hall).
  exists (ts2, w1). split; [by eapply rtc_trans|]. split_and!; [|done|done].
  apply Forall2_length in Hts1. destruct ts2; [|done]. destruct ids; [done|]. simpl in *. lia.
Qed.

Lemma gstep_length c c' : gstep c c' -> length c'.1 = length c.1.
Proof. intros []. apply length_insert. Qed.

Lemma rtc_length c c' : rtc gstep c c' -> length c'.1 = length c.1.
Proof. induction 1; [done|]. apply gstep_length in H. congruence. Qed.

(** At the start of [gather] the workers hold nothing. *)
Lemma initial_permits r ids w :
  permits_inv (w_sem w) (S r) (map (fun id => fetch_user_data (m:=co) id r) ids, w).
Proof.
  exists (replicate (length ids) 0). split; simpl.
  - induction ids; simpl; constructor; [apply fetch_cap|done].
  - induction ids; simpl; lia.
Qed.

(** Every configuration reached from the start of a gather of workers with
    [r] retries. *)
Lemma reachable_not_stuck r ids w c :
  length ids * r < w_sem w ->
  rtc gstep (map (fun id => fetch_user_data (m:=co) id r) ids, w) c -> ~ stuck c.
Proof.
  intros Hlt Hr. apply (permits_not_stuck (w_sem w) r).
  - by eapply rtc_permits; [apply initial_permits|].
  - apply rtc_length in Hr. simpl in Hr. rewrite Hr, length_map. done.
Qed.

(** C7: whatever the server answers and however the event loop interleaves
    the tasks, a gather of [n] workers with [r] retries each can never
    reach a state where no task can run before all have ended, as long as
    the semaphore has more than [n * r] permits: each worker waits for a
    permit only while it holds at most [r]. *)
Theorem workers_never_stuck (r : nat) (ids : list Z) (w : world) :
  length ids * r < w_sem w ->
  forall c, rtc gstep (map (fun id => fetch_user_data (m:=co) id r) ids, w) c ->
    ~ stuck c /\ permits_inv (w_sem w) (S r) c.
Proof.
  intros Hlt c Hr. split; [by apply (reachable_not_stuck r ids w)|].
  by eapply rtc_permits; [apply initial_permits|].
Qed.

(** C6: the threshold is exact.  For a gather of workers whose requests
    all fail in a retryable way, the event loop can get stuck if and only
    if the semaphore has at most [n * r] permits. *)
Theorem deadlock_threshold (r : nat) (ids : list Z) (w : world) :
  ids <> [] -> Forall (failing w) ids ->
  (exists c, rtc gstep (map (fun id => fetch_user_data (m:=co) id r) ids, w) c /\ stuck c) <->
  w_sem w <= length ids * r.
Proof.
  intros Hne Hf. split.
  - intros (c & Hr & Hs). destruct (decide (w_sem w <= length ids * r)) as [|Hgt]; [done|].
    exfalso. apply (reachable_not_stuck r ids w c); [lia|done|done].
  - intros Hle. destruct (workers_deadlock r ids w Hne Hf Hle) as (c & Hr & Hd).
    exists c. split; [done|by apply deadlocked_is_stuck].
Qed.

(** C5: the nested [async with semaphore] of the retries deadlocks a whole
    chunk under an outage.  With the constants of the code (chunks of
    [batch_size = 1000] ids, [MAX_CONCURRENT_REQUESTS = 25000] permits,
    [MAX_RETRIES = 1000]), if every request of a chunk fails in a
    retryable way, the event loop can reach a state in which every task
    of [gather] waits for a permit and none is free: each worker holds the
    permits of its earlier attempts while it waits for the next one. *)
Theorem chunk_deadlock (start_id : Z) (w : world) :
  w_sem w = MAX_CONCURRENT_REQUESTS ->
  Forall (failing w) (py_range start_id (start_id + batch_size - 1 + 1)) ->
  exists c, rtc gstep (chunk_tasks start_id (start_id + batch_size - 1), w) c /\ deadlocked c.
Proof.
  intros Hs Hf. apply workers_deadlock; [|done|].
  - rewrite <- length_zero_iff_nil, length_py_range. unfold batch_size. lia.
  - rewrite length_py_range, Hs. unfold batch_size, MAX_CONCURRENT_REQUESTS, MAX_RETRIES.
    replace (start_id + 1000 - 1 + 1 - start_id)%Z with 1000%Z by lia.
    change (Z.to_nat 1000) with 1000%nat. change 25000%nat with (25 * 1000)%nat.
    apply Nat.mul_le_mono_r. lia.
Qed.
End Deadlock.

Lemma workers_never_stuck_witness :
  ~ stuck (map (fun id => task_on net_down demo_xml id 1)
               [5; 6]%Z, mkWorld ∅ ∅ 3 []) /\
  permits_inv 3 2 (map (fun id => task_on net_down demo_xml id 1)
               [5; 6]%Z, mkWorld ∅ ∅ 3 []).
Proof.
  apply (@workers_never_stuck net_down demo_xml 1 [5; 6]%Z (mkWorld ∅ ∅ 3 [])); [simpl; lia|].
  apply rtc_refl.
Defined.

Lemma deadlock_threshold_witness :
  (exists c, rtc gstep (map (fun id => task_on net_down demo_xml id 1)
                          [5; 6]%Z, mkWorld ∅ ∅ 2 []) c /\ stuck c) <->
  2 <= 2 * 1.
Proof.
  apply (@deadlock_threshold net_down demo_xml 1 [5; 6]%Z (mkWorld ∅ ∅ 2 [])); [done|].
  repeat constructor.
Defined.

Lemma chunk_deadlock_witness :
  exists c, rtc gstep (@chunk_tasks net_down demo_xml 5 (5 + batch_size - 1),
                       mkWorld ∅ ∅ MAX_CONCURRENT_REQUESTS []) c /\ deadlocked c.
Proof.
  apply (@chunk_deadlock net_down demo_xml 5 (mkWorld ∅ ∅ MAX_CONCURRENT_REQUESTS []));
    [reflexivity|].
  apply Forall_forall. intros id _. split; [apply lookup_empty|done].
Defined.

End Gather.
