(* ===== verification/SharedIndex.v ===== *)
(** * SharedIndex: [existing_files_dict] and the directory under the event loop

    The workers of a chunk share [existing_files_dict] and the working
    directory (grab_mayhemids.py, lines 14, 38, 72-75).  A worker that saves
    a result opens the file (creating it empty), writes it and closes it,
    three awaits during which the other workers run, and only then records
    it in the dict (line 75).  So the dict can lag behind the directory
    while a save is in progress, and the claim of the design that the two
    agree "after each successful write" is what survives interleaving.

    [isafe Q P t] types a task [t] by the files [P] it has created and not
    yet recorded (its pending files) and the pending files [Q] it ends
    with: a step must keep every entry of the dict pointing at an existing
    file filed under its key, and may leave unrecorded only pending files,
    its own or another task's.  The invariant [shared_inv] of a
    configuration gives each task its pending files; [gather_index_consistent]
    shows that every schedule of a chunk keeps the dict sound, never loses
    a file, and ends with dict and directory in agreement. *)

From Stdlib Require Import ZArith Lia String.
From stdpp Require Import base list gmap strings.
From S2P Require Import Prelude PyStr Runtime ResultIndex Fetch Coroutine Batch Gather.
Import PyStr Runtime ResultIndex Fetch Coroutine Batch Gather.

Module SharedIndex.

(** ** Pending files *)

(** Every file of the directory that the dict misses is pending: [P], the
    files of the task at hand, or [O], the other tasks'. *)
Definition covered (P : gset string) (O : string -> Prop) (fs idx : gmap string string) : Prop :=
  forall fn k, is_Some (fs !! fn) -> xml_key fn = Some k -> idx !! k = None -> fn ∈ P \/ O fn.

Definition holds (P : gset string) (O : string -> Prop) (w : world) : Prop :=
  P ⊆ dom (w_fs w) /\ index_sound (w_fs w) (w_idx w) /\ covered P O (w_fs w) (w_idx w).

(** Files are never removed. *)
Definition grows (w w' : world) : Prop := dom (w_fs w) ⊆ dom (w_fs w').

(** An atomic step that turns the pending files [P] into [P'], whatever
    the other tasks have pending. *)
Definition step_ok {A} (P P' : gset string) (f : world -> co A * world) : Prop :=
  forall O w, holds P O w -> holds P' O (f w).2 /\ grows w (f w).2.

Inductive isafe {A} (Q : gset string) : gset string -> co A -> Prop :=
  | isafe_ret a : isafe Q Q (CRet a)
  | isafe_raise e : isafe Q ∅ (CRaise e)
  | isafe_step P P' f : step_ok P P' f -> (forall w, isafe Q P' (f w).1) -> isafe Q P (CStep f)
  | isafe_await P t : isafe Q P t -> isafe Q P (CAwait t)
  | isafe_acquire P t : isafe Q P t -> isafe Q P (CAcquire t)
  | isafe_release P t : isafe Q P t -> isafe Q P (CRelease t).

(** ** Steps *)

Lemma holds_sem P O n w : holds P O (set_sem n w) <-> holds P O w.
Proof. done. Qed.

Lemma step_ok_keep {A} P (f : world -> co A * world) :
  (forall w, w_fs (f w).2 = w_fs w /\ w_idx (f w).2 = w_idx w) -> step_ok P P f.
Proof.
  intros Hf O w H. destruct (Hf w) as [E1 E2]. unfold holds, grows. by rewrite E1, E2.
Qed.

Lemma step_ok_ext {A B} P P' (f : world -> co A * world) (g : world -> co B * world) :
  step_ok P P' f -> (forall w, (g w).2 = (f w).2) -> step_ok P P' g.
Proof. intros Hf Hg O w H. rewrite Hg. by apply Hf. Qed.

(** Creating or writing the file [fn] makes it pending. *)
Lemma step_ok_write {A} P P' fn c (f : world -> co A * world) :
  P ∪ {[fn]} ⊆ P' -> P' ⊆ P ∪ {[fn]} ->
  (forall w, (f w).2 = set_fs (<[fn := c]> (w_fs w)) w) -> step_ok P P' f.
Proof.
  intros H1 H2 Hf O w (HP & Hs & Hc). unfold holds, grows. rewrite Hf. simpl.
  rewrite dom_insert_L. split_and!; [set_solver| |intros fn' k Hfn Hk Hi|set_solver].
  - intros k fn' Hk. destruct (Hs k fn' Hk) as [Hfn' ?]. split; [|done].
    destruct (decide (fn = fn')) as [->|]; [by rewrite lookup_insert_eq|by rewrite lookup_insert_ne].
  - destruct (decide (fn = fn')) as [->|Hne]; [left; set_solver|].
    rewrite lookup_insert_ne in Hfn by done. destruct (Hc fn' k Hfn Hk Hi); [left; set_solver|by right].
Qed.

(** Recording a pending file under its key takes it off the pending files. *)
Lemma step_ok_record {A} P P' k fn (f : world -> co A * world) :
  xml_key fn = Some k -> fn ∈ P -> P ⊆ P' ∪ {[fn]} -> P' ⊆ P ->
  (forall w, (f w).2 = set_idx (<[k := fn]> (w_idx w)) w) -> step_ok P P' f.
Proof.
  intros Hk H1 H2 H3 Hf O w (HP & Hs & Hc). unfold holds, grows. rewrite Hf. simpl.
  split_and!; [set_solver| |intros fn' k' Hfn Hk' Hi|done].
  - intros k' fn' Hk'. destruct (decide (k = k')) as [<-|Hne].
    + rewrite lookup_insert_eq in Hk'. injection Hk' as <-.
      split; [|done]. apply elem_of_dom. set_solver.
    + rewrite lookup_insert_ne in Hk' by done. by apply Hs.
  - destruct (decide (k = k')) as [<-|Hne]; [by rewrite lookup_insert_eq in Hi|].
    rewrite lookup_insert_ne in Hi by done.
    destruct (Hc fn' k' Hfn Hk' Hi) as [Hin|]; [|by right]. left.
    assert (fn' <> fn) by congruence. set_solver.
Qed.

(** ** Combinators *)

Lemma isafe_bind {A B} Q R P (t : co A) (k : A -> co B) :
  isafe Q P t -> (forall a, isafe R Q (k a)) -> isafe R P (co_bind k t).
Proof.
  intros Ht Hk. induction Ht as [a|e|P P' f Hs Hf IH|P t Ht IH|P t Ht IH|P t Ht IH];
    simpl; try constructor; auto.
  apply (isafe_step _ _ P'); [eapply step_ok_ext; [done|]|]; intros w;
    specialize (IH w); destruct (f w); done.
Qed.

Lemma isafe_try {A} Q P (t : co A) h :
  isafe Q P t -> (forall e u, h e = Some u -> isafe Q ∅ u) -> isafe Q P (co_try t h).
Proof.
  intros Ht Hh. induction Ht as [a|e|P P' f Hs Hf IH|P t Ht IH|P t Ht IH|P t Ht IH];
    simpl; try constructor; auto.
  - destruct (h e) eqn:E; [by eapply Hh|constructor].
  - apply (isafe_step _ _ P'); [eapply step_ok_ext; [done|]|]; intros w;
      specialize (IH w); destruct (f w); done.
Qed.

Lemma isafe_with_semaphore {A} Q (body : co A) :
  isafe Q ∅ body -> isafe Q ∅ (with_semaphore body).
Proof.
  intros Hb. constructor. unfold co_finally. apply isafe_try.
  - eapply isafe_bind; [done|]. intros a. by do 2 constructor.
  - intros e u [= <-]. by do 2 constructor.
Qed.

(** ** The effects *)

Section Effects.
Context {N : Network}.

Lemma isafe_print Q ev : isafe Q Q (print ev).
Proof. apply (isafe_step _ _ Q); [by apply step_ok_keep|constructor]. Qed.

Lemma isafe_sleep Q d : isafe Q Q (sleep d).
Proof. apply (isafe_step _ _ Q); [by apply step_ok_keep|by do 2 constructor]. Qed.

Lemma isafe_get_idx Q : isafe Q Q get_idx.
Proof. apply (isafe_step _ _ Q); [by apply step_ok_keep|constructor]. Qed.

Lemma isafe_http_get url : isafe ∅ ∅ (http_get url).
Proof.
  constructor. apply (isafe_step _ _ ∅); [by apply step_ok_keep|].
  intros w. simpl. destruct (respond _ _); constructor.
Qed.

(** The open creates [fn], pending from then on; the write keeps it so. *)
Lemma isafe_write_file fn c : isafe {[fn]} ∅ (write_file fn c).
Proof.
  constructor. apply (isafe_step _ _ {[fn]});
    [apply (step_ok_write _ _ fn ""); [set_solver|set_solver|done]|intros w; simpl].
  constructor. apply (isafe_step _ _ {[fn]});
    [apply (step_ok_write _ _ fn c); [set_solver|set_solver|done]|intros w'; simpl].
  by do 2 constructor.
Qed.
End Effects.

Ltac isafe_step :=
  match goal with
  | |- isafe _ _ (mret _) => apply isafe_ret
  | |- isafe _ _ (mthrow _) => apply isafe_raise
  | |- isafe _ _ (print _) => apply isafe_print
  | |- isafe _ _ (sleep _) => apply isafe_sleep
  | |- isafe _ _ get_idx => apply isafe_get_idx
  | |- isafe _ _ (http_get _) => apply isafe_http_get
  | |- isafe _ _ (_ ≫= _) => eapply isafe_bind; [|intros ?]
  | |- isafe _ _ (match ?x with _ => _ end) => destruct x
  end.

(** ** The worker *)

Section Worker.
Context {N : Network} {X : XmlLib}.

(** Line 75 records the file of lines 72-73 under [str(applicationUserId)],
    its key: the save leaves nothing pending. *)
Lemma isafe_save_resources id content : isafe ∅ ∅ (save_resources id content).
Proof.
  unfold save_resources. destruct (fromstring content); [apply isafe_raise|].
  case_bool_decide; [|by repeat isafe_step].
  destruct (extract_mayhem_id _) as [|m]; [apply isafe_raise|].
  eapply isafe_bind; [apply isafe_write_file|intros _].
  eapply isafe_bind; [apply isafe_print|intros _].
  eapply isafe_bind; [|intros _; apply isafe_ret].
  apply (isafe_step _ _ ∅); [|intros w; apply isafe_ret].
  apply (step_ok_record _ _ (py_str_Z id) (result_filename id m));
    [apply result_filename_key|set_solver|set_solver|set_solver|done].
Qed.

Definition isafe_opt (rec : option (co unit)) : Prop :=
  forall k, rec = Some k -> isafe ∅ ∅ k.

Lemma isafe_rec {A} rec (P : co unit -> co A) (d : co A) :
  isafe_opt rec -> (forall k, isafe ∅ ∅ k -> isafe ∅ ∅ (P k)) -> isafe ∅ ∅ d ->
  isafe ∅ ∅ (match rec with Some k => P k | None => d end).
Proof. intros Hr HP Hd. destruct rec as [k|]; [by apply HP, Hr|done]. Qed.

Lemma isafe_retry_after r k : isafe ∅ ∅ k -> isafe ∅ ∅ (retry_after r k).
Proof. intros Hk. unfold retry_after. by repeat isafe_step. Qed.

Lemma isafe_retry_or_fail id r rec : isafe_opt rec -> isafe ∅ ∅ (retry_or_fail id r rec).
Proof.
  intros Hr. unfold retry_or_fail. apply isafe_rec; [done|apply isafe_retry_after|by repeat isafe_step].
Qed.

Lemma isafe_attempt id r rec : isafe_opt rec -> isafe ∅ ∅ (attempt id r rec).
Proof.
  intros Hr. unfold attempt. repeat first
    [ apply isafe_rec; [done| |]; intros
    | isafe_step ]; auto using isafe_retry_or_fail, isafe_save_resources, isafe_retry_after.
Qed.

Lemma isafe_handlers id r rec e u : isafe_opt rec -> handlers id r rec e = Some u -> isafe ∅ ∅ u.
Proof.
  intros Hr Hu. destruct e; unfold handlers in Hu; try discriminate; apply (inj Some) in Hu; subst u;
    repeat first [ apply isafe_rec; [done| |]; intros | isafe_step ];
    auto using isafe_retry_or_fail, isafe_retry_after.
Qed.

Lemma fetch_isafe id r : isafe ∅ ∅ (fetch_user_data (m:=co) id r).
Proof.
  induction r as [|r IH]; rewrite fetch_user_data_eq; unfold fetch_body;
    [assert (Hr : isafe_opt (rec_call (m:=co) id 0)) by (by intros k)
    |assert (Hr : isafe_opt (rec_call (m:=co) id (S r))) by (intros k [= <-]; exact IH)];
    repeat isafe_step; try apply isafe_with_semaphore; repeat isafe_step;
    try (apply isafe_try; [by apply isafe_attempt|intros e u; by apply isafe_handlers]).
Qed.
End Worker.

(** ** A slice and a resumption *)

Lemma isafe_run_slice {A} Q P (t : co A) O w :
  isafe Q P t -> holds P O w ->
  exists P', isafe Q P' (run_slice t w).1 /\ holds P' O (run_slice t w).2 /\
             grows w (run_slice t w).2.
Proof.
  intros Ht. revert w. induction Ht as [a|e|P P' f Hs Hf IH|P t Ht IH|P t Ht IH|P t Ht IH];
    intros w Hw; simpl; try (eexists; split_and!; [by constructor|done|unfold grows; done]).
  - destruct (Hs O w Hw) as [Hw' Hg]. destruct (IH w (f w).2 Hw') as (P'' & H1 & H2 & H3).
    destruct (f w) as [t' w']. exists P''. split_and!; [done|done|]. unfold grows in *. set_solver.
  - destruct (w_sem w) as [|n].
    + exists P. split_and!; [by constructor|done|unfold grows; done].
    + destruct (IH (set_sem n w)) as (P' & H1 & H2 & H3); [done|]. by exists P'.
  - destruct (IH (set_sem (S (w_sem w)) w)) as (P' & H1 & H2 & H3); [done|]. by exists P'.
Qed.

Lemma isafe_resume {A} Q P (t : co A) O w p :
  isafe Q P t -> holds P O w -> resume t w = Some p ->
  exists P', isafe Q P' p.1 /\ holds P' O p.2 /\ grows w p.2.
Proof.
  intros Ht Hw Hr. destruct t as [a|e|f|t|t|t]; unfold resume in Hr; simplify_eq.
  - by eapply isafe_run_slice.
  - inversion Ht; subst. by eapply isafe_run_slice.
  - destruct (w_sem w) eqn:E; simplify_eq. by eapply isafe_run_slice.
  - by eapply isafe_run_slice.
Qed.

(** ** The configurations of a chunk *)

(** Each task has its pending files; every file the dict misses is
    pending for one of them, and every pending file exists. *)
Definition shared_inv (c : conf) : Prop :=
  exists Ps : list (gset string),
    Forall2 (isafe ∅) Ps c.1 /\ index_sound (w_fs c.2) (w_idx c.2) /\
    (forall i P, Ps !! i = Some P -> P ⊆ dom (w_fs c.2)) /\
    (forall fn k, is_Some (w_fs c.2 !! fn) -> xml_key fn = Some k -> w_idx c.2 !! k = None ->
       exists i P, Ps !! i = Some P /\ fn ∈ P).

Lemma gstep_shared c c' : shared_inv c -> gstep c c' -> shared_inv c' /\ grows c.2 c'.2.
Proof.
  intros (Ps & HF & Hs & HP & Hc) Hst. destruct Hst as [ts w i t t' w' Hi Hr]. simpl in *.
  destruct (Forall2_lookup_r _ _ _ _ _ HF Hi) as (P & HPi & Ht).
  set (O fn := exists j Pj, j <> i /\ Ps !! j = Some Pj /\ fn ∈ Pj).
  assert (Hw : holds P O w).
  { split_and!; [by eapply HP|done|]. intros fn k Hfn Hk Hn.
    destruct (Hc fn k Hfn Hk Hn) as (j & Pj & Hj & Hin).
    destruct (decide (j = i)) as [->|]; [left; rewrite HPi in Hj; by injection Hj as <-|right; by exists j, Pj]. }
  destruct (isafe_resume _ _ _ _ _ _ Ht Hw Hr) as (P' & Ht' & (HP' & Hs' & Hc') & Hg). simpl in *.
  split; [|done]. exists (<[i := P']> Ps). split_and!; [by apply Forall2_insert|done| |].
  - intros j Pj Hj. destruct (decide (j = i)) as [->|Hne].
    + rewrite list_lookup_insert_eq in Hj; [by injection Hj as <-|]. by eapply lookup_lt_Some.
    + rewrite list_lookup_insert_ne in Hj by done. unfold grows in Hg. specialize (HP j Pj Hj). set_solver.
  - intros fn k Hfn Hk Hn. destruct (Hc' fn k Hfn Hk Hn) as [Hin|(j & Pj & Hne & Hj & Hin)].
    + exists i, P'. split; [|done]. rewrite list_lookup_insert_eq; [done|]. by eapply lookup_lt_Some.
    + exists j, Pj. by rewrite list_lookup_insert_ne.
Qed.

Lemma rtc_shared c c' : shared_inv c -> rtc gstep c c' -> shared_inv c' /\ grows c.2 c'.2.
Proof.
  intros Hc Hr. induction Hr as [c|c1 c2 c3 H12 H23 IH]; [split; [done|unfold grows; done]|].
  destruct (gstep_shared _ _ Hc H12) as [Hc2 Hg]. destruct (IH Hc2) as [Hc3 Hg'].
  split; [done|]. unfold grows in *. set_solver.
Qed.

(** C13: the worker is well typed as a task, for the two resources it
    shares: it holds at most [r + 1] permits of the semaphore and ends
    holding none ([cap]), and every file it creates is recorded in the
    dict under its key before it ends, or before it raises ([isafe]). *)
Theorem fetch_task_typed `{Network} `{XmlLib} (id : Z) (r : nat) :
  cap (S r) 0 (fetch_user_data (m:=co) id r) /\ isafe ∅ ∅ (fetch_user_data (m:=co) id r).
Proof. split; [apply fetch_cap|apply fetch_isafe]. Qed.

Lemma finished_pending P (t : co unit) : isafe ∅ P t -> finished t = true -> P = ∅.
Proof. intros Ht Hf. destruct t; try discriminate; by inversion Ht. Qed.

(** Once every task has ended nothing is pending: dict and directory agree. *)
Lemma shared_inv_finished c :
  shared_inv c -> Forall (fun t => finished t = true) c.1 -> index_agrees (w_fs c.2) (w_idx c.2).
Proof.
  intros (Ps & HF & Hs & _ & Hc) Hfin. split; [done|].
  intros fn k Hfn Hk. destruct (w_idx c.2 !! k) eqn:E; [done|].
  destruct (Hc fn k Hfn Hk E) as (i & P & Hi & Hin).
  destruct (Forall2_lookup_l _ _ _ _ _ HF Hi) as (t & Ht & HtP).
  rewrite (finished_pending P t HtP) in Hin; [set_solver|].
  by apply (Forall_lookup_1 _ _ _ _ Hfin Ht).
Qed.

Section Chunk.
Context {N : Network} {X : XmlLib}.

Lemma workers_shared (r : nat) (ids : list Z) (w : world) :
  index_agrees (w_fs w) (w_idx w) ->
  shared_inv (map (fun id => fetch_user_data (m:=co) id r) ids, w).
Proof.
  intros [Hs Hc]. exists (map (fun _ => ∅) ids). simpl. split_and!; [|done| |].
  - induction ids; simpl; constructor; [apply fetch_isafe|done].
  - intros i P Hi. apply list_lookup_fmap_Some_1 in Hi as (? & -> & _). set_solver.
  - intros fn k Hfn Hk Hn. destruct (Hc fn k Hfn Hk) as [? Hk']. congruence.
Qed.

(** C8: whatever order the event loop runs the workers of a chunk in,
    every entry of [existing_files_dict] names a file of the directory
    filed under its key, no file is lost, and once every worker has ended
    the dict and the directory agree again, if they agreed when the chunk
    started.  In between they need not: a worker records its file only
    after the three awaits of lines 72-73. *)
Theorem gather_index_consistent (r : nat) (ids : list Z) (w : world) (c : conf) :
  index_agrees (w_fs w) (w_idx w) ->
  rtc gstep (map (fun id => fetch_user_data (m:=co) id r) ids, w) c ->
  index_sound (w_fs c.2) (w_idx c.2) /\ grows w c.2 /\
  (Forall (fun t => finished t = true) c.1 -> index_agrees (w_fs c.2) (w_idx c.2)).
Proof.
  intros Ha Hr. destruct (rtc_shared _ _ (workers_shared r ids w Ha) Hr) as [Hc Hg].
  split_and!; [by destruct Hc as (Ps & _ & Hs & _)|done|]. by apply shared_inv_finished.
Qed.
End Chunk.

Lemma gather_index_consistent_witness :
  let c := (map (fun id => task_on net_down demo_xml id 1) [5; 6]%Z, mkWorld ∅ ∅ 3 []) in
  index_sound (w_fs c.2) (w_idx c.2) /\ grows (mkWorld ∅ ∅ 3 []) c.2 /\
  (Forall (fun t => finished t = true) c.1 -> index_agrees (w_fs c.2) (w_idx c.2)).
Proof.
  apply (@gather_index_consistent net_down demo_xml 1 [5; 6]%Z (mkWorld ∅ ∅ 3 []));
    [split; intros ??; simpl; rewrite lookup_empty; [intros [=]|intros [? [=]]]|apply rtc_refl].
Defined.

End SharedIndex.
