(* ===== verification/RunLoop.v ===== *)
(** * RunLoop: [main]'s loop over the chunks under the event loop

    [main] (grab_mayhemids.py, lines 130-135) prints, awaits
    [process_users] for one chunk, prints again, and only then moves to
    the next chunk; the gather of a chunk runs its tasks interleaved
    ([Gather.gstep]).  A run is the chunks still to do, where [main] is
    ([Between] two chunks, in a chunk with its tasks, or [Raised] once
    [asyncio.gather] has propagated an exception, which ends [asyncio.run])
    and the world.  The exception of one task ends the run as soon as
    [main] resumes; until then the other tasks may go on, as they do in
    asyncio, where [gather] does not cancel them.

    [run_index_consistent] carries the shared-index invariant of
    [SharedIndex] over the whole run; [run_completes] shows that with
    chunks small enough for the semaphore the run always ends, having
    processed every chunk or raised; [raise_aborts_run] shows that once a
    task has raised, [main] never leaves the chunk but by raising.  The
    run ends at [Raised]: the cancellation of the remaining tasks by
    [asyncio.run] is not modelled. *)

From Stdlib Require Import ZArith Lia String.
From stdpp Require Import base list gmap strings relations.
From S2P Require Import Prelude PyStr Runtime ResultIndex Fetch Coroutine Batch Gather SharedIndex.
Import PyStr Runtime ResultIndex Fetch Coroutine Batch Gather SharedIndex.

Module RunLoop.

(** Where [main] is. *)
Inductive phase : Type :=
  | Between
  | InChunk (start_id end_id : Z) (tasks : list (co unit))
  | Raised (e : exn).

(** The chunks still to do, [main]'s phase and the world. *)
Definition run : Type := list (Z * Z) * phase * world.

(** A task that has returned. *)
Definition returned (t : co unit) : bool := match t with CRet _ => true | _ => false end.

Section Run.
Context {N : Network} {X : XmlLib}.

Inductive rstep : relation run :=
  (** Lines 131-134: the next chunk is printed and its tasks created. *)
  | rstep_start s e cs w :
      rstep ((s, e) :: cs, Between, w)
            (cs, InChunk s e (chunk_tasks s e), add_event (EvProcessing s e) w)
  (** Line 120: the event loop runs one of the chunk's tasks. *)
  | rstep_gather cs s e ts w ts' w' :
      gstep (ts, w) (ts', w') -> rstep (cs, InChunk s e ts, w) (cs, InChunk s e ts', w')
  (** Line 135: every task has returned; [gather] returns. *)
  | rstep_finish cs s e ts w :
      Forall (fun t => returned t = true) ts ->
      rstep (cs, InChunk s e ts, w) (cs, Between, add_event (EvFinished s e) w)
  (** A task has raised: [gather] propagates the exception through [main]. *)
  | rstep_raise cs s e ts w i ex :
      ts !! i = Some (CRaise ex) -> rstep (cs, InChunk s e ts, w) (cs, Raised ex, w).
End Run.

(** The tasks of a chunk are workers with [MAX_RETRIES] retries. *)
Lemma chunk_tasks_workers `{Network} `{XmlLib} s e :
  chunk_tasks s e = map (fun id => fetch_user_data (m:=co) id MAX_RETRIES) (chunk_ids (s, e)).
Proof. done. Qed.

(** ** The index over the whole run *)

Definition run_inv (st : run) : Prop :=
  match st.1.2 with
  | Between => index_agrees (w_fs st.2) (w_idx st.2)
  | InChunk _ _ ts => shared_inv (ts, st.2)
  | Raised _ => index_sound (w_fs st.2) (w_idx st.2)
  end.

Lemma returned_finished t : returned t = true -> finished t = true.
Proof. by destruct t. Qed.

Section Index.
Context {N : Network} {X : XmlLib}.

Lemma rstep_inv st st' : run_inv st -> rstep st st' -> run_inv st'.
Proof.
  intros Hi Hs. destruct Hs as [s e cs w|cs s e ts w ts' w' Hg|cs s e ts w Hr|cs s e ts w i ex Hi'];
    unfold run_inv in *; simpl in *.
  - rewrite chunk_tasks_workers. by apply workers_shared.
  - by destruct (gstep_shared _ _ Hi Hg).
  - apply (shared_inv_finished (ts, w) Hi). simpl.
    eapply Forall_impl; [done|]. intros t. apply returned_finished.
  - by destruct Hi as (? & _ & ? & _).
Qed.

Lemma rtc_run_inv st st' : run_inv st -> rtc rstep st st' -> run_inv st'.
Proof. induction 2; eauto using rstep_inv. Qed.

(** C9: over the whole run of [main], whatever the interleavings inside
    each chunk: every entry of [existing_files_dict] names an existing
    file filed under its key, and between two chunks (in particular when
    [main] prints "Finished processing") the dict and the directory agree,
    if they agreed after the scan of line 127. *)
Theorem run_index_consistent (cs : list (Z * Z)) (w : world) (st : run) :
  index_agrees (w_fs w) (w_idx w) -> rtc rstep (cs, Between, w) st ->
  index_sound (w_fs st.2) (w_idx st.2) /\
  (st.1.2 = Between -> index_agrees (w_fs st.2) (w_idx st.2)).
Proof.
  intros Ha Hr. pose proof (rtc_run_inv (cs, Between, w) st Ha Hr) as Hi. unfold run_inv in Hi.
  destruct st as [[cs' [|s e ts|ex]] w']; simpl in *.
  - split; [by destruct Hi|done].
  - split; [by destruct Hi as (? & _ & ? & _)|done].
  - done.
Qed.
End Index.

(** ** The run always ends *)

(** No run is infinite: a chunk's schedules are finite, and [main] moves
    on to the next chunk only once the current one has been processed. *)
Section Termination.
Context {N : Network} {X : XmlLib}.

Lemma sn_raised cs ex w : sn rstep (cs, Raised ex, w).
Proof. constructor. intros st Hs. inversion Hs. Qed.

Lemma sn_chunk cs s e ts w :
  (forall w', sn rstep (cs, Between, w')) -> sn rstep (cs, InChunk s e ts, w).
Proof.
  intros Hb. revert w. induction (wf_one_smaller (tc co_sub) (fun t => Acc_tc _ t (co_sub_wf t)) ts)
    as [ts _ IH]. intros w. constructor. intros st Hs. inversion Hs as [|? ? ? ? ? ts' w' Hg| |]; subst.
  - apply (IH ts'); [apply (gstep_smaller (ts, w) (ts', w') Hg)].
  - apply Hb.
  - apply sn_raised.
Qed.

Lemma sn_between cs w : sn rstep (cs, Between, w).
Proof.
  revert w. induction cs as [|[s e] cs IH]; intros w; constructor; intros st Hs; inversion Hs; subst.
  by apply sn_chunk.
Qed.

Lemma rstep_sn st : sn rstep st.
Proof. destruct st as [[cs [|s e ts|ex]] w]; auto using sn_between, sn_chunk, sn_raised. Qed.
End Termination.

(** The permits over the run: all free between two chunks, conserved
    inside one; the chunks still to do, and the current one, small enough
    for the semaphore. *)
Definition small (P : nat) (c : Z * Z) : Prop := length (chunk_ids c) * MAX_RETRIES < P.

Definition run_permits (P : nat) (st : run) : Prop :=
  Forall (small P) st.1.1 /\
  match st.1.2 with
  | Between => w_sem st.2 = P
  | InChunk s e ts => permits_inv P (S MAX_RETRIES) (ts, st.2) /\ length ts = length (chunk_ids (s, e)) /\
                      small P (s, e)
  | Raised _ => True
  end.

(** Tasks that have all returned hold no permit. *)
Lemma permits_returned P B c :
  permits_inv P B c -> Forall (fun t => returned t = true) c.1 -> w_sem c.2 = P.
Proof.
  intros (ns & Hts & Hs) Hr. enough (sum_list ns = 0) by lia.
  induction Hts as [|t n ts ns Hc Hts IH]; [done|]. apply Forall_cons in Hr as [Ht Hr].
  destruct t; try discriminate. inversion Hc; subst. simpl. by apply IH.
Qed.

Section Completion.
Context {N : Network} {X : XmlLib}.

Lemma rstep_permits P st st' : run_permits P st -> rstep st st' -> run_permits P st'.
Proof.
  intros [Hcs Hi] Hs. destruct Hs as [s e cs w|cs s e ts w ts' w' Hg|cs s e ts w Hr|cs s e ts w i ex Hi'];
    unfold run_permits in *; simpl in *; split; try done.
  - by apply Forall_cons in Hcs as [_ ?].
  - apply Forall_cons in Hcs as [Hse _]. split_and!; [|by rewrite chunk_tasks_workers, length_map|done].
    rewrite chunk_tasks_workers. replace P with (w_sem (add_event (EvProcessing s e) w)) by (simpl; congruence).
    apply initial_permits.
  - destruct Hi as (Hp & Hl & Hsm). split_and!; [by apply (gstep_permits _ _ _ _ Hp Hg)| |done].
    rewrite <- Hl. apply (gstep_length (ts, w) (ts', w') Hg).
  - destruct Hi as (Hp & _). apply (permits_returned _ _ _ Hp Hr).
Qed.

Lemma rtc_run_permits P st st' : run_permits P st -> rtc rstep st st' -> run_permits P st'.
Proof. induction 2; eauto using rstep_permits. Qed.

(** Inside a chunk [main] can always go on: some task can run, or all
    have ended and [gather] returns or raises. *)
Lemma chunk_not_nf P cs s e ts w :
  run_permits P (cs, InChunk s e ts, w) -> ~ nf rstep (cs, InChunk s e ts, w).
Proof.
  intros (_ & Hp & Hl & Hsm) Hnf.
  assert (Hg : nf gstep (ts, w)).
  { intros [[ts' w'] Hg]. apply Hnf. eexists. by apply rstep_gather. }
  assert (Hfin : Forall (fun t => finished t = true) ts).
  { apply Forall_forall. intros t Ht. destruct (finished t) eqn:E; [done|].
    destruct (permits_not_stuck P MAX_RETRIES (ts, w) Hp); [simpl; unfold small in Hsm; lia|].
    split; [apply (nf_no_resume _ Hg)|]. apply Exists_exists. by exists t. }
  destruct (decide (Forall (fun t => returned t = true) ts)) as [Hr|Hr].
  - apply Hnf. eexists. by apply rstep_finish.
  - apply not_Forall_Exists, Exists_exists in Hr as (t & Ht & Hnr); [|apply _].
    apply list_elem_of_lookup_1 in Ht as [i Hi].
    pose proof (Forall_lookup_1 _ _ _ _ Hfin Hi) as Hf.
    destruct t as [a|ex| | | |]; try discriminate; [by destruct Hnr|].
    apply Hnf. eexists. by eapply rstep_raise.
Qed.
End Completion.

Section Main.
Context {N : Network} {X : XmlLib}.

(** C10: if every chunk has fewer ids than the semaphore's permits
    divided by [MAX_RETRIES] (with the semaphore of line 124, at most 24
    ids for its 25000 permits), [main]'s loop ends under every schedule and
    every server behaviour: no run is infinite, and wherever a run has to
    stop it has either processed every chunk or raised. *)
Theorem run_completes (cs : list (Z * Z)) (w : world) :
  Forall (fun c => length (chunk_ids c) * MAX_RETRIES < w_sem w) cs ->
  sn rstep (cs, Between, w) /\
  forall st, rtc rstep (cs, Between, w) st -> nf rstep st ->
    st.1 = ([], Between) \/ exists ex, st.1.2 = Raised ex.
Proof.
  intros Hcs. split; [apply rstep_sn|]. intros st Hr Hnf.
  assert (Hp : run_permits (w_sem w) st)
    by (apply (rtc_run_permits _ (cs, Between, w)); [by split|done]).
  destruct st as [[[|[s e] cs'] [|s' e' ts|ex]] w'].
  - by left.
  - by destruct (chunk_not_nf _ _ _ _ _ _ Hp).
  - right. by exists ex.
  - destruct Hnf. eexists. apply rstep_start.
  - by destruct (chunk_not_nf _ _ _ _ _ _ Hp).
  - right. by exists ex.
Qed.
End Main.

(** ** An exception of a worker ends the run *)

Section Abort.
Context {N : Network} {X : XmlLib}.

(** [main] is still awaiting the gather of [s .. e], the exception [ex]
    of task [i] still there, or has raised. *)
Definition aborting (cs : list (Z * Z)) (s e : Z) (i : nat) (ex : exn) (st : run) : Prop :=
  st.1.1 = cs /\
  ((exists ts, st.1.2 = InChunk s e ts /\ ts !! i = Some (CRaise ex)) \/ exists ex', st.1.2 = Raised ex').

(** The event loop never resumes a task that has raised. *)
Lemma gstep_keeps_raised ts w ts' w' i ex :
  gstep (ts, w) (ts', w') -> ts !! i = Some (CRaise ex) -> ts' !! i = Some (CRaise ex).
Proof.
  inversion 1 as [? ? j t t' ? Hj Hr]; subst. intros Hi.
  destruct (decide (i = j)) as [->|Hne]; [rewrite Hj in Hi; injection Hi as ->; discriminate|].
  by rewrite list_lookup_insert_ne.
Qed.

Lemma rstep_aborting cs s e i ex st st' :
  aborting cs s e i ex st -> rstep st st' -> aborting cs s e i ex st'.
Proof.
  intros [Hcs [(ts & Hph & Hi)|(ex' & Hph)]] Hs; destruct st as [[cs0 ph] w]; simpl in *; subst;
    inversion Hs as [|? ? ? ? ? ts' w' Hg|? ? ? ? ? Hall|? ? ? ? ? j ex2 Hj]; subst.
  - split; [done|]. left. exists ts'. split; [done|]. by apply (gstep_keeps_raised ts w ts' w').
  - by apply Forall_lookup_1 with (i := i) (x := CRaise ex) in Hall.
  - split; [done|]. right. by eexists.
Qed.

Lemma rtc_aborting cs s e i ex st st' :
  aborting cs s e i ex st -> rtc rstep st st' -> aborting cs s e i ex st'.
Proof. intros Ha Hr. induction Hr; eauto using rstep_aborting. Qed.

(** C12: an exception that escapes one worker of a chunk (a [ParseError]
    from the parser, a missing URI, anything no [except] names) ends the
    whole run, under every interleaving: from the moment a task of the
    chunk [s .. e] has raised, [main] never returns from that gather,
    never prints "Finished processing" for it and never starts another
    chunk; the raised task stays raised, and wherever the run has to stop
    [main] has raised. *)
Theorem raise_aborts_run (cs : list (Z * Z)) (s e : Z) (ts : list (co unit)) (w : world)
    (i : nat) (ex : exn) (st : run) :
  ts !! i = Some (CRaise ex) -> rtc rstep (cs, InChunk s e ts, w) st ->
  st.1.1 = cs /\
  ((exists ts', st.1.2 = InChunk s e ts' /\ ts' !! i = Some (CRaise ex)) \/ exists ex', st.1.2 = Raised ex') /\
  (nf rstep st -> exists ex', st.1.2 = Raised ex').
Proof.
  intros Hi Hr.
  assert (Ha : aborting cs s e i ex st).
  { apply (rtc_aborting cs s e i ex (cs, InChunk s e ts, w)); [|done]. split; [done|]. left. by exists ts. }
  destruct Ha as [Hcs Hph]. split_and!; [done|done|].
  intros Hnf. destruct Hph as [(ts' & Hph & Hi')|Hraised]; [|done].
  destruct Hnf. destruct st as [[cs' ph] w']. simpl in Hph. subst ph.
  eexists. by eapply rstep_raise.
Qed.
End Abort.

Lemma run_completes_witness :
  let st0 := ([(5, 6); (7, 8)]%Z, Between, mkWorld ∅ ∅ MAX_CONCURRENT_REQUESTS []) in
  sn (@rstep net_down demo_xml) st0 /\
  forall st, rtc (@rstep net_down demo_xml) st0 st -> nf (@rstep net_down demo_xml) st ->
    st.1 = ([], Between) \/ exists ex, st.1.2 = Raised ex.
Proof.
  apply (@run_completes net_down demo_xml [(5, 6); (7, 8)]%Z (mkWorld ∅ ∅ MAX_CONCURRENT_REQUESTS [])).
  assert (H2 : forall c, length (chunk_ids c) = 2 ->
    length (chunk_ids c) * MAX_RETRIES < w_sem (mkWorld ∅ ∅ MAX_CONCURRENT_REQUESTS [])).
  { intros c ->. change (w_sem (mkWorld ∅ ∅ MAX_CONCURRENT_REQUESTS [])) with MAX_CONCURRENT_REQUESTS.
    unfold MAX_RETRIES, MAX_CONCURRENT_REQUESTS. change 25000%nat with (25 * 1000)%nat.
    apply (Nat.mul_lt_mono_pos_r 1000 2 25); lia. }
  apply Forall_cons; split; [by apply H2|]. apply Forall_cons; split; [by apply H2|]. constructor.
Defined.

Lemma run_index_consistent_witness :
  let st0 := ([(5, 6)]%Z, Between, mkWorld ∅ ∅ MAX_CONCURRENT_REQUESTS []) in
  index_sound (w_fs st0.2) (w_idx st0.2) /\
  (st0.1.2 = Between -> index_agrees (w_fs st0.2) (w_idx st0.2)).
Proof.
  apply (@run_index_consistent net_down demo_xml [(5, 6)]%Z (mkWorld ∅ ∅ MAX_CONCURRENT_REQUESTS []));
    [split; intros ??; simpl; rewrite lookup_empty; [intros [=]|intros [? [=]]]|apply rtc_refl].
Defined.

Lemma raise_aborts_run_witness :
  let st : run := ([(10, 14)%Z], Raised ParseError, demo_world) in
  st.1.1 = [(10, 14)%Z] /\
  ((exists ts', st.1.2 = InChunk 5 9 ts' /\ ts' !! 1%nat = Some (CRaise ParseError)) \/
   exists ex', st.1.2 = Raised ex') /\
  (nf (@rstep net_down demo_xml) st -> exists ex', st.1.2 = Raised ex').
Proof.
  apply (@raise_aborts_run net_down demo_xml [(10, 14)%Z] 5 9 [CRet (); CRaise ParseError] demo_world
           1 ParseError); [reflexivity|].
  apply rtc_once. by eapply (rstep_raise _ _ _ _ _ 1).
Defined.

End RunLoop.
