(* ===== verification/Update.v ===== *)
(** * Update: update.py, the range bump between runs

    The script reads the lines of grab_mayhemids.py, replaces every line
    whose stripped text starts with [START_ID =] or [END_ID =] by the
    constant plus [increment] (the end clamped to [max_end_id]), writes the
    lines back and prints the new values.  The file is the text read and
    the text written: [update_file] reads it in text mode
    ([universal_newlines]), splits it with [readlines], runs the loop
    ([update_loop]), joins the lines with [writelines] and prints
    ([final_print]); [update] is the loop, the write and the print, and
    its [outcome] records what was written, what was printed and the
    exception the script ends with (a [uexn]).  The theorems: a written constant reads back as its value
    ([const_line_roundtrip]), one run shifts the range or, once
    [START_ID + increment] passes [max_end_id], breaks [START_ID <= END_ID];
    a script without [END_ID =] is still written back, [START_ID] bumped,
    before line 32 raises [NameError] ([update_needs_end_line]); only the
    assigned lines change ([update_file_frame]). *)

From Stdlib Require Import ZArith Lia String Ascii.
From stdpp Require Import base list.
From S2P Require Import Prelude PyStr.
Import PyStr.

Local Open Scope string_scope.

Module Update.

(** ** Constants (lines 3-4) *)

Definition increment : Z := 1000000.
Definition max_end_id : Z := 1001000000.

(** The exceptions the script can raise: [IndexError] and [ValueError]
    of [int(line.split("=")[1].strip())] (lines 14 and 20), and the
    [NameError] of line 32 when a variable was never assigned. *)
Inductive uexn := UIndexError | UValueError | UNameError.

(** What it prints: the clamp message of line 24, and line 32. *)
Inductive message := MsgClamped | MsgUpdated (new_start_id new_end_id : Z).

(** The loop state: [lines], the variables [new_start_id] and [new_end_id]
    (unbound until assigned), and the output. *)
Record ustate := UState {
    u_lines : list string;
    u_start : option Z;
    u_end : option Z;
    u_out : list message
  }.

(** The line written for a constant (lines 16 and 26). *)
Definition const_line (name : string) (v : Z) : string :=
  name ++ " = " ++ py_str_Z v ++ String "010" "".

(** [int(line.split("=")[1].strip())] (lines 14 and 20). *)
Definition parse_value (line : string) : uexn + Z :=
  match py_getitem (py_split "=" line) 1 with
  | None => inl UIndexError
  | Some piece =>
      match py_int (py_strip piece) with
      | Some v => inr v
      | None => inl UValueError
      end
  end.

(** The [START_ID] branch (lines 12-16). *)
Definition start_branch (i : nat) (line : string) (st : ustate) : uexn + ustate :=
  if py_startswith (py_strip line) "START_ID =" then
    match parse_value line with
    | inl e => inl e
    | inr current_start_id =>
        let new_start_id := (current_start_id + increment)%Z in
        inr (UState (<[i := const_line "START_ID" new_start_id]> (u_lines st))
                    (Some new_start_id) (u_end st) (u_out st))
    end
  else inr st.

(** The [END_ID] branch (lines 18-26). *)
Definition end_branch (i : nat) (line : string) (st : ustate) : uexn + ustate :=
  if py_startswith (py_strip line) "END_ID =" then
    match parse_value line with
    | inl e => inl e
    | inr current_end_id =>
        let new_end_id := (current_end_id + increment)%Z in
        let '(new_end_id, out) :=
          if (new_end_id >? max_end_id)%Z then (max_end_id, (u_out st ++ [MsgClamped])%list)
          else (new_end_id, u_out st) in
        inr (UState (<[i := const_line "END_ID" new_end_id]> (u_lines st))
                    (u_start st) (Some new_end_id) out)
    end
  else inr st.

(** One iteration of [for i, line in enumerate(lines)]: both [if]s test
    the line as read, in this order.  An exception ends the loop with what
    was printed so far. *)
Definition update_step (st : (uexn * list message) + ustate) (il : nat * string)
  : (uexn * list message) + ustate :=
  match st with
  | inl e => inl e
  | inr s =>
      match start_branch il.1 il.2 s with
      | inl e => inl (e, u_out s)
      | inr s1 =>
          match end_branch il.1 il.2 s1 with
          | inl e => inl (e, u_out s1)
          | inr s2 => inr s2
          end
      end
  end.

(** The loop of lines 11-26 over the lines read. *)
Definition update_loop (lines : list string) : (uexn * list message) + ustate :=
  fold_left update_step (zip (seq 0 (length lines)) lines) (inr (UState lines None None [])).

(** The [print] of line 32, which names both variables. *)
Definition final_print (st : ustate) : uexn + message :=
  match u_start st, u_end st with
  | Some s, Some e => inr (MsgUpdated s e)
  | _, _ => inl UNameError
  end.

(** How the script ends: the lines [writelines] writes ([None] when it
    raised before the write), everything it printed, and the exception it
    ends with. *)
Record outcome := Outcome {
    o_written : option (list string);
    o_out : list message;
    o_exn : option uexn
  }.

(** Lines 11-32 on the lines read: the loop; then the write of lines
    29-30, which happens whatever the variables are; then the print of
    line 32. *)
Definition update (lines : list string) : outcome :=
  match update_loop lines with
  | inl (e, out) => Outcome None out (Some e)
  | inr st =>
      match final_print st with
      | inr msg => Outcome (Some (u_lines st)) (u_out st ++ [msg]) None
      | inl e => Outcome (Some (u_lines st)) (u_out st) (Some e)
      end
  end.

(** ** The file *)

(** [open(path, "r")] reads in text mode with universal newlines: ["\r\n"]
    and a lone ["\r"] come back as ["\n"]. *)
Fixpoint universal_newlines (s : string) : string :=
  match s with
  | String "013" (String "010" s') => String "010" (universal_newlines s')
  | String "013" s' => String "010" (universal_newlines s')
  | String c s' => String c (universal_newlines s')
  | EmptyString => EmptyString
  end.

(** [file.readlines()] (line 8): the lines of the text, each with its
    newline, the last one without when the text does not end with one;
    [cur] is the line read so far. *)
Fixpoint readlines_from (cur : string) (s : string) : list string :=
  match s with
  | EmptyString => match cur with EmptyString => [] | _ => [cur] end
  | String c s' =>
      if Ascii.eqb c "010" then (cur ++ String c EmptyString) :: readlines_from EmptyString s'
      else readlines_from (cur ++ String c EmptyString) s'
  end.

Definition py_readlines (s : string) : list string := readlines_from EmptyString s.

(** [file.writelines(lines)] (line 30): the lines one after the other. *)
Definition py_writelines (lines : list string) : string := String.concat EmptyString lines.

(** A line one of the two [if]s of the loop assigns. *)
Definition assigns (line : string) : bool :=
  py_startswith (py_strip line) "START_ID =" || py_startswith (py_strip line) "END_ID =".

(** The whole script on the text of the file: read (lines 7-8), the loop,
    the write back (lines 29-30) of the text [writelines] produces, and
    the print (line 32); the result is the text written, if any, what was
    printed and the exception the script ends with. *)
Definition update_file (src : string) : option string * list message * option uexn :=
  let o := update (py_readlines (universal_newlines src)) in
  (py_writelines <$> o_written o, o_out o, o_exn o).

(** ** Round trip *)

Lemma py_strip_const_line c n v :
  py_isspace c = false ->
  py_strip (const_line (String c n) v) = (String c n ++ " = " ++ py_str_Z v).
Proof.
  intros Hc. unfold py_strip, const_line.
  change (String c n ++ ?x) with (String c (n ++ x)).
  cbn [py_lstrip]. rewrite Hc.
  change (String c (n ++ ?x)) with (String c n ++ x).
  rewrite (string_app_assoc (String c n) " = "), py_rstrip_int_line.
  by rewrite <- string_app_assoc.
Qed.

Lemma parse_const_line name v :
  str_forall (not_char "=") name = true -> parse_value (const_line name v) = inr v.
Proof.
  intros Hn. unfold parse_value, const_line.
  change (name ++ " = " ++ ?x) with (name ++ (" " ++ String "=" (String " " x))).
  rewrite string_app_assoc.
  rewrite py_split_app_sep by (rewrite str_forall_app, Hn; done).
  rewrite py_split_no_sep.
  2:{ simpl. rewrite str_forall_app, (py_str_Z_free "=" v eq_refl). done. }
  cbn -[py_strip py_int py_str_Z]. change (Z.to_nat 1) with 1%nat. cbn -[py_strip py_int py_str_Z].
  rewrite py_strip_padded_int, py_int_str. done.
Qed.

(** C31: the line update.py writes for a constant is read back by the next
    run as that value: [int(line.split("=")[1].strip())] of
    [f"START_ID = {v}\n"] is [v], and its stripped text still starts with
    [START_ID =]. *)
Theorem const_line_roundtrip (v : Z) :
  parse_value (const_line "START_ID" v) = inr v /\
  py_startswith (py_strip (const_line "START_ID" v)) "START_ID =" = true.
Proof.
  split; [by apply parse_const_line|].
  by rewrite py_strip_const_line.
Qed.

(** The new [END_ID]: plus [increment], clamped to [max_end_id]. *)
Definition bumped_end (e : Z) : Z :=
  if (e + increment >? max_end_id)%Z then max_end_id else (e + increment)%Z.

(** On a script whose constants are [START_ID = s] and [END_ID = e],
    update.py writes [START_ID = s + increment] and
    [END_ID = min(e + increment, max_end_id)] and prints them. *)
Lemma update_const_lines (s e : Z) :
  update [const_line "START_ID" s; const_line "END_ID" e] =
  Outcome (Some [const_line "START_ID" (s + increment); const_line "END_ID" (bumped_end e)])
          ((if (e + increment >? max_end_id)%Z then [MsgClamped] else []) ++
           [MsgUpdated (s + increment) (bumped_end e)])%list None.
Proof.
  unfold update, update_loop. cbn [length seq zip fold_left].
  unfold update_step, start_branch, end_branch. cbn [fst snd].
  rewrite !py_strip_const_line, !parse_const_line by done.
  cbn -[const_line py_str_Z increment max_end_id].
  unfold bumped_end. by destruct (e + increment >? max_end_id)%Z.
Qed.

(** C30: while the clamp does not bite, one update shifts the whole range
    [START_ID .. END_ID] by [increment]: its length is kept. *)
Theorem update_shifts_range (s e : Z) :
  (e + increment <= max_end_id)%Z ->
  update [const_line "START_ID" s; const_line "END_ID" e] =
  Outcome (Some [const_line "START_ID" (s + increment); const_line "END_ID" (e + increment)])
          [MsgUpdated (s + increment) (e + increment)] None.
Proof.
  intros He. rewrite update_const_lines. unfold bumped_end.
  rewrite Z.gtb_ltb, (proj2 (Z.ltb_ge _ _)) by lia. done.
Qed.

(** C29: [START_ID] is not clamped: once [START_ID + increment] passes
    [max_end_id], update.py writes a [START_ID] above the [END_ID] it
    writes, and the next run's [range(START_ID, END_ID + 1, ...)] is empty.
    The repository's own constants ([9816000000] for both) are such a
    case. *)
Theorem update_breaks_start_le_end (s e : Z) :
  (s <= e)%Z -> (max_end_id < s + increment)%Z ->
  exists s' e' out,
    update [const_line "START_ID" s; const_line "END_ID" e] =
      Outcome (Some [const_line "START_ID" s'; const_line "END_ID" e']) out None /\ (e' < s')%Z.
Proof.
  intros Hse Hs. rewrite update_const_lines. do 3 eexists. split; [reflexivity|].
  unfold bumped_end. destruct (Z.gtb_spec (e + increment) max_end_id); lia.
Qed.

(** ** A script without [END_ID =] *)

Lemma fold_update_error l e : fold_left update_step l (inl e) = inl e.
Proof. by induction l. Qed.

(** The loop passes over the lines no [if] assigns. *)
Lemma fold_unassigned l st :
  Forall (fun p => assigns p.2 = false) l -> fold_left update_step l (inr st) = inr st.
Proof.
  revert st. induction l as [|[i line] l IH]; intros st Hl; [done|].
  apply Forall_cons in Hl as [Ha Hl]. simpl in Ha. apply orb_false_iff in Ha as [Hs He].
  simpl. unfold start_branch, end_branch. rewrite Hs, He. by apply IH.
Qed.

Lemma Forall_zip_snd {A B} (P : B -> Prop) (xs : list A) (ys : list B) :
  Forall P ys -> Forall (fun p => P p.2) (zip xs ys).
Proof.
  revert xs. induction ys as [|y ys IH]; intros [|x xs] Hys; simpl; try constructor.
  - by inversion Hys.
  - apply IH. by inversion Hys.
Qed.

(** The [START_ID] line of value [s] at index [i]. *)
Lemma update_step_start i s st :
  update_step (inr st) (i, const_line "START_ID" s) =
  inr (UState (<[i := const_line "START_ID" (s + increment)]> (u_lines st))
              (Some (s + increment)%Z) (u_end st) (u_out st)).
Proof.
  unfold update_step, start_branch, end_branch. cbn [fst snd].
  rewrite !py_strip_const_line, parse_const_line by done. by cbn -[const_line py_str_Z increment].
Qed.

(** C32: a script whose only assigned line is [START_ID = s] (no
    [END_ID =] line): update.py writes the file back with [START_ID]
    bumped by [increment] and every other line unchanged (lines 29-30),
    prints nothing, and only then raises the [NameError] of line 32 on
    [new_end_id]. *)
Theorem update_needs_end_line (s : Z) (rest : list string) :
  Forall (fun line => assigns line = false) rest ->
  update (const_line "START_ID" s :: rest) =
    Outcome (Some (const_line "START_ID" (s + increment) :: rest)) [] (Some UNameError).
Proof.
  intros Hrest. unfold update, update_loop. cbn [length seq zip fold_left].
  rewrite update_step_start, fold_unassigned; [done|]. by apply (Forall_zip_snd (fun line => assigns line = false)).
Qed.

Lemma update_shifts_range_witness :
  update [const_line "START_ID" 1000; const_line "END_ID" 1999] =
  Outcome (Some [const_line "START_ID" (1000 + increment); const_line "END_ID" (1999 + increment)])
          [MsgUpdated (1000 + increment) (1999 + increment)] None.
Proof. apply update_shifts_range. vm_compute. discriminate. Defined.

Lemma update_breaks_start_le_end_witness :
  exists s' e' out,
    update [const_line "START_ID" 9816000000; const_line "END_ID" 9816000000] =
      Outcome (Some [const_line "START_ID" s'; const_line "END_ID" e']) out None /\ (e' < s')%Z.
Proof. apply update_breaks_start_le_end; [lia | vm_compute; reflexivity]. Defined.

Lemma update_needs_end_line_witness :
  update [const_line "START_ID" 5; "x = 1"] =
    Outcome (Some [const_line "START_ID" (5 + increment); "x = 1"]) [] (Some UNameError).
Proof. apply update_needs_end_line. constructor; [reflexivity|constructor]. Defined.

(** ** The lines update.py does not assign *)

(** The lines being written still agree with the script at the lines no
    [if] assigns. *)
Definition frame_inv (lines ls : list string) : Prop :=
  length ls = length lines /\
  forall i x, lines !! i = Some x -> assigns x = false -> ls !! i = Some x.

Lemma frame_insert lines ls i line v :
  frame_inv lines ls -> lines !! i = Some line -> assigns line = true ->
  frame_inv lines (<[i := v]> ls).
Proof.
  intros [Hl Hf] Hi Ha. split; [by rewrite length_insert|].
  intros j x Hj Hx. destruct (decide (i = j)) as [->|Hne]; [congruence|].
  rewrite list_lookup_insert_ne by done. by apply Hf.
Qed.

Lemma update_step_frame lines l st st' :
  Forall (fun p => lines !! p.1 = Some p.2) l -> frame_inv lines (u_lines st) ->
  fold_left update_step l (inr st) = inr st' -> frame_inv lines (u_lines st').
Proof.
  revert st. induction l as [|[i line] l IH]; intros st Hl Hst Hfold; simpl in *; [congruence|].
  apply Forall_cons in Hl as [Hi Hl]. simpl in Hi.
  unfold start_branch, end_branch in Hfold.
  destruct (py_startswith (py_strip line) "START_ID =") eqn:Hs,
    (py_startswith (py_strip line) "END_ID =") eqn:He;
    [| | |by eapply IH];
    (destruct (parse_value line) as [e|v]; cbn in Hfold; [by rewrite fold_update_error in Hfold|]);
    try destruct (_ >? _)%Z; (eapply IH; [done| |done]); cbn [u_lines];
    repeat (eapply frame_insert; [| |unfold assigns; rewrite ?Hs, ?He, ?orb_true_r]; try done).
Qed.

Lemma zip_seq_lookup (lines : list string) :
  Forall (fun p => lines !! p.1 = Some p.2) (zip (seq 0 (length lines)) lines).
Proof.
  apply Forall_lookup. intros k [i x] Hk.
  apply lookup_zip_with_Some in Hk as (i' & x' & [= <- <-] & Hi & Hx).
  apply lookup_seq in Hi as [-> _]. done.
Qed.

(** What is written is the lines at the end of the loop. *)
Lemma update_written lines ls :
  o_written (update lines) = Some ls -> exists st, update_loop lines = inr st /\ ls = u_lines st.
Proof.
  unfold update. destruct (update_loop lines) as [[e o]|st]; [done|].
  destruct (final_print st); intros [= <-]; eauto.
Qed.

(** C33: update.py rewrites only the lines its two [if]s assign: every
    other line of the script is written back unchanged, at its place, and
    no line is added or lost. *)
Theorem update_file_frame (src dst : string) (out : list message) (ex : option uexn) :
  update_file src = (Some dst, out, ex) ->
  exists lines', dst = py_writelines lines' /\
    length lines' = length (py_readlines (universal_newlines src)) /\
    forall i x, py_readlines (universal_newlines src) !! i = Some x -> assigns x = false ->
      lines' !! i = Some x.
Proof.
  unfold update_file. set (lines := py_readlines (universal_newlines src)). intros H.
  destruct (o_written (update lines)) as [ls|] eqn:Hw; [|done]. injection H as <- _ _.
  destruct (update_written lines ls Hw) as (st & Hfold & ->).
  assert (Hst : frame_inv lines (u_lines st)).
  { eapply update_step_frame; [apply zip_seq_lookup| |exact Hfold]. by split. }
  destruct Hst as [Hl Hf]. by exists (u_lines st).
Qed.

Definition demo_script : string :=
  const_line "START_ID" 1 ++ const_line "END_ID" 5 ++ "x = 2" ++ String "010" "".

Lemma update_file_frame_witness :
  exists lines',
    py_writelines [const_line "START_ID" (1 + increment); const_line "END_ID" (5 + increment);
                   ("x = 2" ++ String "010" "")] = py_writelines lines' /\
    length lines' = length (py_readlines (universal_newlines demo_script)) /\
    forall i x, py_readlines (universal_newlines demo_script) !! i = Some x ->
      assigns x = false -> lines' !! i = Some x.
Proof.
  apply (update_file_frame demo_script _ [MsgUpdated (1 + increment) (5 + increment)] None).
  vm_compute. reflexivity.
Defined.

End Update.
